(** * Coordination core of the crawl workers: a shallow embedding

    The three worker programs (manager, general, product) coordinate through
    a Redis key-value store.  This development embeds the parts of
    [manager-worker/src/index.ts], [general-worker/src/index.ts],
    [product-worker/src/index.ts] and [shared/src/queue/index.ts] that
    decide the scheduling behaviour, and proves properties of them.

    Conventions of the embedding:
    - JavaScript numbers that hold page numbers, counts and clock values are
      integers of [Z]; the model is exact inside the safe-integer range.
    - [Math.ceil (a / b)] on positive integers is [ceilDiv a b].
    - Redis values are strings.  The strings produced by [JSON.stringify]
      on a page range or on a page list are kept in decoded form
      ([VRange], [VPages]); all other values are raw strings ([VStr]).
    - [Date.now ()] is an explicit argument [now] (milliseconds).
    - [await] points are sequential composition, except where the
      interleaving is the object of study: in the lock modules ([Lock],
      [Acquire], [Refresh]) every Redis command is a step of its own, and
      the shutdown of [Lifecycle] lets the late writes of the worker fall
      between its deletions.
    - A Redis key with an expiry time is served up to and including that
      time and is gone after it. *)

From Stdlib Require Import Ascii String ZArith Lia.
From Stdlib Require Import DecimalString DecimalZ DecimalPos DecimalFacts.
From stdpp Require Import base decidable countable strings list sorting
  gmap gmultiset fin_sets.

Open Scope Z_scope.

(** ** JavaScript primitives *)

Module JS.

(** [Math.ceil (a / b)] for integers [a >= 0] and [b > 0]. *)
Definition ceilDiv (a b : Z) : Z := (a + b - 1) / b.

(** White space skipped by [parseInt] (the ASCII part of StrWhiteSpaceChar). *)
Definition isWhiteSpace (c : ascii) : bool :=
  let n := nat_of_ascii c in
  ((9 <=? n)%nat && (n <=? 13)%nat) || (n =? 32)%nat.

Fixpoint trimStart (s : string) : string :=
  match s with
  | String c s' => if isWhiteSpace c then trimStart s' else s
  | EmptyString => s
  end.

(** The longest prefix of decimal digits, as a decimal numeral. *)
Fixpoint readDigits (s : string) : Decimal.uint :=
  match s with
  | String c s' =>
      match c with
      | "0"%char => Decimal.D0 (readDigits s')
      | "1"%char => Decimal.D1 (readDigits s')
      | "2"%char => Decimal.D2 (readDigits s')
      | "3"%char => Decimal.D3 (readDigits s')
      | "4"%char => Decimal.D4 (readDigits s')
      | "5"%char => Decimal.D5 (readDigits s')
      | "6"%char => Decimal.D6 (readDigits s')
      | "7"%char => Decimal.D7 (readDigits s')
      | "8"%char => Decimal.D8 (readDigits s')
      | "9"%char => Decimal.D9 (readDigits s')
      | _ => Decimal.Nil
      end
  | EmptyString => Decimal.Nil
  end.

Definition readNumber (s : string) : option Z :=
  match readDigits s with
  | Decimal.Nil => None
  | d => Some (Z.of_uint d)
  end.

(** [parseInt (s, 10)]; [None] stands for [NaN]. *)
Definition parseInt (s : string) : option Z :=
  match trimStart s with
  | String "-"%char s' => Z.opp <$> readNumber s'
  | String "+"%char s' => readNumber s'
  | s' => readNumber s'
  end.

(** [n.toString ()] for an integer [n]. *)
Definition toString (n : Z) : string :=
  NilEmpty.string_of_int (Z.to_int n).

(** Truthiness of a string: [if (str)]. *)
Definition truthy (s : string) : bool :=
  match s with EmptyString => false | _ => true end.

(** [arr.slice (start, end)] for [0 <= start] and [0 <= end]. *)
Definition slice {A} (start end_ : nat) (l : list A) : list A :=
  take (end_ - start)%nat (drop start l).

End JS.

(** ** The coordinator store ([shared/src/queue/index.ts]) *)

Inductive workerType := manager | general | product.

(** The Redis keys; the constructors with an argument are the key-building
    functions of the source, whose template strings differ per worker id. *)
Inductive key :=
  | REDIS_KEY_TOTAL_PAGES
  | REDIS_KEY_CRAWL_TRIGGER
  | REDIS_KEY_TABS_READY
  | REDIS_KEY_BATCH_COMPLETE
  | REDIS_KEY_WORKER_PAGES (workerId : nat)
  | REDIS_KEY_WORKER_COMPLETE (workerId : nat)
  | REDIS_KEY_WORKER_HEARTBEAT (workerId : nat)
  | REDIS_KEY_PENDING_PAGES
  | REDIS_KEY_ASSIGNED_PAGES
  | REDIS_KEY_GENERAL_WORKER_HEARTBEAT (workerId : nat)
  | REDIS_KEY_GENERAL_WORKER_PAGES (workerId : nat)
  | REDIS_KEY_GENERAL_WORKER_COMPLETE (workerId : nat)
  | REDIS_KEY_GENERAL_WORKER_PROCESSING (workerId : nat)
  | REDIS_KEY_ROTATION_INDEX
  | REDIS_KEY_LAST_ASSIGNED_PAGE
  | REDIS_KEY_WORKER_LOCK (role : workerType) (workerId : nat).

Definition workerTypeName (r : workerType) : string :=
  match r with
  | manager => "manager"
  | general => "general"
  | product => "product"
  end.

(** A worker id inside a template string. *)
Definition idText (workerId : nat) : string := JS.toString (Z.of_nat workerId).
Arguments idText : simpl never.

(** The key as it is spelled in Redis. *)
Definition keyName (k : key) : string :=
  let num := idText in
  match k with
  | REDIS_KEY_TOTAL_PAGES => "vine:total-pages"
  | REDIS_KEY_CRAWL_TRIGGER => "vine:crawl-trigger"
  | REDIS_KEY_TABS_READY => "vine:tabs-ready"
  | REDIS_KEY_BATCH_COMPLETE => "vine:batch-complete"
  | REDIS_KEY_WORKER_PAGES w => "vine:worker-" +:+ num w +:+ "-pages"
  | REDIS_KEY_WORKER_COMPLETE w => "vine:worker-" +:+ num w +:+ "-complete"
  | REDIS_KEY_WORKER_HEARTBEAT w => "vine:worker-" +:+ num w +:+ "-heartbeat"
  | REDIS_KEY_PENDING_PAGES => "vine:pending-pages"
  | REDIS_KEY_ASSIGNED_PAGES => "vine:assigned-pages"
  | REDIS_KEY_GENERAL_WORKER_HEARTBEAT w =>
      "vine:general-worker-" +:+ num w +:+ "-heartbeat"
  | REDIS_KEY_GENERAL_WORKER_PAGES w =>
      "vine:general-worker-" +:+ num w +:+ "-pages"
  | REDIS_KEY_GENERAL_WORKER_COMPLETE w =>
      "vine:general-worker-" +:+ num w +:+ "-complete"
  | REDIS_KEY_GENERAL_WORKER_PROCESSING w =>
      "vine:general-worker-" +:+ num w +:+ "-processing"
  | REDIS_KEY_ROTATION_INDEX => "vine:rotation-index"
  | REDIS_KEY_LAST_ASSIGNED_PAGE => "vine:last-assigned-page"
  | REDIS_KEY_WORKER_LOCK r w =>
      "vine:lock:" +:+ workerTypeName r +:+ "-" +:+ num w
  end.

#[global] Instance workerType_eq_dec : EqDecision workerType.
Proof. solve_decision. Defined.

#[global] Instance key_eq_dec : EqDecision key.
Proof. solve_decision. Defined.

Definition key_code (k : key) : nat * nat :=
  match k with
  | REDIS_KEY_TOTAL_PAGES => (0, 0)
  | REDIS_KEY_CRAWL_TRIGGER => (1, 0)
  | REDIS_KEY_TABS_READY => (2, 0)
  | REDIS_KEY_BATCH_COMPLETE => (3, 0)
  | REDIS_KEY_WORKER_PAGES w => (4, w)
  | REDIS_KEY_WORKER_COMPLETE w => (5, w)
  | REDIS_KEY_WORKER_HEARTBEAT w => (6, w)
  | REDIS_KEY_PENDING_PAGES => (7, 0)
  | REDIS_KEY_ASSIGNED_PAGES => (8, 0)
  | REDIS_KEY_GENERAL_WORKER_HEARTBEAT w => (9, w)
  | REDIS_KEY_GENERAL_WORKER_PAGES w => (10, w)
  | REDIS_KEY_GENERAL_WORKER_COMPLETE w => (11, w)
  | REDIS_KEY_GENERAL_WORKER_PROCESSING w => (12, w)
  | REDIS_KEY_ROTATION_INDEX => (13, 0)
  | REDIS_KEY_LAST_ASSIGNED_PAGE => (14, 0)
  | REDIS_KEY_WORKER_LOCK manager w => (15, w)
  | REDIS_KEY_WORKER_LOCK general w => (16, w)
  | REDIS_KEY_WORKER_LOCK product w => (17, w)
  end%nat.

Definition key_decode (c : nat * nat) : key :=
  match c with
  | (0, _) => REDIS_KEY_TOTAL_PAGES
  | (1, _) => REDIS_KEY_CRAWL_TRIGGER
  | (2, _) => REDIS_KEY_TABS_READY
  | (3, _) => REDIS_KEY_BATCH_COMPLETE
  | (4, w) => REDIS_KEY_WORKER_PAGES w
  | (5, w) => REDIS_KEY_WORKER_COMPLETE w
  | (6, w) => REDIS_KEY_WORKER_HEARTBEAT w
  | (7, _) => REDIS_KEY_PENDING_PAGES
  | (8, _) => REDIS_KEY_ASSIGNED_PAGES
  | (9, w) => REDIS_KEY_GENERAL_WORKER_HEARTBEAT w
  | (10, w) => REDIS_KEY_GENERAL_WORKER_PAGES w
  | (11, w) => REDIS_KEY_GENERAL_WORKER_COMPLETE w
  | (12, w) => REDIS_KEY_GENERAL_WORKER_PROCESSING w
  | (13, _) => REDIS_KEY_ROTATION_INDEX
  | (14, _) => REDIS_KEY_LAST_ASSIGNED_PAGE
  | (15, w) => REDIS_KEY_WORKER_LOCK manager w
  | (16, w) => REDIS_KEY_WORKER_LOCK general w
  | (_, w) => REDIS_KEY_WORKER_LOCK product w
  end%nat.

#[global] Instance key_countable : Countable key.
Proof.
  apply (inj_countable' key_code key_decode).
  intros [ | | | | | | | | | | | | | | | [] ?]; reflexivity.
Defined.

(** A stored value.  [VRange] and [VPages] are the JSON texts written with
    [JSON.stringify]; [JSON.parse] of them gives the content back. *)
Inductive value :=
  | VStr (s : string)
  | VRange (start end_ : Z)
  | VPages (pages : list Z).

#[global] Instance value_eq_dec : EqDecision value.
Proof. solve_decision. Defined.

Abbreviation store := (gmap key value).

Definition set (k : key) (v : value) (s : store) : store := <[k := v]> s.
Definition del (k : key) (s : store) : store := delete k s.

(** [if (str)] on the result of [redisConnection.get]: [null] and the empty
    string are falsy; a JSON text is never empty. *)
Definition truthy (o : option value) : bool :=
  match o with
  | Some (VStr s) => JS.truthy s
  | Some _ => true
  | None => false
  end.

(** [str === "1"]. *)
Definition isOne (o : option value) : bool :=
  bool_decide (o = Some (VStr "1")).

(** [parseInt (str, 10)] on a stored value; a JSON text starts with a brace
    or a bracket, so it parses to [NaN]. *)
Definition parseValue (v : value) : option Z :=
  match v with
  | VStr s => JS.parseInt s
  | _ => None
  end.

(** The reading of a numeric key that the manager repeats for the rotation
    index and the last assigned page: absent (or empty), a valid
    non-negative number, or an invalid text. *)
Inductive counter := CAbsent | CValid (n : Z) | CInvalid.

Definition readCounter (o : option value) : counter :=
  match o with
  | Some v =>
      if truthy (Some v) then
        match parseValue v with
        | Some parsed => if 0 <=? parsed then CValid parsed else CInvalid
        | None => CInvalid
        end
      else CAbsent
  | None => CAbsent
  end.

Definition counterValue (c : counter) : Z :=
  match c with CValid n => n | _ => 0 end.

(** Liveness through heartbeats: [detectActiveGeneralWorkers] of the manager
    and [detectActiveWorkers] of the general worker are the same code over
    two key families. *)
Definition HEARTBEAT_TIMEOUT_MS : Z := 60000.

Definition heartbeatFresh (heartbeat : nat -> key) (now : Z) (s : store)
    (workerId : nat) : bool :=
  let heartbeatStr := s !! heartbeat workerId in
  if truthy heartbeatStr then
    match heartbeatStr ≫= parseValue with
    | Some heartbeatTime => bool_decide (now - heartbeatTime < HEARTBEAT_TIMEOUT_MS)
    | None => false
    end
  else false.

Definition detectActive (heartbeat : nat -> key) (now : Z) (s : store)
    : list nat :=
  let activeWorkers := List.filter (heartbeatFresh heartbeat now s) (seq 1 20) in
  merge_sort Nat.le activeWorkers.

(** ** The manager ([manager-worker/src/index.ts]) *)

Record config := {
  ENABLE_ROUND_ROBIN_ROTATION : bool;
  ROTATION_BATCH_SIZE : Z;
}.

Module Manager.

Definition detectActiveGeneralWorkers (now : Z) (s : store) : list nat :=
  detectActive REDIS_KEY_GENERAL_WORKER_HEARTBEAT now s.

(** The rotation state as the manager reads it: an absent or invalid text
    counts as 0. *)
Definition lastAssignedPage (s : store) : Z :=
  counterValue (readCounter (s !! REDIS_KEY_LAST_ASSIGNED_PAGE)).

Definition rotationIndex (s : store) : Z :=
  counterValue (readCounter (s !! REDIS_KEY_ROTATION_INDEX)).

(** The reset branch of the rotation: clear every active worker's keys. *)
Fixpoint clearWorkers (activeWorkers : list nat) (s : store) : store :=
  match activeWorkers with
  | [] => s
  | workerId :: rest =>
      clearWorkers rest
        (del (REDIS_KEY_GENERAL_WORKER_PAGES workerId)
           (del (REDIS_KEY_GENERAL_WORKER_COMPLETE workerId) s))
  end.

Definition distributePagesRoundRobin (batchSize totalPages now : Z)
    (s : store) : store :=
  let activeWorkers := detectActiveGeneralWorkers now s in
  if bool_decide (length activeWorkers = 0%nat) then s else
  let count := Z.of_nat (length activeWorkers) in
  let rotationIndexStr := s !! REDIS_KEY_ROTATION_INDEX in
  let lastAssignedPageStr := s !! REDIS_KEY_LAST_ASSIGNED_PAGE in
  let '(rotationIndex, s) :=
    match readCounter rotationIndexStr with
    | CValid parsed => (parsed, s)
    | CInvalid => (0, set REDIS_KEY_ROTATION_INDEX (VStr "0") s)
    | CAbsent => (0, s)
    end in
  let '(rotationIndex, s) :=
    if count <=? rotationIndex
    then (0, set REDIS_KEY_ROTATION_INDEX (VStr "0") s)
    else (rotationIndex, s) in
  let '(lastAssignedPage, s) :=
    match readCounter lastAssignedPageStr with
    | CValid parsed => (parsed, s)
    | CInvalid => (0, set REDIS_KEY_LAST_ASSIGNED_PAGE (VStr "0") s)
    | CAbsent => (0, s)
    end in
  if totalPages <=? lastAssignedPage then
    let s := set REDIS_KEY_ROTATION_INDEX (VStr "0") s in
    let s := set REDIS_KEY_LAST_ASSIGNED_PAGE (VStr "0") s in
    clearWorkers activeWorkers s
  else
    (* [rotationIndex % length] is below the length, which is not 0 *)
    match activeWorkers !! Z.to_nat (rotationIndex `mod` count) with
    | None => s
    | Some workerId =>
        let startPage := lastAssignedPage + 1 in
        let endPage := Z.min (startPage + batchSize - 1) totalPages in
        if totalPages <? startPage then s else
        let s := set (REDIS_KEY_GENERAL_WORKER_PAGES workerId)
                   (VRange startPage endPage) s in
        let s := del (REDIS_KEY_GENERAL_WORKER_COMPLETE workerId) s in
        let nextRotationIndex := (rotationIndex + 1) `mod` count in
        let s := set REDIS_KEY_ROTATION_INDEX
                   (VStr (JS.toString nextRotationIndex)) s in
        set REDIS_KEY_LAST_ASSIGNED_PAGE (VStr (JS.toString endPage)) s
    end.

(** The loop of [distributePagesEvenly]; [i] is the loop index. *)
Fixpoint assignEvenly (pagesPerWorker totalPages : Z) (i : nat)
    (activeWorkers : list nat) (s : store) : store :=
  match activeWorkers with
  | [] => s
  | workerId :: rest =>
      let startPage := Z.of_nat i * pagesPerWorker + 1 in
      let endPage := Z.min ((Z.of_nat i + 1) * pagesPerWorker) totalPages in
      let s := set (REDIS_KEY_GENERAL_WORKER_PAGES workerId)
                 (VRange startPage endPage) s in
      let s := del (REDIS_KEY_GENERAL_WORKER_COMPLETE workerId) s in
      assignEvenly pagesPerWorker totalPages (S i) rest s
  end.

Definition distributePagesEvenly (totalPages now : Z) (s : store) : store :=
  let activeWorkers := detectActiveGeneralWorkers now s in
  if bool_decide (length activeWorkers = 0%nat) then s else
  let pagesPerWorker :=
    JS.ceilDiv totalPages (Z.of_nat (length activeWorkers)) in
  assignEvenly pagesPerWorker totalPages 0 activeWorkers s.

Definition distributePagesToGeneralWorkers (cfg : config)
    (totalPages now : Z) (s : store) : store :=
  if ENABLE_ROUND_ROBIN_ROTATION cfg
  then distributePagesRoundRobin (ROTATION_BATCH_SIZE cfg) totalPages now s
  else distributePagesEvenly totalPages now s.

(** Round-robin trigger, first loop: some worker completed and pages remain. *)
Definition anyComplete (lastAssignedPage totalPages : Z) (s : store)
    (activeWorkers : list nat) : bool :=
  existsb (fun workerId =>
    isOne (s !! REDIS_KEY_GENERAL_WORKER_COMPLETE workerId)
    && (lastAssignedPage <? totalPages)) activeWorkers.

(** Round-robin trigger, second loop: some worker has no assignment. *)
Definition anyUnassigned (s : store) (activeWorkers : list nat) : bool :=
  existsb (fun workerId =>
    negb (truthy (s !! REDIS_KEY_GENERAL_WORKER_PAGES workerId)))
    activeWorkers.

(** Even-mode trigger.  [None] is the exception of [JSON.parse] on a text
    that is not JSON, which the caller catches; a page list has no [end], and
    the comparison with it fails. *)
Fixpoint needsEvenAssignment (totalPages : Z) (s : store)
    (activeWorkers : list nat) : option bool :=
  match activeWorkers with
  | [] => Some false
  | workerId :: rest =>
      let pagesStr := s !! REDIS_KEY_GENERAL_WORKER_PAGES workerId in
      if negb (truthy pagesStr) then Some true
      else if isOne (s !! REDIS_KEY_GENERAL_WORKER_PROCESSING workerId)
      then needsEvenAssignment totalPages s rest
      else if isOne (s !! REDIS_KEY_GENERAL_WORKER_COMPLETE workerId) then
        match pagesStr with
        | Some (VRange _ end_) =>
            if end_ <? totalPages then Some true
            else needsEvenAssignment totalPages s rest
        | Some (VPages _) => needsEvenAssignment totalPages s rest
        | _ => None
        end
      else needsEvenAssignment totalPages s rest
  end.

(** One tick.  [now] is the clock at the liveness check of the tick and
    [now'] the clock at the one inside the distribution. *)
Definition checkAndAssignWork (cfg : config) (now now' : Z) (s : store)
    : store :=
  let totalPagesStr := s !! REDIS_KEY_TOTAL_PAGES in
  if negb (truthy totalPagesStr) then s else
  match totalPagesStr ≫= parseValue with
  | None => s
  | Some totalPages =>
      if totalPages <=? 0 then s else
      let activeWorkers := detectActiveGeneralWorkers now s in
      if bool_decide (length activeWorkers = 0%nat) then s else
      let needsAssignment :=
        if ENABLE_ROUND_ROBIN_ROTATION cfg then
          let lastAssignedPage := lastAssignedPage s in
          Some (anyComplete lastAssignedPage totalPages s activeWorkers
                || anyUnassigned s activeWorkers)
        else needsEvenAssignment totalPages s activeWorkers in
      match needsAssignment with
      | Some true => distributePagesToGeneralWorkers cfg totalPages now' s
      | _ => s
      end
  end.

End Manager.

(** ** The general worker ([general-worker/src/index.ts]) *)

Module General.

Definition detectActiveWorkers (now : Z) (s : store) : list nat :=
  detectActive REDIS_KEY_WORKER_HEARTBEAT now s.

(** The first loop of [reassignPagesFromIdleWorkers]: the busy and the idle
    workers, each in the order of [activeWorkers].  A page list is written
    with [JSON.stringify] on an array; a range read here has no [length], so
    its worker counts as idle; on any other text [JSON.parse] raises, which
    is [None]. *)
Fixpoint classify (s : store) (activeWorkers : list nat)
    : option (list nat * list nat) :=
  match activeWorkers with
  | [] => Some ([], [])
  | workerId :: rest =>
      let pagesStr := s !! REDIS_KEY_WORKER_PAGES workerId in
      if truthy pagesStr then
        match pagesStr with
        | Some (VPages pages) =>
            '(busyWorkers, idleWorkers) ← classify s rest;
            if bool_decide (0 < length pages)%nat
            then Some (workerId :: busyWorkers, idleWorkers)
            else Some (busyWorkers, workerId :: idleWorkers)
        | Some (VRange _ _) =>
            '(busyWorkers, idleWorkers) ← classify s rest;
            Some (busyWorkers, workerId :: idleWorkers)
        | _ => None
        end
      else
        '(busyWorkers, idleWorkers) ← classify s rest;
        Some (busyWorkers, workerId :: idleWorkers)
  end.

(** The loop that hands the removed pages to the idle workers; [i] is the
    loop index. *)
Fixpoint giveToIdle (pagesPerIdleWorker : nat) (reassignPages : list Z)
    (i : nat) (idleWorkers : list nat) (s : store) : store :=
  match idleWorkers with
  | [] => s
  | idleWorker :: rest =>
      let start := (i * pagesPerIdleWorker)%nat in
      let end_ := Nat.min (start + pagesPerIdleWorker) (length reassignPages) in
      let pagesForWorker := JS.slice start end_ reassignPages in
      let s :=
        if bool_decide (0 < length pagesForWorker)%nat
        then set (REDIS_KEY_WORKER_PAGES idleWorker) (VPages pagesForWorker) s
        else s in
      giveToIdle pagesPerIdleWorker reassignPages (S i) rest s
  end.

(** [Math.ceil (a / b)] on two lengths. *)
Definition ceilLen (a b : nat) : nat :=
  Z.to_nat (JS.ceilDiv (Z.of_nat a) (Z.of_nat b)).

(** The rebalance step.  An exception of [JSON.parse] can only happen before
    the first write, so it leaves the store as it is. *)
Definition reassignPagesFromIdleWorkers (activeWorkers : list nat)
    (s : store) : store :=
  match classify s activeWorkers with
  | None => s
  | Some (busyWorkers, idleWorkers) =>
      if bool_decide (0 < length idleWorkers)%nat
         && bool_decide (0 < length busyWorkers)%nat then
        match busyWorkers with
        | [] => s
        | busiestWorkerId :: _ =>
            match s !! REDIS_KEY_WORKER_PAGES busiestWorkerId with
            | Some (VPages pages) =>
                if bool_decide (1 < length pages)%nat then
                  let half := ceilLen (length pages) 2 in
                  let reassignPages := drop half pages in
                  let keepPages := take half pages in
                  let s := set (REDIS_KEY_WORKER_PAGES busiestWorkerId)
                             (VPages keepPages) s in
                  let pagesPerIdleWorker :=
                    ceilLen (length reassignPages) (length idleWorkers) in
                  giveToIdle pagesPerIdleWorker reassignPages 0 idleWorkers s
                else s
            | _ => s
            end
        end
      else s
  end.

(** The page list of a product worker as the general worker reads it. *)
Definition pagesOf (s : store) (workerId : nat) : list Z :=
  match s !! REDIS_KEY_WORKER_PAGES workerId with
  | Some (VPages pages) => pages
  | _ => []
  end.

(** What an entry of the store adds to the pending pages. *)
Definition pendingEntry (k : key) (v : value) : gmultiset Z :=
  match k, v with
  | REDIS_KEY_WORKER_PAGES _, VPages pages => list_to_set_disj pages
  | _, _ => ∅
  end.

(** The multiset of the pending page numbers over the lists of all product
    workers. *)
Definition pendingPages (s : store) : gmultiset Z :=
  map_fold (fun k v acc => pendingEntry k v ⊎ acc) ∅ s.

(** A worker that [classify] puts in the busy group. *)
Definition isBusy (s : store) (workerId : nat) : bool :=
  match s !! REDIS_KEY_WORKER_PAGES workerId with
  | Some (VPages (_ :: _)) => true
  | _ => false
  end.

End General.

(** ** The product worker ([product-worker/src/index.ts]) and the record
    table ([shared/src/db]) *)

Record ProductRecord := {
  asin : string;
  url : string;
  title : string;
  pageNumber : Z;
}.

Inductive CrawlStatus := success | failed.

(** What reaches the database, in the order it is issued. *)
Inductive dbOp :=
  | OpDeleteByPage (pageNumber : Z)
  | OpUpsert (asin : string)
  | OpCrawlEvent (asin : string) (status : CrawlStatus).

(** The table [products], keyed by its primary key [asin], with the journal
    of the operations issued so far.  A row is kept by the columns of
    [ProductRecord] above; the other columns of the table (price, images,
    rating and the like, and the time stamps [createdAt] and [updatedAt])
    are not part of it.  Every write to a row is in the journal. *)
Record database := {
  products : gmap string ProductRecord;
  journal : list dbOp;
}.

Module Db.

Definition getProductsByPage (page : Z) (d : database) : list ProductRecord :=
  List.filter (fun p => bool_decide (pageNumber p = page))
    (snd <$> map_to_list (products d)).

Definition deleteProductsByPageNumber (page : Z) (d : database) : database :=
  {| products := filter (fun kv => pageNumber (snd kv) <> page) (products d);
     journal := journal d ++ [OpDeleteByPage page] |}.

(** [upsertProduct]: the create arm and the update arm write the same
    record columns.  The update arm also stamps [updatedAt] with the clock,
    so an upsert of an unchanged record still changes the row in that
    column; here it shows as the [OpUpsert] entry of the journal only. *)
Definition upsertProduct (p : ProductRecord) (d : database) : database :=
  {| products := <[asin p := p]> (products d);
     journal := journal d ++ [OpUpsert (asin p)] |}.

(** [recordCrawlEvent]: a placeholder row is created when the product is not
    in the table yet, then the event is appended. *)
Definition recordCrawlEvent (p : ProductRecord) (status : CrawlStatus)
    (d : database) : database :=
  let rows :=
    if JS.truthy (asin p) then
      match products d !! asin p with
      | Some _ => products d
      | None =>
          <[asin p := {| asin := asin p; url := url p;
                         title := "Pending crawl";
                         pageNumber := pageNumber p |}]> (products d)
      end
    else products d in
  {| products := rows;
     journal := journal d ++ [OpCrawlEvent (asin p) status] |}.

End Db.

(** The browser as the product worker sees it. *)
Record browser := {
  (* some context exists to look for tabs in *)
  hasContext : bool;
  (* [findTabByPageNumber]: the records shown by the open tab of that page *)
  findTabByPageNumber : Z -> option (list ProductRecord);
}.

Record world := {
  redis : store;
  db : database;
}.

Module Product.

(** [arr.sort ()] without a comparator: by the decimal text of the numbers. *)
Definition textLe (a b : Z) : Prop :=
  String.leb (JS.toString a) (JS.toString b) = true.

#[global] Instance textLe_dec a b : Decision (textLe a b).
Proof. unfold textLe. apply _. Defined.

Definition sort (l : list Z) : list Z := merge_sort textLe l.

(** The comparison of the identifiers on the page with the stored ones. *)
Definition asinsChanged (existingProducts newProducts : list ProductRecord)
    : bool :=
  let existingAsins : gset string := list_to_set (asin <$> existingProducts) in
  let newAsins : gset string := list_to_set (asin <$> newProducts) in
  negb (size existingAsins =? size newAsins)%nat
  || negb (forallb (fun a => bool_decide (a ∈ existingAsins))
             (elements newAsins)).

(** Storing the records of one page: upsert and success event per record. *)
Fixpoint storeProducts (ps : list ProductRecord) (d : database) : database :=
  match ps with
  | [] => d
  | p :: rest =>
      storeProducts rest (Db.recordCrawlEvent p success (Db.upsertProduct p d))
  end.

(** The journal entries of one stored record. *)
Definition stored (p : ProductRecord) : list dbOp :=
  [OpUpsert (asin p); OpCrawlEvent (asin p) success].

(** The body of the retry loop once the tab is found: compare, delete if
    the identifiers changed, store. *)
Definition storePage (pageNum : Z) (newProducts : list ProductRecord)
    (d : database) : database :=
  let existingProducts := Db.getProductsByPage pageNum d in
  let d :=
    if asinsChanged existingProducts newProducts
    then Db.deleteProductsByPageNumber pageNum d
    else d in
  storeProducts newProducts d.

(** The re-read of the page list at the head of the work loop.  Both
    [sort] calls sort in place, and they run only when the lengths agree.
    [None]: the text is not a page list, and the worker leaves the loop
    ([JSON.parse] raises, or the loop condition fails on the next test). *)
Definition refreshPages (updatedPagesStr : option value)
    (pagesToProcess : list Z) : option (list Z) :=
  if truthy updatedPagesStr then
    match updatedPagesStr with
    | Some (VPages updatedPages) =>
        if bool_decide (length updatedPages <> length pagesToProcess)
        then Some updatedPages
        else if bool_decide (sort updatedPages <> sort pagesToProcess)
        then Some (sort updatedPages)
        else Some (sort pagesToProcess)
    | _ => None
    end
  else Some pagesToProcess.

(** How one round of the work loop ends: with the state for the next round,
    with the list drained, or by leaving the loop before the list is
    drained. *)
Inductive outcome :=
  | Next (w : world) (pagesToProcess : list Z)
  | Drained (w : world)
  | Left (w : world).

(** One round of [while (pagesToProcess.length > 0)].  Exceptions of the
    browser and of the database are outside the model, so the retry loop
    runs its body once. *)
Definition crawlRound (b : browser) (workerId : nat) (w : world)
    (pagesToProcess : list Z) : outcome :=
  match refreshPages (redis w !! REDIS_KEY_WORKER_PAGES workerId)
          pagesToProcess with
  | None => Left w
  | Some [] => Drained w
  | Some ((pageNum :: rest) as pagesToProcess) =>
      match findTabByPageNumber b pageNum with
      | None =>
          (* "Tab not found or closed for this page, skipping...": [break]
             out of the retry loop *)
          Next w pagesToProcess
      | Some newProducts =>
          let d := storePage pageNum newProducts (db w) in
          (* [pagesToProcess.shift ()] *)
          let pagesToProcess := rest in
          let r := set (REDIS_KEY_WORKER_PAGES workerId)
                     (VPages pagesToProcess) (redis w) in
          Next {| redis := r; db := d |} pagesToProcess
      end
  end.

(** The work loop, for at most [fuel] rounds; [None] when the rounds are
    used up before the loop is left. *)
Fixpoint crawlLoop (fuel : nat) (b : browser) (workerId : nat) (w : world)
    (pagesToProcess : list Z) : option outcome :=
  match pagesToProcess with
  | [] => Some (Drained w)
  | _ =>
      match fuel with
      | O => None
      | S fuel' =>
          match crawlRound b workerId w pagesToProcess with
          | Next w' pagesToProcess' =>
              crawlLoop fuel' b workerId w' pagesToProcess'
          | o => Some o
          end
      end
  end.

(** [crawlAllPages]; [None] when the work loop does not end within [fuel]
    rounds.  The wait for the [tabsReady] flag at the start only reads the
    store, and the worker goes on whether the flag is set or not. *)
Definition crawlAllPages (fuel : nat) (b : browser) (workerId : nat)
    (w : world) : option world :=
  let totalPagesStr := redis w !! REDIS_KEY_TOTAL_PAGES in
  if negb (truthy totalPagesStr) then Some w else
  match totalPagesStr ≫= parseValue with
  | None => Some w
  | Some totalPages =>
      if totalPages <=? 0 then Some w else
      let pagesStr := redis w !! REDIS_KEY_WORKER_PAGES workerId in
      if negb (truthy pagesStr) then Some w else
      match pagesStr with
      | Some (VPages pagesToProcess) =>
          if bool_decide (length pagesToProcess = 0%nat) then Some w else
          if negb (hasContext b) then Some w else
          match crawlLoop fuel b workerId w pagesToProcess with
          | Some (Drained w') =>
              Some {| redis := set (REDIS_KEY_WORKER_COMPLETE workerId)
                                 (VStr "1") (redis w');
                      db := db w' |}
          | Some (Left w') => Some w'
          | Some (Next w' _) => Some w'
          | None => None
          end
      | _ => Some w
      end
  end.

(** One poll of the product worker. *)
Definition checkAndCrawlIfNeeded (fuel : nat) (b : browser) (workerId : nat)
    (w : world) : option world :=
  let pagesStr := redis w !! REDIS_KEY_WORKER_PAGES workerId in
  let checkTrigger :=
    let trigger := redis w !! REDIS_KEY_CRAWL_TRIGGER in
    if isOne trigger then
      let w := {| redis := del REDIS_KEY_CRAWL_TRIGGER (redis w);
                  db := db w |} in
      crawlAllPages fuel b workerId w
    else Some w in
  if truthy pagesStr then
    match pagesStr with
    | Some (VPages pages) =>
        if bool_decide (0 < length pages)%nat
        then crawlAllPages fuel b workerId w
        else checkTrigger
    | Some (VRange _ _) => checkTrigger
    | _ => Some w
    end
  else checkTrigger.

End Product.

(** ** The start-up lock [vine:lock:<role>-<id>]

    One lock key with its expiry time, and the start-up code of the workers
    as processes whose Redis commands interleave. *)

Module Lock.

Record cell := {
  lockValue : string;
  expiresAt : option Z;
}.

(** The content of the key; [None] when the key does not exist. *)
Definition lock := option cell.

Definition LOCK_TTL_SECONDS : Z := 60.

(** [GET]: a key is gone once the clock has passed its expiry time; at the
    expiry time itself Redis still serves it. *)
Definition get (now : Z) (c : lock) : option string :=
  match c with
  | Some {| lockValue := v; expiresAt := Some e |} =>
      if e <? now then None else Some v
  | Some {| lockValue := v; expiresAt := None |} => Some v
  | None => None
  end.

(** [SET key value]: unconditional, and without an expiry time. *)
Definition setPlain (v : string) (c : lock) : lock :=
  Some {| lockValue := v; expiresAt := None |}.

(** [SET key value EX ttl NX]: the reply is [true] for "OK". *)
Definition setNX (now : Z) (v : string) (ttl : Z) (c : lock) : lock * bool :=
  match get now c with
  | Some _ => (c, false)
  | None => (Some {| lockValue := v; expiresAt := Some (now + ttl * 1000) |}, true)
  end.

(** The staleness test shared by the three roles:
    [existingLock && now - parseInt (existingLock, 10) < 30000]. *)
Definition recentLock (now : Z) (existingLock : option string) : bool :=
  match existingLock with
  | Some v =>
      JS.truthy v &&
      match JS.parseInt v with
      | Some lockTime => now - lockTime <? 30000
      | None => false
      end
  | None => false
  end.

(** A process running [checkForDuplicateWorker] of the general worker.
    Its two Redis commands, [GET] and [SET], are two steps. *)
Inductive generalProc :=
  | GStart
  | GSetting (newValue : string)
  | GRunning
  | GExited.

Definition generalStep (now : Z) (c : lock) (p : generalProc)
    : lock * generalProc :=
  match p with
  | GStart =>
      let existingLock := get now c in
      if recentLock now existingLock then (c, GExited)
      else (c, GSetting (JS.toString now))
  | GSetting v => (setPlain v c, GRunning)
  | GRunning => (c, GRunning)
  | GExited => (c, GExited)
  end.

(** The first command of [checkForDuplicateWorker] of the product worker and
    of [main] of the manager: the process holds the lock when the reply is
    "OK". *)
Inductive firstStepProc :=
  | FStart
  | FHolds (ourLockValue : string)
  | FContended.

Definition firstStep (now : Z) (c : lock) (p : firstStepProc)
    : lock * firstStepProc :=
  match p with
  | FStart =>
      let lockValue := JS.toString now in
      match setNX now lockValue LOCK_TTL_SECONDS c with
      | (c', true) => (c', FHolds lockValue)
      | (c', false) => (c', FContended)
      end
  | _ => (c, p)
  end.

(** Two processes and the lock; a schedule names, step by step, the process
    that moves and the clock at that moment. *)
Record system (proc : Type) := {
  theLock : lock;
  procA : proc;
  procB : proc;
}.
Arguments theLock {proc}.
Arguments procA {proc}.
Arguments procB {proc}.

Inductive pid := A | B.

Definition move {proc} (step : Z -> lock -> proc -> lock * proc)
    (sys : system proc) (ev : pid * Z) : system proc :=
  match ev with
  | (A, now) =>
      let '(c, p) := step now (theLock sys) (procA sys) in
      {| theLock := c; procA := p; procB := procB sys |}
  | (B, now) =>
      let '(c, p) := step now (theLock sys) (procB sys) in
      {| theLock := c; procA := procA sys; procB := p |}
  end.

Definition run {proc} (step : Z -> lock -> proc -> lock * proc)
    (schedule : list (pid * Z)) (sys : system proc) : system proc :=
  foldl (move step) sys schedule.

(** The invariant of the first command inside the window of [t0]: nobody
    holds the lock and the key is absent, or the key expires after the
    window and at most one process holds. *)
Definition windowInv (t0 : Z) (sys : system firstStepProc) : Prop :=
  match theLock sys with
  | None => procA sys = FStart /\ procB sys = FStart
  | Some c =>
      (exists e, expiresAt c = Some e /\ t0 + 60000 <= e)
      /\ ~ ((exists a, procA sys = FHolds a)
            /\ (exists b, procB sys = FHolds b))
  end.

End Lock.

(** ** Scenarios *)

Module Scenario.

Definition evenMode : config :=
  {| ENABLE_ROUND_ROBIN_ROTATION := false; ROTATION_BATCH_SIZE := 50 |}.

Definition rotationMode : config :=
  {| ENABLE_ROUND_ROBIN_ROTATION := true; ROTATION_BATCH_SIZE := 50 |}.

(** General workers 1..[n] with heartbeats at 1000 ms and [totalPages]
    discovered. *)
Fixpoint generals (n : nat) (s : store) : store :=
  match n with
  | O => s
  | S n' =>
      generals n' (set (REDIS_KEY_GENERAL_WORKER_HEARTBEAT n) (VStr "1000") s)
  end.

Definition coldStart (totalPages : string) (n : nat) : store :=
  set REDIS_KEY_TOTAL_PAGES (VStr totalPages) (generals n ∅).

(** A product worker with the list [7; 8]: the tab of page 8 is open (and
    shows no record), the tab of page 7 is missing. *)
Definition missingTab : browser :=
  {| hasContext := true;
     findTabByPageNumber := fun pageNum =>
       if pageNum =? 8 then Some [] else None |}.

Definition emptyDb : database := {| products := ∅; journal := [] |}.

Definition assigned78 : world :=
  {| redis := set (REDIS_KEY_WORKER_PAGES 1) (VPages [7; 8])
                (set REDIS_KEY_TOTAL_PAGES (VStr "10") ∅);
     db := emptyDb |}.

(** Worker 1 holds three pages, worker 2 none. *)
Definition halfBusy : store :=
  set (REDIS_KEY_WORKER_PAGES 1) (VPages [1; 2; 3])
    (set (REDIS_KEY_WORKER_PAGES 2) (VPages []) ∅).

(** Pages 5 and 6 are in the lists of workers 1 and 2; worker 3 is idle. *)
Definition overlapping : store :=
  set (REDIS_KEY_WORKER_PAGES 1) (VPages [4; 5; 6])
    (set (REDIS_KEY_WORKER_PAGES 2) (VPages [5; 6])
       (set (REDIS_KEY_WORKER_PAGES 3) (VPages []) ∅)).

(** The first busy worker holds fewer pages than the second. *)
Definition secondBusiest : store :=
  set (REDIS_KEY_WORKER_PAGES 1) (VPages [1; 2])
    (set (REDIS_KEY_WORKER_PAGES 2) (VPages [3; 4; 5; 6]) ∅).

(** The end of a rotation cycle over 120 pages in batches of 50: the three
    batches are handed out and both workers have reported completion. *)
Definition rotationTick : store -> store :=
  Manager.checkAndAssignWork rotationMode 5000 5001.

Definition cycleEnd : store :=
  let s3 := rotationTick
              (set (REDIS_KEY_GENERAL_WORKER_COMPLETE 1) (VStr "1")
                 (rotationTick (rotationTick (coldStart "120" 2)))) in
  set (REDIS_KEY_GENERAL_WORKER_COMPLETE 2) (VStr "1")
    (set (REDIS_KEY_GENERAL_WORKER_COMPLETE 1) (VStr "1") s3).

(** Two processes whose commands alternate. *)
Definition generalRace : list (Lock.pid * Z) :=
  [(Lock.A, 1000); (Lock.B, 1001); (Lock.A, 1002); (Lock.B, 1003)].

End Scenario.

(** ** Handing a batch to the product workers and waiting for it
    ([general-worker/src/index.ts]) *)

Module Batch.

(** [pages.forEach ((page, index) => workerPages[index % totalWorkers].push (page))],
    from the position [index] on. *)
Fixpoint dealPages (totalWorkers : nat) (pages : list Z) (index : nat)
    (workerPages : list (list Z)) : list (list Z) :=
  match pages with
  | [] => workerPages
  | page :: rest =>
      let workerIndex := (index mod totalWorkers)%nat in
      dealPages totalWorkers rest (S index)
        (alter (fun l => l ++ [page]) workerIndex workerPages)
  end.

(** Where [dealPages] has put the pages [done] handed out so far: the list
    at position [i] holds, at its position [j], the page at position
    [i + j * n] of the batch. *)
Definition dealt (n : nat) (done : list Z) (acc : list (list Z)) : Prop :=
  length acc = n
  /\ concat acc ≡ₚ done
  /\ forall i l, acc !! i = Some l ->
       forall j, l !! j = done !! (i + j * n)%nat.

(** The loop that writes [workerPages[i]] to the worker [activeWorkers[i]]. *)
Fixpoint assignLists (activeWorkers : list nat) (workerPages : list (list Z))
    (s : store) : store :=
  match activeWorkers, workerPages with
  | workerId :: activeWorkers, pagesForWorker :: workerPages =>
      assignLists activeWorkers workerPages
        (set (REDIS_KEY_WORKER_PAGES workerId) (VPages pagesForWorker) s)
  | _, _ => s
  end.

(** The loop over the ids 1..20 that deletes the lists of the workers not in
    [activeWorkers]. *)
Definition clearInactive (activeWorkers : list nat) (s : store) : store :=
  foldl (fun s workerId =>
           if bool_decide (workerId ∈ activeWorkers) then s
           else del (REDIS_KEY_WORKER_PAGES workerId) s)
    s (seq 1 20).

(** [distributePagesToWorkersWithList].  With no worker and a page to hand
    out, [index % 0] is [NaN], [workerPages[NaN]] is [undefined] and the
    push raises before anything is written: [None]. *)
Definition distributePagesToWorkersWithList (pages : list Z)
    (activeWorkers : list nat) (s : store) : option store :=
  let totalWorkers := length activeWorkers in
  if bool_decide (totalWorkers = 0%nat) && bool_decide (pages <> [])
  then None
  else
    let workerPages :=
      dealPages totalWorkers pages 0 (replicate totalWorkers []) in
    let s := assignLists activeWorkers workerPages s in
    let s := clearInactive activeWorkers s in
    let s := set REDIS_KEY_PENDING_PAGES (VPages []) s in
    Some (set REDIS_KEY_ASSIGNED_PAGES (VPages pages) s).

(** [Array.from ({ length: config.PRODUCT_WORKER_TOTAL || 1 }, (_, i) => i + 1)];
    the setting is optional. *)
Definition fallbackActiveWorkers (PRODUCT_WORKER_TOTAL : option Z)
    : list nat :=
  let fallbackWorkers :=
    match PRODUCT_WORKER_TOTAL with
    | Some n => if n =? 0 then 1 else n
    | None => 1
    end in
  seq 1 (Z.to_nat fallbackWorkers).

Definition distributePagesToWorkers (PRODUCT_WORKER_TOTAL : option Z)
    (pages : list Z) (now : Z) (s : store) : option store :=
  let activeWorkers := General.detectActiveWorkers now s in
  if bool_decide (length activeWorkers = 0%nat)
  then distributePagesToWorkersWithList pages
         (fallbackActiveWorkers PRODUCT_WORKER_TOTAL) s
  else distributePagesToWorkersWithList pages activeWorkers s.

(** The test loop of [waitForBatchCompletion]: it stops at the first worker
    with a page left; [None] when [JSON.parse] raises. *)
Fixpoint allComplete (s : store) (activeWorkers : list nat) : option bool :=
  match activeWorkers with
  | [] => Some true
  | workerId :: rest =>
      let pagesStr := s !! REDIS_KEY_WORKER_PAGES workerId in
      if truthy pagesStr then
        match pagesStr with
        | Some (VPages pages) =>
            if bool_decide (0 < length pages)%nat then Some false
            else allComplete s rest
        | Some (VRange _ _) => allComplete s rest
        | _ => None
        end
      else allComplete s rest
  end.

(** How one round of [while (true)] in [waitForBatchCompletion] ends. *)
Inductive poll :=
  | Complete (s : store)
  | Waiting (s : store)
  | Raised.

Definition pollBatch (now : Z) (s : store) : poll :=
  let activeWorkers := General.detectActiveWorkers now s in
  if bool_decide (length activeWorkers = 0%nat) then Waiting s else
  match allComplete s activeWorkers with
  | None => Raised
  | Some true => Complete (set REDIS_KEY_BATCH_COMPLETE (VStr "1") s)
  | Some false =>
      match General.classify s activeWorkers with
      | None => Raised
      | Some _ =>
          Waiting (General.reassignPagesFromIdleWorkers activeWorkers s)
      end
  end.

(** [waitForBatchCompletion] while nobody else writes to the store: one
    round per clock reading. [None]: the readings are used up. *)
Fixpoint waitForBatchCompletion (clock : list Z) (s : store) : option poll :=
  match clock with
  | [] => None
  | now :: clock =>
      match pollBatch now s with
      | Waiting s' => waitForBatchCompletion clock s'
      | p => Some p
      end
  end.

End Batch.

(** ** The start-up lock of the manager and of the product worker, command
    by command *)

Module Acquire.
Import Lock.

(** [GETSET key value]: the reply is the old content; the new value is
    stored without an expiry time. *)
Definition getset (now : Z) (v : string) (c : lock) : lock * option string :=
  (Some {| lockValue := v; expiresAt := None |}, get now c).

(** [EXPIRE key ttl]: nothing happens when the key does not exist. *)
Definition expire (now : Z) (ttl : Z) (c : lock) : lock :=
  match get now c with
  | Some v => Some {| lockValue := v; expiresAt := Some (now + ttl * 1000) |}
  | None => c
  end.

(** [SET key value EX ttl]. *)
Definition setEX (now : Z) (v : string) (ttl : Z) (c : lock) : lock :=
  Some {| lockValue := v; expiresAt := Some (now + ttl * 1000) |}.

(** A process in [checkForDuplicateWorker] of the product worker, or in the
    lock code at the head of [main] of the manager (the two are the same
    code); every state names the Redis command that comes next. *)
Inductive proc :=
  | Start                                   (* [SET lockValue EX 60 NX] *)
  | Contended (lockValue : string)          (* [GET] *)
  | Stale (lockValue existingLock : string) (* [GETSET lockValue] *)
  | Swapped (lockValue : string)            (* [EXPIRE 60] *)
  | Expired (lockValue : string)            (* [SET NX], after [GETSET] gave [null] *)
  | Recheck (lockValue : string)            (* [GET], after that [SET NX] failed *)
  | LastTry (lockValue : string)            (* the last [SET NX] of a branch *)
  | Acquired (ourLockValue : string)
  | Duplicate.

Definition trySet (now : Z) (lockValue : string) (c : lock)
    (otherwise : proc) : lock * proc :=
  match setNX now lockValue LOCK_TTL_SECONDS c with
  | (c', true) => (c', Acquired lockValue)
  | (c', false) => (c', otherwise)
  end.

Definition step (now : Z) (c : lock) (p : proc) : lock * proc :=
  match p with
  | Start =>
      let lockValue := JS.toString now in
      trySet now lockValue c (Contended lockValue)
  | Contended lockValue =>
      match get now c with
      | Some existingLock =>
          if JS.truthy existingLock then
            if recentLock now (Some existingLock) then (c, Duplicate)
            else (c, Stale lockValue existingLock)
          else (c, LastTry lockValue)
      | None => (c, LastTry lockValue)
      end
  | Stale lockValue existingLock =>
      match getset now lockValue c with
      | (c', Some oldValue) =>
          if bool_decide (oldValue = existingLock) then (c', Swapped lockValue)
          else if recentLock now (Some oldValue) then (c', Duplicate)
          else (c', LastTry lockValue)
      | (c', None) => (c', Expired lockValue)
      end
  | Swapped lockValue => (expire now LOCK_TTL_SECONDS c, Acquired lockValue)
  | Expired lockValue => trySet now lockValue c (Recheck lockValue)
  | Recheck lockValue =>
      let newLock := get now c in
      if recentLock now newLock then (c, Duplicate)
      else (c, LastTry lockValue)
  | LastTry lockValue => trySet now lockValue c Duplicate
  | Acquired _ => (c, p)
  | Duplicate => (c, p)
  end.

(** The commands of one process at the given clock readings, nobody else
    touching the key in between. *)
Definition run (clock : list Z) (c : lock) (p : proc) : lock * proc :=
  foldl (fun cp now => step now cp.1 cp.2) (c, p) clock.

End Acquire.

(** ** [refreshLock] of the manager and of the product worker *)

Module Refresh.
Import Lock.

Definition LOCK_OWNERSHIP_THRESHOLD_MS : Z := 20000.

(** Where a call of [refreshLock] stands; every state but [Idle] names the
    Redis command that comes next. *)
Inductive pc :=
  | Idle
  | Swap (now : Z) (currentLock : string)   (* [GETSET now.toString ()] *)
  | Revert (oldValue : string)              (* [SET oldValue EX 60] *)
  | Confirm (now : Z)                       (* [SET now.toString () EX 60] *).

Record proc := {
  lastRefreshTime : Z;
  at_ : pc;
}.

(** [let lastRefreshTime = ourLockValue ? parseInt (ourLockValue, 10) : Date.now ()];
    [None] is the [NaN] of a text that [parseInt] rejects.  The lock value
    that the start-up code returns is the text of a clock reading, so the
    processes below start from a number. *)
Definition init (ourLockValue : option string) (now : Z) : option Z :=
  match ourLockValue with
  | Some v => if JS.truthy v then JS.parseInt v else Some now
  | None => Some now
  end.

Definition step (now : Z) (c : lock) (p : proc) : lock * proc :=
  let idle := {| lastRefreshTime := lastRefreshTime p; at_ := Idle |} in
  match at_ p with
  | Idle =>
      (* [const now = Date.now ()], then [GET] *)
      match get now c with
      | Some currentLock =>
          if negb (JS.truthy currentLock) then (c, idle) else
          match JS.parseInt currentLock with
          | None => (c, idle)
          | Some currentLockTime =>
              if LOCK_OWNERSHIP_THRESHOLD_MS
                 <? Z.abs (currentLockTime - lastRefreshTime p)
              then (c, idle)
              else (c, {| lastRefreshTime := lastRefreshTime p;
                          at_ := Swap now currentLock |})
          end
      | None => (c, idle)
      end
  | Swap now0 currentLock =>
      let newLockValue := JS.toString now0 in
      match Acquire.getset now newLockValue c with
      | (c', None) => (c', idle)
      | (c', Some oldValue) =>
          if bool_decide (oldValue <> currentLock)
          then (c', {| lastRefreshTime := lastRefreshTime p;
                       at_ := Revert oldValue |})
          else (c', {| lastRefreshTime := lastRefreshTime p;
                       at_ := Confirm now0 |})
      end
  | Revert oldValue =>
      (Acquire.setEX now oldValue LOCK_TTL_SECONDS c, idle)
  | Confirm now0 =>
      (Acquire.setEX now (JS.toString now0) LOCK_TTL_SECONDS c,
       {| lastRefreshTime := now0; at_ := Idle |})
  end.

Definition run (clock : list Z) (c : lock) (p : proc) : lock * proc :=
  foldl (fun cp now => step now cp.1 cp.2) (c, p) clock.

End Refresh.

(** ** Heartbeats and shutdown ([main] of the workers) *)

Module Lifecycle.

(** [sendHeartbeat] of the general worker, every 10 seconds. *)
Definition generalSendHeartbeat (workerId : nat) (now : Z) (s : store)
    : store :=
  set (REDIS_KEY_GENERAL_WORKER_HEARTBEAT workerId) (VStr (JS.toString now)) s.

(** The write of [sendHeartbeat] of the product worker; the call of
    [refreshLock] that follows it is in [Refresh]. *)
Definition productSendHeartbeat (workerId : nat) (now : Z) (s : store)
    : store :=
  set (REDIS_KEY_WORKER_HEARTBEAT workerId) (VStr (JS.toString now)) s.

(** The writes to the store that a product worker can still issue while it
    shuts down.  [shutdown] awaits its three deletions one after the other;
    the heartbeat timer is cleared only after them, the chain of
    [pollForWork] is never cancelled, and a crawl in progress goes on until
    the process exits.  So the writes of [sendHeartbeat], of
    [checkAndCrawlIfNeeded] and [crawlAllPages], and of [refreshLock] can
    fall between the deletions and after them. *)
Inductive lateWrite :=
  | Beat (now : Z)                       (* [sendHeartbeat] *)
  | ListWrite (pagesToProcess : list Z)  (* [crawlAllPages], after a page *)
  | CompleteWrite                        (* [crawlAllPages], at its end *)
  | TriggerClear                         (* [checkAndCrawlIfNeeded] *)
  | LockWrite (lockValue : string)       (* [refreshLock] *).

Definition lateStep (workerId : nat) (s : store) (w : lateWrite) : store :=
  match w with
  | Beat now => productSendHeartbeat workerId now s
  | ListWrite pagesToProcess =>
      set (REDIS_KEY_WORKER_PAGES workerId) (VPages pagesToProcess) s
  | CompleteWrite => set (REDIS_KEY_WORKER_COMPLETE workerId) (VStr "1") s
  | TriggerClear => del REDIS_KEY_CRAWL_TRIGGER s
  | LockWrite lockValue =>
      set (REDIS_KEY_WORKER_LOCK product workerId) (VStr lockValue) s
  end.

(** [shutdown] of the product worker: the deletion of the heartbeat, of the
    page list and of the lock, with the late writes that fall after each of
    them. *)
Definition productShutdown (workerId : nat)
    (late1 late2 late3 : list lateWrite) (s : store) : store :=
  let s := del (REDIS_KEY_WORKER_HEARTBEAT workerId) s in
  let s := foldl (lateStep workerId) s late1 in
  let s := del (REDIS_KEY_WORKER_PAGES workerId) s in
  let s := foldl (lateStep workerId) s late2 in
  let s := del (REDIS_KEY_WORKER_LOCK product workerId) s in
  foldl (lateStep workerId) s late3.

(** The clock readings of the heartbeats among some late writes, and the
    page lists written among them, in their order. *)
Definition beats (l : list lateWrite) : list Z :=
  omap (fun w => match w with Beat now => Some now | _ => None end) l.

Definition listWrites (l : list lateWrite) : list (list Z) :=
  omap (fun w => match w with ListWrite pages => Some pages | _ => None end) l.

End Lifecycle.

(** ** The batches of a page range
    ([openAllPageTabsInBatches], [calculatePageRangeForBatch]) *)

Module Range.

(** The windows of the loop
    [for (batchStart = assignedStartPage; batchStart <= assignedEndPage; batchStart += TABS_PER_BATCH)],
    each with its [batchEnd]; at most [fuel] of them. *)
Fixpoint batches (fuel : nat) (TABS_PER_BATCH batchStart assignedEndPage : Z)
    : list (Z * Z) :=
  match fuel with
  | O => []
  | S fuel' =>
      if batchStart <=? assignedEndPage then
        let batchEnd :=
          Z.min (batchStart + TABS_PER_BATCH - 1) assignedEndPage in
        (batchStart, batchEnd)
        :: batches fuel' TABS_PER_BATCH (batchStart + TABS_PER_BATCH)
             assignedEndPage
      else []
  end.

(** [Array.from ({ length: batchEnd - batchStart + 1 }, (_, i) => batchStart + i)]:
    the pages that the loop hands to [distributePagesToWorkers]. *)
Definition batchPages (batchStart batchEnd : Z) : list Z :=
  (fun i => batchStart + Z.of_nat i)
    <$> seq 0 (Z.to_nat (batchEnd - batchStart + 1)).

(** [calculatePageRangeForBatch] of the product worker; the two settings
    are optional, and 0 is falsy. *)
Definition calculatePageRangeForBatch (PRODUCT_WORKER_ID : option Z)
    (PRODUCT_WORKER_TOTAL : option Z) (batchStart batchEnd : Z) : Z * Z :=
  match PRODUCT_WORKER_ID, PRODUCT_WORKER_TOTAL with
  | Some workerId, Some totalWorkers =>
      if (workerId =? 0) || (totalWorkers =? 0) then (batchStart, batchEnd)
      else
        let batchSize := batchEnd - batchStart + 1 in
        let pagesPerWorker := JS.ceilDiv batchSize totalWorkers in
        let startPage := batchStart + (workerId - 1) * pagesPerWorker in
        let endPage :=
          Z.min (batchStart + workerId * pagesPerWorker - 1) batchEnd in
        (startPage, endPage)
  | _, _ => (batchStart, batchEnd)
  end.

End Range.

(** * Properties *)

(** ** JavaScript primitives *)

Example parseInt_plain : JS.parseInt "1730000000000" = Some 1730000000000.
Proof. reflexivity. Qed.

Example parseInt_lenient : JS.parseInt "  42abc" = Some 42.
Proof. reflexivity. Qed.

Example parseInt_negative : JS.parseInt "-5" = Some (-5).
Proof. reflexivity. Qed.

Example parseInt_nan : JS.parseInt "abc" = None.
Proof. reflexivity. Qed.

Example parseInt_empty : JS.parseInt "" = None.
Proof. reflexivity. Qed.

Example toString_120 : JS.toString 120 = "120"%string.
Proof. reflexivity. Qed.

Lemma parseInt_truthy str t : JS.parseInt str = Some t -> JS.truthy str = true.
Proof. destruct str; [discriminate|reflexivity]. Qed.

Lemma StronglySorted_weaken {A} (R1 R2 : relation A) (l : list A) :
  (forall x y, R1 x y -> R2 x y) -> StronglySorted R1 l -> StronglySorted R2 l.
Proof.
  intros HR. induction 1 as [|x l Hl IH Hx]; constructor; [exact IH|].
  eapply Forall_impl; [exact Hx|]. auto.
Qed.

(** ** Liveness *)

Section liveness.
Context (heartbeat : nat -> key) (now : Z) (s : store).

Lemma filter_seq_Sorted (f : nat -> bool) a n :
  StronglySorted Nat.lt (List.filter f (seq a n)).
Proof.
  revert a. induction n as [|n IH]; intros a; simpl; [constructor|].
  destruct (f a); [|apply IH].
  constructor; [apply IH|].
  apply Forall_forall. intros x Hx.
  apply list_elem_of_In, filter_In in Hx as [Hx _].
  apply in_seq in Hx. lia.
Qed.

(** The ids are pushed in ascending order, so the final sort changes
    nothing. *)
Lemma detectActive_filter :
  detectActive heartbeat now s
  = List.filter (heartbeatFresh heartbeat now s) (seq 1 20).
Proof.
  unfold detectActive.
  apply (Sorted_unique Nat.le).
  - apply Sorted_merge_sort. apply _.
  - apply StronglySorted_Sorted.
    apply (StronglySorted_weaken Nat.lt); [intros; lia|apply filter_seq_Sorted].
  - apply merge_sort_Permutation.
Qed.

Lemma detectActive_Sorted :
  StronglySorted Nat.lt (detectActive heartbeat now s).
Proof. rewrite detectActive_filter. apply filter_seq_Sorted. Qed.

Lemma detectActive_NoDup : NoDup (detectActive heartbeat now s).
Proof.
  rewrite detectActive_filter.
  apply NoDup_ListNoDup, List.NoDup_filter, seq_NoDup.
Qed.

Lemma detectActive_elem w :
  w ∈ detectActive heartbeat now s
  <-> (1 <= w <= 20)%nat /\ heartbeatFresh heartbeat now s w = true.
Proof.
  rewrite detectActive_filter, list_elem_of_In, filter_In, in_seq.
  intuition lia.
Qed.

Lemma heartbeatFresh_spec w :
  heartbeatFresh heartbeat now s w = true
  <-> exists str t, s !! heartbeat w = Some (VStr str)
        /\ JS.parseInt str = Some t /\ now - t < HEARTBEAT_TIMEOUT_MS.
Proof.
  unfold heartbeatFresh. split.
  - destruct (s !! heartbeat w) as [[str| |]|] eqn:E; simpl; try discriminate.
    destruct (JS.truthy str); [|discriminate].
    destruct (JS.parseInt str) as [t|] eqn:Ep; [|discriminate].
    intros H. apply bool_decide_eq_true in H. eauto.
  - intros (str & t & -> & Hp & Ht). simpl.
    rewrite (parseInt_truthy _ _ Hp), Hp. by apply bool_decide_eq_true.
Qed.
End liveness.

(** C8, as the code has it.  A manager tick classifies a worker id as live
    if and only if the id is in 1..20 and its heartbeat key holds a text
    that [parseInt] reads as a number [t] with [now - t] strictly below
    60000 ms; the live list is strictly ascending.  An absent, non-numeric
    or older heartbeat excludes the id.  The general worker classifies the
    product workers by the same rule. *)
Theorem liveness_classification (now : Z) (s : store) :
  StronglySorted Nat.lt (Manager.detectActiveGeneralWorkers now s)
  /\ (forall w : nat,
        w ∈ Manager.detectActiveGeneralWorkers now s
        <-> (1 <= w <= 20)%nat
            /\ exists str t,
                 s !! REDIS_KEY_GENERAL_WORKER_HEARTBEAT w = Some (VStr str)
                 /\ JS.parseInt str = Some t /\ now - t < 60000)
  /\ StronglySorted Nat.lt (General.detectActiveWorkers now s)
  /\ (forall w : nat,
        w ∈ General.detectActiveWorkers now s
        <-> (1 <= w <= 20)%nat
            /\ exists str t,
                 s !! REDIS_KEY_WORKER_HEARTBEAT w = Some (VStr str)
                 /\ JS.parseInt str = Some t /\ now - t < 60000).
Proof.
  unfold Manager.detectActiveGeneralWorkers, General.detectActiveWorkers.
  split; [apply detectActive_Sorted|].
  split; [intros w; rewrite detectActive_elem, heartbeatFresh_spec; tauto|].
  split; [apply detectActive_Sorted|].
  intros w; rewrite detectActive_elem, heartbeatFresh_spec; tauto.
Qed.

(** C8, as the claim words it, fails at the boundary: a heartbeat that is
    exactly 60 s old parses to a number [t] with [now - t <= 60000], and the
    worker is not live. *)
Lemma liveness_boundary_counterexample :
  let s : store := {[ REDIS_KEY_GENERAL_WORKER_HEARTBEAT 1 := VStr "1000" ]} in
  let now := 61000 in
  (s !! REDIS_KEY_GENERAL_WORKER_HEARTBEAT 1 = Some (VStr "1000")
   /\ JS.parseInt "1000" = Some 1000 /\ now - 1000 <= 60000)
  /\ 1%nat ∉ Manager.detectActiveGeneralWorkers now s.
Proof.
  split; [split; [reflexivity|split; [reflexivity|lia]]|].
  vm_compute. intros H. inversion H.
Qed.

(** ** Even distribution *)

Section even.
Context (c T : Z).

Lemma assignEvenly_other ws : forall i s k,
  (forall w, w ∈ ws ->
     k <> REDIS_KEY_GENERAL_WORKER_PAGES w
     /\ k <> REDIS_KEY_GENERAL_WORKER_COMPLETE w) ->
  Manager.assignEvenly c T i ws s !! k = s !! k.
Proof.
  induction ws as [|w ws IH]; intros i s k Hk; simpl; [reflexivity|].
  rewrite IH by (intros w' Hw'; apply Hk; by right).
  destruct (Hk w) as [H1 H2]; [by left|].
  unfold del, set. by rewrite lookup_delete_ne, lookup_insert_ne.
Qed.

Lemma assignEvenly_pages ws : NoDup ws -> forall i s j w,
  ws !! j = Some w ->
  Manager.assignEvenly c T i ws s !! REDIS_KEY_GENERAL_WORKER_PAGES w
  = Some (VRange (Z.of_nat (i + j) * c + 1)
                 (Z.min ((Z.of_nat (i + j) + 1) * c) T)).
Proof.
  induction 1 as [|w0 ws Hnotin Hnd IH]; intros i s j w Hj; [done|].
  destruct j as [|j]; simpl in Hj |- *.
  - injection Hj as ->.
    rewrite assignEvenly_other.
    + unfold del, set. rewrite lookup_delete_ne by done.
      rewrite lookup_insert_eq. by rewrite Nat.add_0_r.
    + intros w' Hw'. split; [|done]. intros [= ->]. done.
  - rewrite (IH (S i) _ j w Hj).
    by replace (S i + j)%nat with (i + S j)%nat by lia.
Qed.

Lemma assignEvenly_complete ws : forall i s w,
  w ∈ ws ->
  Manager.assignEvenly c T i ws s !! REDIS_KEY_GENERAL_WORKER_COMPLETE w
  = None.
Proof.
  induction ws as [|w0 ws IH]; intros i s w Hw; [by apply elem_of_nil in Hw|].
  simpl. destruct (decide (w ∈ ws)) as [Hin|Hnotin]; [by apply IH|].
  apply elem_of_cons in Hw as [->|]; [|done].
  rewrite assignEvenly_other.
  - unfold del. apply lookup_delete_eq.
  - intros w' Hw'. split; [done|]. intros [= ->]. done.
Qed.
End even.

Lemma ceilDiv_bounds T n : 1 <= T -> 1 <= n ->
  1 <= JS.ceilDiv T n /\ T <= n * JS.ceilDiv T n /\ n * (JS.ceilDiv T n - 1) < T.
Proof.
  intros HT Hn. unfold JS.ceilDiv.
  pose proof (Z.div_mod (T + n - 1) n ltac:(lia)) as Hdm.
  pose proof (Z.mod_pos_bound (T + n - 1) n ltac:(lia)) as Hm.
  repeat split; nia.
Qed.

(** S1 and S2 of the specification: two, then three, live workers and 300
    pages. *)
Example even_cold_start :
  let s' := Manager.checkAndAssignWork Scenario.evenMode 5000 5001
              (Scenario.coldStart "300" 2) in
  s' !! REDIS_KEY_GENERAL_WORKER_PAGES 1 = Some (VRange 1 150)
  /\ s' !! REDIS_KEY_GENERAL_WORKER_PAGES 2 = Some (VRange 151 300).
Proof. split; reflexivity. Qed.

Example even_worker_joins :
  let s := Manager.checkAndAssignWork Scenario.evenMode 5000 5001
             (Scenario.coldStart "300" 2) in
  let s' := Manager.checkAndAssignWork Scenario.evenMode 10000 10001
              (set (REDIS_KEY_GENERAL_WORKER_HEARTBEAT 3) (VStr "9000") s) in
  s' !! REDIS_KEY_GENERAL_WORKER_PAGES 1 = Some (VRange 1 100)
  /\ s' !! REDIS_KEY_GENERAL_WORKER_PAGES 2 = Some (VRange 101 200)
  /\ s' !! REDIS_KEY_GENERAL_WORKER_PAGES 3 = Some (VRange 201 300).
Proof. repeat split; reflexivity. Qed.

(** C2, as the code has it.  For every [T >= 1] and every non-empty live
    list, the even distribution writes to the worker at position [i] the
    range from [i * c + 1] to [min ((i + 1) * c, T)], with
    [c = ceil (T / |W|)], and clears its completion flag.  The ranges cover
    [1..T] and no page lies in two of them; every start is at least 1 and
    every end at most [T].  The range at position [i] has [start <= end]
    exactly when [i * c < T], and it is adjacent to the next one exactly
    when [(i + 1) * c <= T]: the positions past the last page receive an
    empty range. *)
Theorem even_partition (T now : Z) (s : store) :
  let live := Manager.detectActiveGeneralWorkers now s in
  let c := JS.ceilDiv T (Z.of_nat (length live)) in
  let s' := Manager.distributePagesEvenly T now s in
  let startOf (i : nat) := Z.of_nat i * c + 1 in
  let endOf (i : nat) := Z.min ((Z.of_nat i + 1) * c) T in
  1 <= T -> live <> [] ->
  (forall i w, live !! i = Some w ->
     s' !! REDIS_KEY_GENERAL_WORKER_PAGES w = Some (VRange (startOf i) (endOf i))
     /\ s' !! REDIS_KEY_GENERAL_WORKER_COMPLETE w = None)
  /\ (forall p, 1 <= p <= T ->
        exists i, (i < length live)%nat /\ startOf i <= p <= endOf i)
  /\ (forall p i j,
        startOf i <= p <= endOf i -> startOf j <= p <= endOf j -> i = j)
  /\ (forall i, (i < length live)%nat ->
        1 <= startOf i /\ endOf i <= T
        /\ (startOf i <= endOf i <-> Z.of_nat i * c < T))
  /\ (forall i, (S i < length live)%nat ->
        (endOf i + 1 = startOf (S i) <-> (Z.of_nat i + 1) * c <= T)).
Proof.
  intros live c s' startOf endOf HT Hlive.
  assert (Hn : 1 <= Z.of_nat (length live)) by (destruct live; [done|simpl; lia]).
  destruct (ceilDiv_bounds T _ HT Hn) as (Hc1 & Hc2 & Hc3).
  fold c in Hc1, Hc2, Hc3.
  assert (Hs' : s' = Manager.assignEvenly c T 0 live s).
  { unfold s', Manager.distributePagesEvenly. fold live.
    rewrite bool_decide_eq_false_2; [done|]. destruct live; [done|simpl; lia]. }
  split; [|split; [|split; [|split]]].
  - intros i w Hi. rewrite Hs'. split.
    + by rewrite (assignEvenly_pages c T live (detectActive_NoDup _ _ _) 0 s i w Hi).
    + apply assignEvenly_complete. by eapply list_elem_of_lookup_2.
  - intros p Hp. exists (Z.to_nat ((p - 1) / c)).
    pose proof (Z.div_mod (p - 1) c ltac:(lia)) as Hdm.
    pose proof (Z.mod_pos_bound (p - 1) c ltac:(lia)) as Hm.
    assert (0 <= (p - 1) / c) by (apply Z.div_pos; lia).
    assert ((p - 1) / c < Z.of_nat (length live)).
    { apply Z.div_lt_upper_bound; lia. }
    unfold startOf, endOf. rewrite Z2Nat.id by lia. split; [lia|]. nia.
  - intros p i j Hi Hj. unfold startOf, endOf in *.
    destruct (Nat.lt_total i j) as [Hlt|[->|Hlt]]; [exfalso|done|exfalso]; nia.
  - intros i Hi. unfold startOf, endOf. split; [nia|]. split; [lia|]. split; nia.
  - intros i Hi. unfold startOf, endOf. rewrite Nat2Z.inj_succ. split; lia.
Qed.

(** The statement above with 300 pages and three live workers. *)
Lemma even_partition_witness :
  1 <= 300
  /\ Manager.detectActiveGeneralWorkers 5000 (Scenario.coldStart "300" 3) <> []
  /\ Manager.distributePagesEvenly 300 5000 (Scenario.coldStart "300" 3)
       !! REDIS_KEY_GENERAL_WORKER_PAGES 2
     = Some (VRange 101 200).
Proof.
  assert (H1 : 1 <= 300) by lia.
  assert (H2 : Manager.detectActiveGeneralWorkers 5000
                 (Scenario.coldStart "300" 3) <> []) by (vm_compute; discriminate).
  split; [exact H1|]. split; [exact H2|].
  destruct (even_partition 300 5000 (Scenario.coldStart "300" 3) H1 H2)
    as [Hwritten _].
  destruct (Hwritten 1%nat 2%nat eq_refl) as [Hpages _]. exact Hpages.
Defined.

(** C2, as the claim words it, fails with 5 pages and 4 live workers: the
    chunk size is 2, the third worker receives [5..5] and the fourth
    [7..5], so the fourth range has [start > end] and is not adjacent to the
    third. *)
Lemma even_partition_counterexample :
  let s' := Manager.distributePagesEvenly 5 5000 (Scenario.coldStart "5" 4) in
  Manager.detectActiveGeneralWorkers 5000 (Scenario.coldStart "5" 4)
    = [1; 2; 3; 4]%nat
  /\ s' !! REDIS_KEY_GENERAL_WORKER_PAGES 3 = Some (VRange 5 5)
  /\ s' !! REDIS_KEY_GENERAL_WORKER_PAGES 4 = Some (VRange 7 5)
  /\ 5 + 1 <> 7
  /\ ~ 7 <= 5.
Proof. repeat split; try reflexivity; lia. Qed.

(** ** Text and number *)

Lemma readDigits_string_of_uint d :
  JS.readDigits (NilEmpty.string_of_uint d) = d.
Proof. induction d; simpl; congruence. Qed.

Lemma parseInt_string_of_uint d :
  d <> Decimal.Nil ->
  JS.parseInt (NilEmpty.string_of_uint d) = Some (Z.of_uint d).
Proof.
  intros Hd. pose proof (readDigits_string_of_uint d) as Hr.
  destruct d; [done| ..]; unfold JS.parseInt, JS.readNumber;
    simpl in Hr |- *; injection Hr as ->; reflexivity.
Qed.

Lemma parseInt_toString n : 0 <= n -> JS.parseInt (JS.toString n) = Some n.
Proof.
  intros Hn. destruct n as [|p|p]; [reflexivity| |lia].
  unfold JS.toString. simpl.
  rewrite parseInt_string_of_uint by apply Unsigned.to_uint_nonnil.
  unfold Z.of_uint. by rewrite Unsigned.of_to.
Qed.

Lemma readCounter_toString n :
  0 <= n -> readCounter (Some (VStr (JS.toString n))) = CValid n.
Proof.
  intros Hn. unfold readCounter. simpl.
  rewrite (parseInt_truthy _ _ (parseInt_toString n Hn)), parseInt_toString by done.
  by rewrite (proj2 (Z.leb_le 0 n) Hn).
Qed.

(** ** Keys *)

Lemma digits_then_dash d : forall d' r r',
  (NilEmpty.string_of_uint d +:+ String "-" r
   = NilEmpty.string_of_uint d' +:+ String "-" r')%string ->
  d = d' /\ r = r'.
Proof.
  induction d as [|d IH|d IH|d IH|d IH|d IH|d IH|d IH|d IH|d IH|d IH];
    intros [|d'|d'|d'|d'|d'|d'|d'|d'|d'|d'] r r' H; simpl in H;
    try discriminate H;
    try (injection H as H; apply IH in H as [-> ->]; done).
  by injection H as ->.
Qed.

Lemma idText_uint n :
  exists d, idText n = NilEmpty.string_of_uint d
            /\ Z.to_int (Z.of_nat n) = Decimal.Pos d.
Proof.
  unfold idText, JS.toString. destruct (Z.of_nat n) as [|p|p] eqn:E; [| |lia].
  - by exists (Decimal.D0 Decimal.Nil).
  - by exists (Pos.to_uint p).
Qed.

Lemma idText_inj a b : idText a = idText b -> a = b.
Proof.
  intros H. apply (f_equal JS.parseInt) in H. unfold idText in H.
  rewrite !parseInt_toString in H by lia. injection H. lia.
Qed.

Lemma idText_dash_inj a b r r' :
  (idText a +:+ String "-" r = idText b +:+ String "-" r')%string ->
  a = b /\ r = r'.
Proof.
  destruct (idText_uint a) as (da & Ha & Hda), (idText_uint b) as (db & Hb & Hdb).
  rewrite Ha, Hb. intros H. apply digits_then_dash in H as [-> ->].
  split; [|done]. apply Nat2Z.inj, DecimalZ.to_int_inj. congruence.
Qed.

Ltac push_append H :=
  repeat match type of H with
         | context [ (String ?c ?s +:+ ?t)%string ] =>
             change (String c s +:+ t)%string
               with (String c (s +:+ t)%string) in H
         | context [ (EmptyString +:+ ?t)%string ] =>
             change (EmptyString +:+ t)%string with t in H
         end.

(** Two keys with the same Redis name are the same key, so the store may be
    indexed by [key]. *)
Lemma keyName_inj k1 k2 : keyName k1 = keyName k2 -> k1 = k2.
Proof.
  destruct k1 as [ | | | | a | a | a | | | a | a | a | a | | | [] a],
           k2 as [ | | | | b | b | b | | | b | b | b | b | | | [] b];
    intros H; try reflexivity; try discriminate H;
    cbn [keyName workerTypeName] in H; push_append H;
    try discriminate H;
    repeat match type of H with
           | String _ _ = String _ _ => injection H as H
           end;
    try (apply idText_dash_inj in H as [-> H]; first [discriminate H|done]);
    try (by apply idText_inj in H as ->).
Qed.

(** ** Rotation *)

Section rotation.
Context (B T now : Z) (s : store).
Let live := Manager.detectActiveGeneralWorkers now s.
Let count := Z.of_nat (length live).

Lemma clearWorkers_other ws : forall s0 k,
  (forall w, w ∈ ws ->
     k <> REDIS_KEY_GENERAL_WORKER_PAGES w
     /\ k <> REDIS_KEY_GENERAL_WORKER_COMPLETE w) ->
  Manager.clearWorkers ws s0 !! k = s0 !! k.
Proof.
  induction ws as [|w ws IH]; intros s0 k Hk; simpl; [reflexivity|].
  rewrite IH by (intros w' Hw'; apply Hk; by right).
  destruct (Hk w) as [H1 H2]; [by left|].
  unfold del. by rewrite !lookup_delete_ne.
Qed.

Lemma clearWorkers_cleared ws : forall s0 w,
  w ∈ ws ->
  Manager.clearWorkers ws s0 !! REDIS_KEY_GENERAL_WORKER_PAGES w = None
  /\ Manager.clearWorkers ws s0 !! REDIS_KEY_GENERAL_WORKER_COMPLETE w = None.
Proof.
  induction ws as [|w0 ws IH]; intros s0 w Hw; [by apply elem_of_nil in Hw|].
  simpl. destruct (decide (w ∈ ws)) as [Hin|Hnotin]; [by apply IH|].
  apply elem_of_cons in Hw as [->|]; [|done].
  rewrite !clearWorkers_other; unfold del.
  - split; [apply lookup_delete_eq|].
    rewrite lookup_delete_ne by done. apply lookup_delete_eq.
  - intros w' Hw'. split; [done|]. intros [= ->]. done.
  - intros w' Hw'. split; [|done]. intros [= ->]. done.
Qed.

(** The step after the validation of the two rotation keys: [s3] is the
    store with the texts that were found invalid overwritten, [idx] the
    rotation index that the step goes on with. *)
Lemma distributePagesRoundRobin_cases :
  live <> [] ->
  exists s3 idx,
    (forall k, k <> REDIS_KEY_ROTATION_INDEX ->
               k <> REDIS_KEY_LAST_ASSIGNED_PAGE -> s3 !! k = s !! k)
    /\ 0 <= idx < count
    /\ Manager.distributePagesRoundRobin B T now s =
       let L := Manager.lastAssignedPage s in
       if T <=? L then
         Manager.clearWorkers live
           (set REDIS_KEY_LAST_ASSIGNED_PAGE (VStr "0")
              (set REDIS_KEY_ROTATION_INDEX (VStr "0") s3))
       else
         match live !! Z.to_nat (idx `mod` count) with
         | None => s3
         | Some w =>
             if T <? L + 1 then s3 else
             set REDIS_KEY_LAST_ASSIGNED_PAGE
               (VStr (JS.toString (Z.min (L + 1 + B - 1) T)))
               (set REDIS_KEY_ROTATION_INDEX
                  (VStr (JS.toString ((idx + 1) `mod` count)))
                  (del (REDIS_KEY_GENERAL_WORKER_COMPLETE w)
                     (set (REDIS_KEY_GENERAL_WORKER_PAGES w)
                        (VRange (L + 1) (Z.min (L + 1 + B - 1) T)) s3)))
         end.
Proof.
  intros Hlive.
  assert (1 <= count) by (unfold count; destruct live; [done|simpl; lia]).
  unfold Manager.distributePagesRoundRobin, Manager.lastAssignedPage.
  fold live. fold count.
  rewrite bool_decide_eq_false_2 by (destruct live; [done|simpl; lia]).
  destruct (readCounter (s !! REDIS_KEY_ROTATION_INDEX)) as [|idx|] eqn:Ei;
    destruct (readCounter (s !! REDIS_KEY_LAST_ASSIGNED_PAGE)) as [|L|];
    simpl; try destruct (count <=? idx) eqn:Ec; try destruct (count <=? 0) eqn:Ec0;
    simpl; (eexists _, _; split; [|split]; cycle 2; [reflexivity| |]);
    try (intros k Hk1 Hk2; unfold set; by rewrite ?lookup_insert_ne);
    try lia.
  all: unfold readCounter in Ei; repeat case_match; simplify_eq; lia.
Qed.
End rotation.

Lemma counterValue_nonneg o : 0 <= counterValue (readCounter o).
Proof.
  unfold readCounter. repeat case_match; simpl; try lia.
Qed.

(** One run of the rotation step with some live worker: a reset when the
    last assigned page has reached [T], the next batch otherwise. *)
Lemma distributePagesRoundRobin_step (B T now : Z) (s : store) :
  let live := Manager.detectActiveGeneralWorkers now s in
  let L := Manager.lastAssignedPage s in
  let s' := Manager.distributePagesRoundRobin B T now s in
  let L' := Manager.lastAssignedPage s' in
  1 <= B -> live <> [] ->
  (T <= L ->
     L' = 0 /\ Manager.rotationIndex s' = 0
     /\ forall w, w ∈ live ->
          s' !! REDIS_KEY_GENERAL_WORKER_PAGES w = None
          /\ s' !! REDIS_KEY_GENERAL_WORKER_COMPLETE w = None)
  /\ (L < T ->
        exists w, w ∈ live
          /\ s' !! REDIS_KEY_GENERAL_WORKER_PAGES w = Some (VRange (L + 1) L')
          /\ s' !! REDIS_KEY_GENERAL_WORKER_COMPLETE w = None
          /\ (forall w', w' <> w ->
                s' !! REDIS_KEY_GENERAL_WORKER_PAGES w'
                = s !! REDIS_KEY_GENERAL_WORKER_PAGES w')
          /\ L' = Z.min (L + B) T
          /\ L < L' <= T
          /\ L' - (L + 1) + 1 <= B)
  /\ (L' = 0 <-> T <= L).
Proof.
  intros live L s' L' HB Hlive.
  destruct (distributePagesRoundRobin_cases B T now s Hlive)
    as (s3 & idx & Hframe & Hidx & Heq).
  fold live in Hidx. fold live L s' in Heq. cbv zeta in Heq.
  pose proof (counterValue_nonneg (s !! REDIS_KEY_LAST_ASSIGNED_PAGE)) as HL.
  fold (Manager.lastAssignedPage s) in HL. fold L in HL.
  assert (Hreset : T <= L ->
     L' = 0 /\ Manager.rotationIndex s' = 0
     /\ forall w, w ∈ live ->
          s' !! REDIS_KEY_GENERAL_WORKER_PAGES w = None
          /\ s' !! REDIS_KEY_GENERAL_WORKER_COMPLETE w = None).
  { intros HTL. rewrite (proj2 (Z.leb_le T L) HTL) in Heq.
    unfold L', Manager.lastAssignedPage, Manager.rotationIndex. rewrite Heq.
    rewrite !clearWorkers_other by done. unfold set.
    rewrite lookup_insert_eq, lookup_insert_ne, lookup_insert_eq by done.
    split; [reflexivity|]. split; [reflexivity|].
    intros w Hw. by apply clearWorkers_cleared. }
  assert (Hassign : L < T ->
        exists w, w ∈ live
          /\ s' !! REDIS_KEY_GENERAL_WORKER_PAGES w = Some (VRange (L + 1) L')
          /\ s' !! REDIS_KEY_GENERAL_WORKER_COMPLETE w = None
          /\ (forall w', w' <> w ->
                s' !! REDIS_KEY_GENERAL_WORKER_PAGES w'
                = s !! REDIS_KEY_GENERAL_WORKER_PAGES w')
          /\ L' = Z.min (L + B) T
          /\ L < L' <= T
          /\ L' - (L + 1) + 1 <= B).
  { intros HLT. rewrite (proj2 (Z.leb_gt T L) HLT) in Heq.
    destruct (lookup_lt_is_Some_2 live (Z.to_nat (idx `mod` Z.of_nat (length live))))
      as [w Hw].
    { pose proof (Z.mod_pos_bound idx (Z.of_nat (length live)) ltac:(lia)). lia. }
    rewrite Hw in Heq.
    rewrite (proj2 (Z.ltb_ge T (L + 1)) ltac:(lia)) in Heq.
    replace (L + 1 + B - 1) with (L + B) in Heq by lia.
    assert (HL' : L' = Z.min (L + B) T).
    { unfold L', Manager.lastAssignedPage. rewrite Heq. unfold set.
      rewrite lookup_insert_eq, readCounter_toString by lia. reflexivity. }
    exists w. split; [by eapply list_elem_of_lookup_2|].
    split; [|split; [|split; [|split; [exact HL'|clearbody L' s' L; lia]]]].
    - rewrite HL', Heq. unfold set, del.
      rewrite !lookup_insert_ne, lookup_delete_ne by done.
      apply lookup_insert_eq.
    - rewrite Heq. unfold set, del.
      rewrite !lookup_insert_ne by done. apply lookup_delete_eq.
    - intros w' Hw'. rewrite Heq. unfold set, del.
      rewrite !lookup_insert_ne, lookup_delete_ne, lookup_insert_ne by congruence.
      by apply Hframe. }
  split; [exact Hreset|]. split; [exact Hassign|].
  split.
  - intros H0. destruct (Z.le_gt_cases T L) as [|HLT]; [done|].
    destruct (Hassign HLT) as (_ & _ & _ & _ & _ & _ & ? & _). lia.
  - intros HTL. by destruct (Hreset HTL).
Qed.

(** A tick in rotation mode either leaves the store as it is or runs the
    rotation step on a valid page count. *)
Lemma checkAndAssignWork_rotation (cfg : config) (now now' : Z) (s : store) :
  ENABLE_ROUND_ROBIN_ROTATION cfg = true ->
  Manager.checkAndAssignWork cfg now now' s = s
  \/ exists T, s !! REDIS_KEY_TOTAL_PAGES ≫= parseValue = Some T /\ 0 < T
       /\ Manager.checkAndAssignWork cfg now now' s
          = Manager.distributePagesRoundRobin (ROTATION_BATCH_SIZE cfg) T now' s.
Proof.
  intros Hrr. unfold Manager.checkAndAssignWork,
    Manager.distributePagesToGeneralWorkers. rewrite Hrr.
  destruct (truthy (s !! REDIS_KEY_TOTAL_PAGES)); simpl; [|by left].
  destruct (s !! REDIS_KEY_TOTAL_PAGES ≫= parseValue) as [T|]; [|by left].
  destruct (T <=? 0) eqn:ET; [by left|]. apply Z.leb_gt in ET.
  repeat case_match; try (by left).
  right. exists T. done.
Qed.

(** X30.  In rotation mode, with
    [B = ROTATION_BATCH_SIZE >= 1], a manager tick either leaves the store
    as it is, or resets the last assigned page from a value that has reached
    [totalPages] to 0 (and the rotation index with it), or assigns a new
    range: the range starts at the previous last assigned page plus 1, holds
    at most [B] pages, ends at or before [totalPages], and the last assigned
    page afterwards is the end of the range, above the previous value.  So
    the last assigned page never decreases inside a cycle and is reset only
    when it has reached [totalPages].  Whenever the rotation step itself
    runs with some live worker, it resets to 0 exactly when the last
    assigned page has reached [totalPages]. *)
Theorem rotation_invariant (cfg : config) (now now' : Z) (s : store) :
  let B := ROTATION_BATCH_SIZE cfg in
  let L := Manager.lastAssignedPage s in
  let s' := Manager.checkAndAssignWork cfg now now' s in
  let L' := Manager.lastAssignedPage s' in
  ENABLE_ROUND_ROBIN_ROTATION cfg = true -> 1 <= B ->
  (s' = s
   \/ exists T, s !! REDIS_KEY_TOTAL_PAGES ≫= parseValue = Some T
        /\ ((T <= L /\ L' = 0 /\ Manager.rotationIndex s' = 0)
            \/ (L < T
                /\ exists w,
                     s' !! REDIS_KEY_GENERAL_WORKER_PAGES w
                       = Some (VRange (L + 1) L')
                     /\ s' !! REDIS_KEY_GENERAL_WORKER_COMPLETE w = None
                     /\ L' = Z.min (L + B) T
                     /\ L < L' <= T
                     /\ L' - (L + 1) + 1 <= B)))
  /\ (forall T,
        Manager.detectActiveGeneralWorkers now' s <> [] ->
        Manager.lastAssignedPage (Manager.distributePagesRoundRobin B T now' s) = 0
        <-> T <= L).
Proof.
  intros B L s' L' Hrr HB. split.
  - destruct (checkAndAssignWork_rotation cfg now now' s Hrr)
      as [Hsame|(T & HT & HT0 & Heq)]; [by left|].
    fold s' B in Heq.
    destruct (decide (Manager.detectActiveGeneralWorkers now' s = [])) as [Hnil|Hlive].
    { left. rewrite Heq. unfold Manager.distributePagesRoundRobin.
      by rewrite Hnil. }
    right. exists T. split; [exact HT|].
    destruct (distributePagesRoundRobin_step B T now' s HB Hlive)
      as (Hreset & Hassign & _).
    fold L in Hreset, Hassign. rewrite <- Heq in Hreset, Hassign.
    fold L' in Hreset, Hassign.
    destruct (Z.le_gt_cases T L) as [HTL|HLT].
    + left. destruct (Hreset HTL) as (? & ? & _). done.
    + right. split; [exact HLT|].
      destruct (Hassign HLT) as (w & _ & ? & ? & _ & ? & ? & ?). by exists w.
  - intros T Hlive.
    by destruct (distributePagesRoundRobin_step B T now' s HB Hlive)
      as (_ & _ & Hiff).
Qed.

(** The statement above at the cold start with 120 pages and two live
    workers: the first batch is handed out and the last assigned page is not
    0. *)
Lemma rotation_invariant_witness :
  ENABLE_ROUND_ROBIN_ROTATION Scenario.rotationMode = true
  /\ 1 <= ROTATION_BATCH_SIZE Scenario.rotationMode
  /\ Manager.lastAssignedPage
       (Manager.distributePagesRoundRobin 50 120 5001
          (Scenario.coldStart "120" 2)) <> 0.
Proof.
  assert (H1 : ENABLE_ROUND_ROBIN_ROTATION Scenario.rotationMode = true)
    by reflexivity.
  assert (H2 : 1 <= ROTATION_BATCH_SIZE Scenario.rotationMode) by (simpl; lia).
  split; [exact H1|]. split; [exact H2|].
  destruct (rotation_invariant Scenario.rotationMode 5000 5001
              (Scenario.coldStart "120" 2) H1 H2) as [_ Hiff].
  intros H0. apply (Hiff 120) in H0; [|vm_compute; discriminate].
  vm_compute in H0. by apply H0.
Defined.

(** S4 of the specification: 120 pages, batches of 50, two live workers.
    The third batch is handed out once worker 1 reports completion. *)
Example rotation_cycle :
  let tick := Manager.checkAndAssignWork Scenario.rotationMode 5000 5001 in
  let s1 := tick (Scenario.coldStart "120" 2) in
  let s2 := tick s1 in
  let s3 := tick (set (REDIS_KEY_GENERAL_WORKER_COMPLETE 1) (VStr "1") s2) in
  s1 !! REDIS_KEY_GENERAL_WORKER_PAGES 1 = Some (VRange 1 50)
  /\ s2 !! REDIS_KEY_GENERAL_WORKER_PAGES 2 = Some (VRange 51 100)
  /\ s3 !! REDIS_KEY_GENERAL_WORKER_PAGES 1 = Some (VRange 101 120)
  /\ Manager.lastAssignedPage s3 = 120.
Proof. repeat split; reflexivity. Qed.

Lemma anyComplete_done (L T : Z) (s : store) (ws : list nat) :
  T <= L -> Manager.anyComplete L T s ws = false.
Proof.
  intros HL. unfold Manager.anyComplete.
  induction ws as [|w ws IH]; [done|].
  cbn [existsb]. rewrite IH.
  destruct (Z.ltb_spec L T) as [Hlt|Hge]; [lia|].
  by rewrite andb_false_r.
Qed.

Lemma anyUnassigned_none (s : store) (ws : list nat) :
  (forall w, w ∈ ws -> truthy (s !! REDIS_KEY_GENERAL_WORKER_PAGES w) = true) ->
  Manager.anyUnassigned s ws = false.
Proof.
  unfold Manager.anyUnassigned.
  induction ws as [|w ws IH]; intros Hpages; [done|].
  cbn [existsb]. rewrite (Hpages w) by (by left).
  apply IH. intros w' Hw'. apply Hpages. by right.
Qed.

(** In rotation mode a tick runs the rotation step only when a live worker
    has completed while pages remain, or has no range.  Once the last
    assigned page has reached the page count and every live worker holds a
    range, neither can happen. *)
Lemma rotation_tick_stalls (cfg : config) (now now' T : Z) (s : store) :
  ENABLE_ROUND_ROBIN_ROTATION cfg = true ->
  s !! REDIS_KEY_TOTAL_PAGES ≫= parseValue = Some T ->
  T <= Manager.lastAssignedPage s ->
  (forall w, w ∈ Manager.detectActiveGeneralWorkers now s ->
     truthy (s !! REDIS_KEY_GENERAL_WORKER_PAGES w) = true) ->
  Manager.checkAndAssignWork cfg now now' s = s.
Proof.
  intros Hrr HT HL Hpages. unfold Manager.checkAndAssignWork.
  rewrite HT, Hrr.
  destruct (truthy (s !! REDIS_KEY_TOTAL_PAGES)); [|done]. cbn [negb].
  destruct (T <=? 0); [done|].
  case_bool_decide; [done|].
  by rewrite anyComplete_done, anyUnassigned_none.
Qed.

Lemma cycleEnd_ranges (now : Z) (w : nat) :
  w ∈ Manager.detectActiveGeneralWorkers now Scenario.cycleEnd ->
  truthy (Scenario.cycleEnd !! REDIS_KEY_GENERAL_WORKER_PAGES w) = true.
Proof.
  unfold Manager.detectActiveGeneralWorkers.
  intros Hw. apply detectActive_elem in Hw as [Hw Hfresh].
  do 21 (destruct w as [|w]; [first [lia|by vm_compute|by vm_compute in Hfresh]|]).
  lia.
Qed.

(** C4.  The reset at the end of a rotation cycle never runs.  At the end
    of the cycle of S4 (120 pages, batches of 50, two live workers) the
    three batches are handed out, the last assigned page is 120, equal to
    [totalPages], and both workers have reported completion.  The rotation
    step itself would now reset the last assigned page and the rotation
    index to 0 and clear the two workers; but [checkAndAssignWork] calls it
    only when a live worker has no range, or has completed while the last
    assigned page is below [totalPages].  Neither holds, so a tick changes
    nothing, whatever the clock, and no sequence of ticks ever does: the
    last assigned page stays at 120 and no range is handed out again. *)
Theorem rotation_stalls_at_cycle_end :
  Scenario.cycleEnd !! REDIS_KEY_TOTAL_PAGES = Some (VStr "120")
  /\ Manager.lastAssignedPage Scenario.cycleEnd = 120
  /\ Manager.detectActiveGeneralWorkers 5000 Scenario.cycleEnd = [1; 2]%nat
  /\ Scenario.cycleEnd !! REDIS_KEY_GENERAL_WORKER_COMPLETE 1 = Some (VStr "1")
  /\ Scenario.cycleEnd !! REDIS_KEY_GENERAL_WORKER_COMPLETE 2 = Some (VStr "1")
  /\ (let reset :=
        Manager.distributePagesRoundRobin 50 120 5001 Scenario.cycleEnd in
      Manager.lastAssignedPage reset = 0
      /\ Manager.rotationIndex reset = 0
      /\ reset !! REDIS_KEY_GENERAL_WORKER_PAGES 1 = None
      /\ reset !! REDIS_KEY_GENERAL_WORKER_PAGES 2 = None)
  /\ (forall now now',
        Manager.checkAndAssignWork Scenario.rotationMode now now'
          Scenario.cycleEnd = Scenario.cycleEnd)
  /\ (forall clock : list (Z * Z),
        foldl (fun s t =>
                 Manager.checkAndAssignWork Scenario.rotationMode t.1 t.2 s)
          Scenario.cycleEnd clock = Scenario.cycleEnd).
Proof.
  assert (Htick : forall now now',
            Manager.checkAndAssignWork Scenario.rotationMode now now'
              Scenario.cycleEnd = Scenario.cycleEnd).
  { intros now now'.
    apply (rotation_tick_stalls Scenario.rotationMode now now' 120);
      [reflexivity|by vm_compute|by vm_compute|apply cycleEnd_ranges]. }
  split; [by vm_compute|]. split; [by vm_compute|]. split; [by vm_compute|].
  split; [by vm_compute|]. split; [by vm_compute|].
  split; [repeat split; by vm_compute|]. split; [exact Htick|].
  induction clock as [|t clock IH]; [done|]. simpl. by rewrite Htick.
Qed.

(** ** Even-mode reassignment and busy workers *)

(** C3 at a failing input.  Worker 1 is live, holds the range [1..300], is
    in the middle of a batch ([processing] is "1") and has just set its
    completion flag; worker 2 is live and has no range yet.  The tick skips
    worker 1 when it looks for a reason to reassign, finds one at worker 2,
    and the even distribution then rewrites both workers: the range of the
    busy worker 1 is replaced and its completion flag is deleted. *)
Theorem even_reassignment_overwrites_busy_worker :
  let s :=
    set (REDIS_KEY_GENERAL_WORKER_COMPLETE 1) (VStr "1")
      (set (REDIS_KEY_GENERAL_WORKER_PROCESSING 1) (VStr "1")
         (set (REDIS_KEY_GENERAL_WORKER_PAGES 1) (VRange 1 300)
            (Scenario.coldStart "300" 2))) in
  let s' := Manager.checkAndAssignWork Scenario.evenMode 5000 5001 s in
  Manager.detectActiveGeneralWorkers 5000 s = [1; 2]%nat
  /\ isOne (s !! REDIS_KEY_GENERAL_WORKER_PROCESSING 1) = true
  /\ s !! REDIS_KEY_GENERAL_WORKER_PAGES 1 = Some (VRange 1 300)
  /\ s !! REDIS_KEY_GENERAL_WORKER_COMPLETE 1 = Some (VStr "1")
  /\ s' !! REDIS_KEY_GENERAL_WORKER_PAGES 1 = Some (VRange 1 150)
  /\ s' !! REDIS_KEY_GENERAL_WORKER_COMPLETE 1 = None.
Proof. repeat split; reflexivity. Qed.

(** The only use of the [processing] flag is in the trigger: the worker that
    carries it is passed over when the tick looks for a reason to
    reassign. *)
Lemma needsEvenAssignment_skips_processing T s w rest :
  truthy (s !! REDIS_KEY_GENERAL_WORKER_PAGES w) = true ->
  isOne (s !! REDIS_KEY_GENERAL_WORKER_PROCESSING w) = true ->
  Manager.needsEvenAssignment T s (w :: rest)
  = Manager.needsEvenAssignment T s rest.
Proof. intros Hp Hb. simpl. by rewrite Hp, Hb. Qed.

(** ** The start-up lock *)

(** C1 at a failing input.  Two general workers with the same id start on an
    empty store.  Each reads the lock key before the other has written it,
    finds nothing, writes its own timestamp and goes on to run: both
    conclude that there is no duplicate. *)
Theorem general_lock_race :
  let start := {| Lock.theLock := None;
                  Lock.procA := Lock.GStart; Lock.procB := Lock.GStart |} in
  let final := Lock.run Lock.generalStep Scenario.generalRace start in
  Lock.procA final = Lock.GRunning /\ Lock.procB final = Lock.GRunning.
Proof. split; reflexivity. Qed.

(** When the second process starts after the first has written the key, it
    finds a recent lock and exits. *)
Example general_lock_sequential :
  let start := {| Lock.theLock := None;
                  Lock.procA := Lock.GStart; Lock.procB := Lock.GStart |} in
  let final :=
    Lock.run Lock.generalStep
      [(Lock.A, 1000); (Lock.A, 1001); (Lock.B, 1002); (Lock.B, 1003)] start in
  Lock.procA final = Lock.GRunning /\ Lock.procB final = Lock.GExited.
Proof. split; reflexivity. Qed.

(** The first command of the manager and of the product worker excludes
    this: while the key set by the first "OK" has not expired, no second
    [SET ... NX] is answered "OK". *)
Section firstStep.
Context (t0 : Z).

Lemma firstStep_held now e v p :
  now < e ->
  exists p', Lock.firstStep now
               (Some {| Lock.lockValue := v; Lock.expiresAt := Some e |}) p
             = (Some {| Lock.lockValue := v; Lock.expiresAt := Some e |}, p')
       /\ ((exists a, p' = Lock.FHolds a) -> exists a, p = Lock.FHolds a).
Proof.
  intros He. destruct p; simpl; unfold Lock.setNX; simpl;
    rewrite ?(proj2 (Z.ltb_ge e now) ltac:(lia)); eexists;
    (split; [reflexivity|]);
    eauto. intros [a [=]].
Qed.

Lemma firstStep_move sys ev :
  t0 <= ev.2 < t0 + 60000 -> Lock.windowInv t0 sys ->
  Lock.windowInv t0 (Lock.move Lock.firstStep sys ev).
Proof.
  destruct sys as [[[v [e|]]|] pa pb], ev as [who now];
    unfold Lock.windowInv; simpl; intros Hnow Hinv.
  - destruct Hinv as [(e' & [= <-] & He) Hno].
    destruct who; simpl.
    + destruct (firstStep_held now e v pa ltac:(lia)) as (p' & -> & Hp').
      simpl. split; [eauto|]. intros [Ha Hb]. apply Hno. auto.
    + destruct (firstStep_held now e v pb ltac:(lia)) as (p' & -> & Hp').
      simpl. split; [eauto|]. intros [Ha Hb]. apply Hno. auto.
  - by destruct Hinv as [(e' & [=] & _) _].
  - destruct Hinv as [-> ->]. destruct who; simpl.
    + split; [eexists; split; [reflexivity|unfold Lock.LOCK_TTL_SECONDS; lia]|].
      intros [_ [b [=]]].
    + split; [eexists; split; [reflexivity|unfold Lock.LOCK_TTL_SECONDS; lia]|].
      intros [[a [=]] _].
Qed.

Lemma firstStep_exclusive schedule :
  Forall (fun ev => t0 <= ev.2 < t0 + 60000) schedule ->
  let start := {| Lock.theLock := None;
                  Lock.procA := Lock.FStart; Lock.procB := Lock.FStart |} in
  let final := Lock.run Lock.firstStep schedule start in
  ~ ((exists a, Lock.procA final = Lock.FHolds a)
     /\ (exists b, Lock.procB final = Lock.FHolds b)).
Proof.
  intros Hs start final.
  assert (Hinv : Lock.windowInv t0 final).
  { unfold final, Lock.run. assert (Hstart : Lock.windowInv t0 start) by done.
    revert Hstart. generalize start. clear start final.
    induction Hs as [|ev schedule Hev _ IH]; intros sys Hsys; [done|].
    simpl. apply IH. by apply firstStep_move. }
  unfold Lock.windowInv in Hinv. destruct (Lock.theLock final).
  - by destruct Hinv.
  - destruct Hinv as [-> _]. intros [[a [=]] _].
Qed.
End firstStep.

(** ** The work loop of the product worker *)

Section crawl.
Context (b : browser) (workerId : nat).

(** A page without a tab stays at the head of the list, and nothing is
    written. *)
Lemma crawlRound_missing_tab w pagesToProcess pageNum rest :
  Product.refreshPages (redis w !! REDIS_KEY_WORKER_PAGES workerId)
    pagesToProcess = Some (pageNum :: rest) ->
  findTabByPageNumber b pageNum = None ->
  Product.crawlRound b workerId w pagesToProcess = Product.Next w (pageNum :: rest).
Proof.
  intros Hr Ht. unfold Product.crawlRound. rewrite Hr. simpl. by rewrite Ht.
Qed.

(** When the store holds the list of the worker, already in the order of
    [sort], the round of a missing head page gives back the state it
    started from. *)
Lemma crawlRound_fixed w pageNum rest :
  redis w !! REDIS_KEY_WORKER_PAGES workerId = Some (VPages (pageNum :: rest)) ->
  Product.sort (pageNum :: rest) = pageNum :: rest ->
  findTabByPageNumber b pageNum = None ->
  Product.crawlRound b workerId w (pageNum :: rest)
  = Product.Next w (pageNum :: rest).
Proof.
  intros Hs Hsorted Ht. apply crawlRound_missing_tab; [|done].
  rewrite Hs. unfold Product.refreshPages. simpl truthy. cbv iota.
  rewrite !bool_decide_eq_false_2 by (intros H; by apply H).
  by rewrite Hsorted.
Qed.

(** A round that gives back its own state is repeated for ever. *)
Lemma crawlLoop_stuck w pageNum rest :
  Product.crawlRound b workerId w (pageNum :: rest)
    = Product.Next w (pageNum :: rest) ->
  forall fuel, Product.crawlLoop fuel b workerId w (pageNum :: rest) = None.
Proof.
  intros Hround fuel. induction fuel as [|fuel IH]; [reflexivity|].
  simpl. rewrite Hround. exact IH.
Qed.
End crawl.

(** The order of [sort] is the order of the decimal texts. *)
Example sort_by_text : Product.sort [2; 10; 9; 100] = [10; 100; 2; 9].
Proof. reflexivity. Qed.

(** C7 at a failing input.  The worker holds [7; 8]; page 8 has an open tab
    and page 7 has none.  Every round of the work loop ends with page 7
    still at the head of the list and with the store untouched, so the loop
    never reaches page 8 and never ends, whatever number of rounds it is
    given. *)
Theorem missing_tab_retried_forever :
  Product.crawlRound Scenario.missingTab 1 Scenario.assigned78 [7; 8]
    = Product.Next Scenario.assigned78 [7; 8]
  /\ (forall fuel,
        Product.crawlLoop fuel Scenario.missingTab 1 Scenario.assigned78 [7; 8]
        = None)
  /\ (forall fuel,
        Product.crawlAllPages fuel Scenario.missingTab 1 Scenario.assigned78
        = None).
Proof.
  assert (Hround : Product.crawlRound Scenario.missingTab 1 Scenario.assigned78
                     [7; 8] = Product.Next Scenario.assigned78 [7; 8])
    by reflexivity.
  split; [exact Hround|]. split.
  - by apply crawlLoop_stuck.
  - intros fuel. unfold Product.crawlAllPages.
    change (redis Scenario.assigned78 !! REDIS_KEY_WORKER_PAGES 1)
      with (Some (VPages [7; 8])).
    change (redis Scenario.assigned78 !! REDIS_KEY_TOTAL_PAGES)
      with (Some (VStr "10")).
    simpl. by rewrite (crawlLoop_stuck _ _ _ _ _ Hround).
Qed.

(** With a tab for every page the same list is drained: the loop is left
    and the completion flag is set. *)
Example all_tabs_open :
  let b := {| hasContext := true; findTabByPageNumber := fun _ => Some [] |} in
  exists w, Product.crawlAllPages 5 b 1 Scenario.assigned78 = Some w
    /\ redis w !! REDIS_KEY_WORKER_PAGES 1 = Some (VPages [])
    /\ redis w !! REDIS_KEY_WORKER_COMPLETE 1 = Some (VStr "1").
Proof. eexists. split; [reflexivity|]. split; reflexivity. Qed.

(** ** The crawl trigger *)

Section trigger.
Context (b : browser) (workerId : nat).

(** The work loop writes the page list of its worker and nothing else in
    the store. *)
Lemma crawlRound_frame w pagesToProcess k :
  k <> REDIS_KEY_WORKER_PAGES workerId ->
  match Product.crawlRound b workerId w pagesToProcess with
  | Product.Next w' _ | Product.Drained w' | Product.Left w' =>
      redis w' !! k = redis w !! k
  end.
Proof.
  intros Hk. unfold Product.crawlRound.
  destruct (Product.refreshPages _ _) as [[|pageNum rest]|]; try done.
  destruct (findTabByPageNumber b pageNum); [|done].
  simpl. unfold set. by rewrite lookup_insert_ne.
Qed.

Lemma crawlLoop_frame fuel k :
  k <> REDIS_KEY_WORKER_PAGES workerId ->
  forall w pagesToProcess,
  match Product.crawlLoop fuel b workerId w pagesToProcess with
  | Some (Product.Next w' _) | Some (Product.Drained w')
  | Some (Product.Left w') => redis w' !! k = redis w !! k
  | None => True
  end.
Proof.
  intros Hk. induction fuel as [|fuel IH]; intros w [|p rest]; try done.
  simpl. pose proof (crawlRound_frame w (p :: rest) k Hk) as Hround.
  destruct (Product.crawlRound b workerId w (p :: rest)) as [w' l'|w'|w'];
    try done.
  specialize (IH w' l').
  destruct (Product.crawlLoop fuel b workerId w' l') as [[]|]; congruence.
Qed.

(** [crawlAllPages] writes the page list and the completion flag of its
    worker and nothing else in the store. *)
Lemma crawlAllPages_frame fuel w w' k :
  k <> REDIS_KEY_WORKER_PAGES workerId ->
  k <> REDIS_KEY_WORKER_COMPLETE workerId ->
  Product.crawlAllPages fuel b workerId w = Some w' ->
  redis w' !! k = redis w !! k.
Proof.
  intros Hk1 Hk2. unfold Product.crawlAllPages.
  repeat case_match; intros [= <-]; try done.
  all: match goal with
       | H : Product.crawlLoop ?f _ _ ?w0 ?l = _ |- _ =>
           pose proof (crawlLoop_frame f k Hk1 w0 l) as Hloop;
           rewrite H in Hloop
       end; simpl; unfold set; by rewrite ?lookup_insert_ne.
Qed.

(** A worker without pages leaves [crawlAllPages] at once. *)
Lemma crawlAllPages_idle fuel w :
  redis w !! REDIS_KEY_WORKER_PAGES workerId = None
  \/ redis w !! REDIS_KEY_WORKER_PAGES workerId = Some (VPages []) ->
  Product.crawlAllPages fuel b workerId w = Some w.
Proof.
  intros [Hp|Hp]; unfold Product.crawlAllPages; rewrite Hp;
    repeat case_match; done.
Qed.
End trigger.

(** C10.  On a poll where the product worker has no page list, or an empty
    one, and reads "1" at the crawl trigger, it deletes the trigger key and
    only then enters [crawlAllPages], which runs on the store without the
    key.  The key is absent after the poll, and another product worker
    without pages that polls after it does not crawl: its poll leaves the
    store and the database as they are.  Whatever a crawl does, it leaves
    the trigger key alone. *)
Theorem trigger_consumed (fuel : nat) (b : browser) (workerId : nat)
    (w : world) :
  redis w !! REDIS_KEY_WORKER_PAGES workerId = None
  \/ redis w !! REDIS_KEY_WORKER_PAGES workerId = Some (VPages []) ->
  redis w !! REDIS_KEY_CRAWL_TRIGGER = Some (VStr "1") ->
  let consumed :=
    {| redis := del REDIS_KEY_CRAWL_TRIGGER (redis w); db := db w |} in
  Product.checkAndCrawlIfNeeded fuel b workerId w
    = Product.crawlAllPages fuel b workerId consumed
  /\ Product.checkAndCrawlIfNeeded fuel b workerId w = Some consumed
  /\ redis consumed !! REDIS_KEY_CRAWL_TRIGGER = None
  /\ (forall fuel' b' other,
        redis consumed !! REDIS_KEY_WORKER_PAGES other = None
        \/ redis consumed !! REDIS_KEY_WORKER_PAGES other = Some (VPages []) ->
        Product.checkAndCrawlIfNeeded fuel' b' other consumed = Some consumed)
  /\ (forall fuel' b' other w',
        Product.crawlAllPages fuel' b' other consumed = Some w' ->
        redis w' !! REDIS_KEY_CRAWL_TRIGGER = None).
Proof.
  intros Hpages Htrigger consumed.
  assert (Hgone : redis consumed !! REDIS_KEY_CRAWL_TRIGGER = None)
    by apply lookup_delete_eq.
  assert (Hpoll : Product.checkAndCrawlIfNeeded fuel b workerId w
                  = Product.crawlAllPages fuel b workerId consumed).
  { unfold Product.checkAndCrawlIfNeeded. rewrite Htrigger.
    destruct Hpages as [-> | ->]; reflexivity. }
  split; [exact Hpoll|]. split; [|split; [exact Hgone|split]].
  - rewrite Hpoll. apply crawlAllPages_idle.
    simpl. unfold del. rewrite lookup_delete_ne by done. exact Hpages.
  - intros fuel' b' other Hother. unfold Product.checkAndCrawlIfNeeded.
    rewrite Hgone. destruct Hother as [-> | ->]; reflexivity.
  - intros fuel' b' other w' Hcrawl.
    rewrite (crawlAllPages_frame b' other fuel' consumed w'
               REDIS_KEY_CRAWL_TRIGGER) by done.
    exact Hgone.
Qed.

(** The statement above for a worker without a page list and the trigger
    at "1". *)
Lemma trigger_consumed_witness :
  let w := {| redis := set REDIS_KEY_CRAWL_TRIGGER (VStr "1")
                         (set REDIS_KEY_TOTAL_PAGES (VStr "10") ∅);
              db := Scenario.emptyDb |} in
  (redis w !! REDIS_KEY_WORKER_PAGES 1 = None
   \/ redis w !! REDIS_KEY_WORKER_PAGES 1 = Some (VPages []))
  /\ redis w !! REDIS_KEY_CRAWL_TRIGGER = Some (VStr "1")
  /\ exists w', Product.checkAndCrawlIfNeeded 5 Scenario.missingTab 1 w = Some w'
       /\ redis w' !! REDIS_KEY_CRAWL_TRIGGER = None.
Proof.
  intros w.
  assert (H1 : redis w !! REDIS_KEY_WORKER_PAGES 1 = None
               \/ redis w !! REDIS_KEY_WORKER_PAGES 1 = Some (VPages []))
    by (left; reflexivity).
  assert (H2 : redis w !! REDIS_KEY_CRAWL_TRIGGER = Some (VStr "1"))
    by reflexivity.
  split; [exact H1|]. split; [exact H2|].
  destruct (trigger_consumed 5 Scenario.missingTab 1 w H1 H2)
    as (_ & Hres & Hgone & _).
  eexists. split; [exact Hres|exact Hgone].
Defined.

(** ** Delete before insert *)

Section storePage.
Implicit Types (d : database) (ps : list ProductRecord).

Lemma storeProducts_journal ps : forall d,
  journal (Product.storeProducts ps d) = journal d ++ flat_map Product.stored ps.
Proof.
  induction ps as [|p ps IH]; intros d; simpl.
  - by rewrite app_nil_r.
  - rewrite IH. simpl. by rewrite <- !app_assoc.
Qed.

(** The test of the code, sizes differ or some new identifier is not among
    the existing ones, is inequality of the two sets. *)
Lemma asinsChanged_spec existingProducts newProducts :
  Product.asinsChanged existingProducts newProducts = true
  <-> (list_to_set (asin <$> existingProducts) : gset string)
      <> list_to_set (asin <$> newProducts).
Proof.
  unfold Product.asinsChanged.
  set (X := list_to_set (asin <$> existingProducts) : gset string).
  set (Y := list_to_set (asin <$> newProducts) : gset string).
  rewrite orb_true_iff, !negb_true_iff, Nat.eqb_neq. split.
  - intros [Hsize|Hsome] Heq.
    + apply Hsize. by rewrite Heq.
    + rewrite <- not_true_iff_false, forallb_forall in Hsome.
      apply Hsome. intros a Ha. apply bool_decide_eq_true.
      rewrite Heq. by apply elem_of_elements, list_elem_of_In.
  - intros Hne. destruct (decide (size X = size Y)) as [Hsize|]; [|by left].
    right. apply not_true_iff_false. intros Hall. apply Hne. symmetry.
    apply set_subseteq_size_eq; [|lia].
    intros a Ha. rewrite forallb_forall in Hall.
    specialize (Hall a). rewrite bool_decide_eq_true in Hall.
    by apply Hall, list_elem_of_In, elem_of_elements.
Qed.

(** The rows after the upserts of a list of records. *)
Lemma storeProducts_products ps : forall d,
  products (Product.storeProducts ps d)
  = foldl (fun m p => <[asin p := p]> m) (products d) ps.
Proof.
  induction ps as [|p ps IH]; intros d; simpl; [done|].
  rewrite IH. f_equal. simpl. rewrite lookup_insert_eq.
  by destruct (JS.truthy (asin p)).
Qed.

Lemma upserts_out ps : forall (m : gmap string ProductRecord) (a : string),
  a ∉ asin <$> ps ->
  foldl (fun m p => <[asin p := p]> m) m ps !! a = m !! a.
Proof.
  induction ps as [|p ps IH]; intros m a Ha; simpl; [done|].
  rewrite fmap_cons, not_elem_of_cons in Ha. destruct Ha as [Hne Ha].
  rewrite IH by done. by rewrite lookup_insert_ne.
Qed.

Lemma upserts_in ps : forall (m : gmap string ProductRecord) (a : string),
  a ∈ asin <$> ps ->
  exists p, p ∈ ps /\ asin p = a
    /\ foldl (fun m p => <[asin p := p]> m) m ps !! a = Some p.
Proof.
  induction ps as [|p ps IH]; intros m a Ha; simpl.
  - by apply elem_of_nil in Ha.
  - destruct (decide (a ∈ asin <$> ps)) as [Hin|Hout].
    + destruct (IH (<[asin p := p]> m) a Hin) as (q & Hq & Hasin & Hl).
      exists q. split; [by right|done].
    + rewrite fmap_cons in Ha. apply elem_of_cons in Ha as [->|Ha]; [|done].
      exists p. split; [by left|]. split; [done|].
      rewrite upserts_out by done. apply lookup_insert_eq.
Qed.

(** When the tab of the head page is found, the round stores its records
    with [storePage] and writes the shortened list. *)
Lemma crawlRound_found b workerId w pagesToProcess pageNum rest newProducts :
  Product.refreshPages (redis w !! REDIS_KEY_WORKER_PAGES workerId)
    pagesToProcess = Some (pageNum :: rest) ->
  findTabByPageNumber b pageNum = Some newProducts ->
  Product.crawlRound b workerId w pagesToProcess
  = Product.Next
      {| redis := set (REDIS_KEY_WORKER_PAGES workerId) (VPages rest) (redis w);
         db := Product.storePage pageNum newProducts (db w) |} rest.
Proof.
  intros Hr Ht. unfold Product.crawlRound. rewrite Hr. simpl. by rewrite Ht.
Qed.
End storePage.


(** Page 3 holds the records A and B.  The same two identifiers on the tab:
    no deletion.  The identifiers A and C on the tab: the page is cleared
    first. *)
Example conditional_delete_page3 :
  let rec := fun a => {| asin := a; url := "u"; title := "t"; pageNumber := 3 |} in
  let d := Product.storeProducts [rec "A"; rec "B"] Scenario.emptyDb in
  let fresh := {| products := products d; journal := [] |} in
  journal (Product.storePage 3 [rec "B"; rec "A"] fresh)
    = [OpUpsert "B"; OpCrawlEvent "B" success;
       OpUpsert "A"; OpCrawlEvent "A" success]
  /\ journal (Product.storePage 3 [rec "A"; rec "C"] fresh)
     = [OpDeleteByPage 3; OpUpsert "A"; OpCrawlEvent "A" success;
        OpUpsert "C"; OpCrawlEvent "C" success]
  /\ products (Product.storePage 3 [rec "A"; rec "C"] fresh) !! "B"%string = None
  /\ products (Product.storePage 3 [rec "A"; rec "C"] fresh) !! "C"%string
     = Some (rec "C")
  /\ products (Product.storePage 3 [rec "B"; rec "A"] fresh) = products fresh.
Proof. repeat split; vm_compute; reflexivity. Qed.

(** ** Rebalancing *)

Lemma slice_chunk {A} (l : list A) (start c : nat) :
  JS.slice start (Nat.min (start + c) (length l)) l = take c (drop start l).
Proof.
  unfold JS.slice. destruct (decide (start + c <= length l)%nat).
  - by replace (Nat.min (start + c) (length l) - start)%nat with c by lia.
  - rewrite !take_ge; [done|rewrite length_drop; lia..].
Qed.

Lemma ceilLen_covers a b : (1 <= b)%nat -> (a <= General.ceilLen a b * b)%nat.
Proof.
  intros Hb. unfold General.ceilLen, JS.ceilDiv.
  pose proof (Z.div_mod (Z.of_nat a + Z.of_nat b - 1) (Z.of_nat b) ltac:(lia)).
  pose proof (Z.mod_pos_bound (Z.of_nat a + Z.of_nat b - 1) (Z.of_nat b) ltac:(lia)).
  assert (0 <= (Z.of_nat a + Z.of_nat b - 1) / Z.of_nat b)
    by (apply Z.div_pos; lia).
  nia.
Qed.

Lemma ceilLen_half n :
  General.ceilLen n 2 = ((n + 1) / 2)%nat /\ (n - General.ceilLen n 2 = n / 2)%nat.
Proof.
  assert (H : General.ceilLen n 2 = ((n + 1) / 2)%nat).
  { unfold General.ceilLen, JS.ceilDiv.
    replace (Z.of_nat n + Z.of_nat 2 - 1) with (Z.of_nat (n + 1)) by lia.
    by rewrite <- (Nat2Z.inj_div (n + 1) 2), Nat2Z.id. }
  split; [exact H|]. rewrite H.
  pose proof (Nat.div_mod_eq (n + 1) 2). pose proof (Nat.div_mod_eq n 2).
  pose proof (Nat.mod_upper_bound (n + 1) 2). pose proof (Nat.mod_upper_bound n 2).
  lia.
Qed.

Section pending.
Implicit Types (s : store) (k : key) (v : value).

Lemma pendingPages_delete s k v :
  s !! k = Some v ->
  General.pendingPages s
  = General.pendingEntry k v ⊎ General.pendingPages (delete k s).
Proof.
  intros Hk. unfold General.pendingPages.
  apply (map_fold_delete_L
           (fun k v acc => General.pendingEntry k v ⊎ acc) ∅ k v s); [|done].
  intros. multiset_solver.
Qed.

Lemma pendingPages_insert_fresh s k v :
  s !! k = None ->
  General.pendingPages (<[k:=v]> s)
  = General.pendingEntry k v ⊎ General.pendingPages s.
Proof.
  intros Hk. unfold General.pendingPages.
  apply (map_fold_insert_L
           (fun k v acc => General.pendingEntry k v ⊎ acc) ∅ k v s); [|done].
  intros. multiset_solver.
Qed.

(** Writing a key replaces what the key added to the pending pages. *)
Lemma pendingPages_set s k v :
  General.pendingPages (set k v s)
  ⊎ match s !! k with Some v0 => General.pendingEntry k v0 | None => ∅ end
  = General.pendingEntry k v ⊎ General.pendingPages s.
Proof.
  unfold set. destruct (s !! k) as [v0|] eqn:Hk.
  - rewrite <- (insert_delete_eq s), pendingPages_insert_fresh
      by apply lookup_delete_eq.
    rewrite (pendingPages_delete s k v0 Hk). multiset_solver.
  - rewrite pendingPages_insert_fresh by done. multiset_solver.
Qed.

Lemma pendingEntry_pagesOf s w :
  match s !! REDIS_KEY_WORKER_PAGES w with
  | Some v0 => General.pendingEntry (REDIS_KEY_WORKER_PAGES w) v0
  | None => ∅
  end = list_to_set_disj (General.pagesOf s w).
Proof.
  unfold General.pagesOf.
  destruct (s !! REDIS_KEY_WORKER_PAGES w) as [[]|]; done.
Qed.

(** Writing a page list to a worker replaces its old list in the pending
    pages. *)
Lemma pendingPages_set_pages s w pages :
  General.pendingPages (set (REDIS_KEY_WORKER_PAGES w) (VPages pages) s)
  ⊎ list_to_set_disj (General.pagesOf s w)
  = list_to_set_disj pages ⊎ General.pendingPages s.
Proof. rewrite <- pendingEntry_pagesOf. apply pendingPages_set. Qed.

(** A page in the lists of two workers counts twice. *)
Lemma pendingPages_two s w1 w2 p :
  w1 <> w2 -> p ∈ General.pagesOf s w1 -> p ∈ General.pagesOf s w2 ->
  (2 <= multiplicity p (General.pendingPages s))%nat.
Proof.
  unfold General.pagesOf. intros Hne H1 H2.
  destruct (s !! REDIS_KEY_WORKER_PAGES w1) as [[|?|l1]|] eqn:E1;
    try by apply elem_of_nil in H1.
  destruct (s !! REDIS_KEY_WORKER_PAGES w2) as [[|?|l2]|] eqn:E2;
    try by apply elem_of_nil in H2.
  rewrite (pendingPages_delete s _ _ E1).
  rewrite (pendingPages_delete (delete _ s) (REDIS_KEY_WORKER_PAGES w2) (VPages l2))
    by (rewrite lookup_delete_ne by congruence; done).
  rewrite !multiplicity_disj_union. simpl.
  apply elem_of_list_to_set_disj in H1, H2.
  unfold elem_of, gmultiset_elem_of in H1, H2. lia.
Qed.
End pending.
Section rebalance.
Implicit Types (s : store) (ws busy idle : list nat) (re pages : list Z).

(** The two groups of [classify] are the busy and the other workers, each
    in the order of the live list. *)
Lemma classify_spec s ws : forall busy idle,
  General.classify s ws = Some (busy, idle) ->
  busy = List.filter (General.isBusy s) ws
  /\ idle = List.filter (fun w => negb (General.isBusy s w)) ws.
Proof.
  induction ws as [|w ws IH]; intros busy idle; simpl.
  - by intros [= <- <-].
  - unfold General.isBusy.
    destruct (s !! REDIS_KEY_WORKER_PAGES w) as [[str| |[|p l]]|] eqn:E;
      simpl; try destruct (JS.truthy str); try discriminate;
      destruct (General.classify s ws) as [[busy' idle']|]; simpl;
      try discriminate; intros [= <- <-];
      destruct (IH busy' idle' eq_refl) as [-> ->]; done.
Qed.

(** [classify] raises on no store whose page lists are lists. *)
Lemma classify_total s ws :
  (forall w, w ∈ ws ->
     s !! REDIS_KEY_WORKER_PAGES w = None
     \/ exists pages, s !! REDIS_KEY_WORKER_PAGES w = Some (VPages pages)) ->
  General.classify s ws
  = Some (List.filter (General.isBusy s) ws,
          List.filter (fun w => negb (General.isBusy s w)) ws).
Proof.
  induction ws as [|w ws IH]; intros Hws; [done|].
  simpl. rewrite IH by (intros w' Hw'; apply Hws; by right).
  unfold General.isBusy.
  destruct (Hws w) as [->|[[|p l] ->]]; [by left|done..].
Qed.

Lemma giveToIdle_other c re idle : forall i s k,
  (forall w, w ∈ idle -> k <> REDIS_KEY_WORKER_PAGES w) ->
  General.giveToIdle c re i idle s !! k = s !! k.
Proof.
  induction idle as [|w idle IH]; intros i s k Hk; simpl; [done|].
  rewrite IH by (intros w' Hw'; apply Hk; by right).
  case_bool_decide; [|done].
  unfold set. rewrite lookup_insert_ne; [done|]. symmetry. apply Hk. by left.
Qed.

(** The idle worker at position [j] receives the [j]-th chunk of [c]
    pages, unless that chunk is empty; then it is not written. *)
Lemma giveToIdle_lookup c re idle : NoDup idle -> forall i s j w,
  idle !! j = Some w ->
  General.giveToIdle c re i idle s !! REDIS_KEY_WORKER_PAGES w
  = let chunk := take c (drop ((i + j) * c) re) in
    if bool_decide (0 < length chunk)%nat then Some (VPages chunk)
    else s !! REDIS_KEY_WORKER_PAGES w.
Proof.
  induction 1 as [|w0 idle Hnotin Hnd IH]; intros i s j w Hj; [done|].
  destruct j as [|j]; simpl in Hj |- *.
  - injection Hj as ->. rewrite giveToIdle_other
      by (intros w' Hw' [= ->]; done).
    rewrite slice_chunk, Nat.add_0_r.
    case_bool_decide; [|done]. unfold set. apply lookup_insert_eq.
  - rewrite (IH (S i) _ j w Hj).
    replace (S i + j)%nat with (i + S j)%nat by lia. cbv zeta.
    destruct (bool_decide (0 < length (take c (drop ((i + S j) * c) re)))%nat);
      [done|].
    case_bool_decide; [|done].
    unfold set. rewrite lookup_insert_ne; [done|].
    intros [= ->]. apply Hnotin. by eapply list_elem_of_lookup_2.
Qed.

Lemma pagesOf_set_other s w w' pages :
  w <> w' ->
  General.pagesOf (set (REDIS_KEY_WORKER_PAGES w) (VPages pages) s) w'
  = General.pagesOf s w'.
Proof.
  intros Hne. unfold General.pagesOf, set.
  by rewrite lookup_insert_ne by congruence.
Qed.

(** The chunks given to workers without pages add up to the first
    [length idle * c] of the remaining pages. *)
Lemma giveToIdle_pending c re idle : NoDup idle -> forall i s,
  (forall w, w ∈ idle -> General.pagesOf s w = []) ->
  General.pendingPages (General.giveToIdle c re i idle s)
  = list_to_set_disj (take (length idle * c) (drop (i * c) re))
    ⊎ General.pendingPages s.
Proof.
  induction 1 as [|w idle Hnotin Hnd IH]; intros i s Hidle; simpl.
  - multiset_solver.
  - rewrite slice_chunk.
    set (chunk := take c (drop (i * c) re)).
    assert (Hstep : forall s1,
      s1 = (if bool_decide (0 < length chunk)%nat
            then set (REDIS_KEY_WORKER_PAGES w) (VPages chunk) s else s) ->
      General.pendingPages s1 = list_to_set_disj chunk ⊎ General.pendingPages s
      /\ forall w', w' ∈ idle -> General.pagesOf s1 w' = []).
    { intros s1 ->. case_bool_decide as Hlen.
      - split.
        + pose proof (pendingPages_set_pages s w chunk) as Hset.
          rewrite (Hidle w) in Hset by (by left).
          rewrite list_to_set_disj_nil in Hset. clear -Hset. multiset_solver.
        + intros w' Hw'. rewrite pagesOf_set_other by (intros ->; done).
          apply Hidle. by right.
      - split.
        + destruct chunk; [|simpl in Hlen; lia].
          rewrite list_to_set_disj_nil. clear. multiset_solver.
        + intros w' Hw'. apply Hidle. by right. }
    destruct (Hstep _ eq_refl) as [Hpend Hrest].
    rewrite IH by exact Hrest. rewrite Hpend.
    rewrite <- (take_take_drop (drop (i * c) re) c (length idle * c)).
    rewrite drop_drop, list_to_set_disj_app. fold chunk.
    replace (S i * c)%nat with (i * c + c)%nat by lia.
    clear. multiset_solver.
Qed.
End rebalance.
Section rebalance_step.
Implicit Types (s : store) (ws busy idle : list nat) (pages : list Z).

(** The rebalance step either changes nothing, or takes the tail of the
    list of the first busy worker and hands it to the idle workers. *)
Lemma reassign_cases ws s :
  General.reassignPagesFromIdleWorkers ws s = s
  \/ exists source busy idle pages,
       General.classify s ws = Some (source :: busy, idle)
       /\ idle <> []
       /\ s !! REDIS_KEY_WORKER_PAGES source = Some (VPages pages)
       /\ (1 < length pages)%nat
       /\ General.reassignPagesFromIdleWorkers ws s
          = let half := General.ceilLen (length pages) 2 in
            let reassignPages := drop half pages in
            General.giveToIdle
              (General.ceilLen (length reassignPages) (length idle))
              reassignPages 0 idle
              (set (REDIS_KEY_WORKER_PAGES source) (VPages (take half pages)) s).
Proof.
  unfold General.reassignPagesFromIdleWorkers.
  destruct (General.classify s ws) as [[[|source busy] idle]|] eqn:Hc;
    [rewrite andb_false_r; by left| |by left].
  destruct idle as [|w idle]; [by left|].
  rewrite !(bool_decide_eq_true_2 (0 < _)%nat) by (simpl; lia).
  simpl andb. cbv iota.
  destruct (s !! REDIS_KEY_WORKER_PAGES source) as [[| |pages]|] eqn:Hp;
    try by left.
  case_bool_decide as Hlen; [|by left].
  right. exists source, busy, (w :: idle), pages. done.
Qed.

Lemma isBusy_false_pagesOf s w :
  General.isBusy s w = false -> General.pagesOf s w = [].
Proof.
  unfold General.isBusy, General.pagesOf.
  destruct (s !! REDIS_KEY_WORKER_PAGES w) as [[| |[|]]|]; done.
Qed.

Lemma classify_groups s ws source busy idle :
  NoDup ws ->
  General.classify s ws = Some (source :: busy, idle) ->
  NoDup idle
  /\ source ∈ ws /\ General.isBusy s source = true
  /\ (forall w, w ∈ idle ->
        w ∈ ws /\ w <> source /\ General.pagesOf s w = []).
Proof.
  intros Hnd Hc. destruct (classify_spec s ws _ _ Hc) as [Hb ->].
  assert (Hs : source ∈ List.filter (General.isBusy s) ws)
    by (rewrite <- Hb; by left).
  apply list_elem_of_In, filter_In in Hs as [Hs1 Hs2].
  split; [by apply NoDup_ListNoDup, List.NoDup_filter, NoDup_ListNoDup|].
  split; [by apply list_elem_of_In|]. split; [done|].
  intros w Hw. apply list_elem_of_In, filter_In in Hw as [Hw1 Hw2].
  apply negb_true_iff in Hw2.
  split; [by apply list_elem_of_In|]. split; [congruence|].
  by apply isBusy_false_pagesOf.
Qed.
End rebalance_step.

(** The rebalance step moves pages and neither drops nor copies any. *)
Lemma reassignPages_pending (activeWorkers : list nat) (s : store) :
  NoDup activeWorkers ->
  General.pendingPages (General.reassignPagesFromIdleWorkers activeWorkers s)
  = General.pendingPages s.
Proof.
  intros Hnd.
  destruct (reassign_cases activeWorkers s)
    as [->|(source & busy & idle & pages & Hc & Hidle & Hp & Hlen & ->)];
    [done|].
  destruct (classify_groups s activeWorkers source busy idle Hnd Hc)
    as (Hndi & _ & _ & Hgroup).
  cbv zeta. set (half := General.ceilLen (length pages) 2).
  rewrite giveToIdle_pending.
  - rewrite Nat.mul_0_l, drop_0, take_ge.
    + pose proof (pendingPages_set_pages s source (take half pages)) as Hset.
      unfold General.pagesOf in Hset. rewrite Hp in Hset.
      rewrite <- (take_drop half pages) in Hset at 2.
      rewrite list_to_set_disj_app in Hset. clear -Hset. multiset_solver.
    + rewrite Nat.mul_comm. apply ceilLen_covers.
      destruct idle; [done|simpl; lia].
  - exact Hndi.
  - intros w Hw. destruct (Hgroup w Hw) as (_ & Hne & Hempty).
    by rewrite pagesOf_set_other.
Qed.

(** The general worker passes the live list of its own liveness check, which
    has no repeated id. *)
Lemma reassignPages_pending_live (now : Z) (s : store) :
  General.pendingPages
    (General.reassignPagesFromIdleWorkers (General.detectActiveWorkers now s) s)
  = General.pendingPages s.
Proof. apply reassignPages_pending, detectActive_NoDup. Qed.

(** C5, as the code has it.  For a live list without repeated ids, one
    rebalance step leaves the multiset of the pending page numbers over the
    lists of all product workers unchanged.  If, before the step, no page
    number occurs more than once over all the lists, then after the step no
    page number is in the lists of two different workers. *)
Theorem rebalance_conservation (activeWorkers : list nat) (s : store) :
  NoDup activeWorkers ->
  let s' := General.reassignPagesFromIdleWorkers activeWorkers s in
  General.pendingPages s' = General.pendingPages s
  /\ ((forall p, (multiplicity p (General.pendingPages s) <= 1)%nat) ->
      forall w1 w2 p,
        w1 <> w2 -> p ∈ General.pagesOf s' w1 -> p ∉ General.pagesOf s' w2).
Proof.
  intros Hnd s'.
  pose proof (reassignPages_pending activeWorkers s Hnd) as Hsame.
  fold s' in Hsame. split; [exact Hsame|].
  intros Honce w1 w2 p Hne H1 H2.
  pose proof (pendingPages_two s' w1 w2 p Hne H1 H2) as Htwo.
  rewrite Hsame in Htwo. specialize (Honce p). lia.
Qed.

Lemma multiplicity_NoDup (l : list Z) (p : Z) :
  NoDup l -> (multiplicity p (list_to_set_disj l : gmultiset Z) <= 1)%nat.
Proof.
  induction 1 as [|x l Hnotin Hnd IH].
  - rewrite list_to_set_disj_nil, multiplicity_empty. lia.
  - rewrite list_to_set_disj_cons, multiplicity_disj_union.
    destruct (decide (p = x)) as [->|Hne].
    + rewrite multiplicity_singleton, decide_True by done.
      rewrite (proj1 (not_elem_of_multiplicity x (list_to_set_disj l)));
        [lia|].
      by rewrite elem_of_list_to_set_disj.
    + rewrite multiplicity_singleton_ne by done. lia.
Qed.

(** The statement above for one busy worker with three pages and one idle
    worker. *)
Lemma rebalance_conservation_witness :
  NoDup [1; 2]%nat
  /\ (forall p, (multiplicity p (General.pendingPages Scenario.halfBusy) <= 1)%nat)
  /\ General.pendingPages
       (General.reassignPagesFromIdleWorkers [1; 2]%nat Scenario.halfBusy)
     = General.pendingPages Scenario.halfBusy.
Proof.
  assert (H1 : NoDup [1; 2]%nat) by compute_done.
  assert (H2 : forall p,
            (multiplicity p (General.pendingPages Scenario.halfBusy) <= 1)%nat).
  { intros p.
    change (General.pendingPages Scenario.halfBusy)
      with (list_to_set_disj [1; 2; 3] : gmultiset Z).
    apply multiplicity_NoDup. compute_done. }
  split; [exact H1|]. split; [exact H2|].
  by destruct (rebalance_conservation [1; 2]%nat Scenario.halfBusy H1).
Defined.

(** C5, as the claim words it, fails on lists that already share a page:
    pages 5 and 6 are with workers 1 and 2, worker 3 is idle.  The step moves
    page 6 from worker 1 to worker 3; afterwards page 6 is with workers 2
    and 3 (and page 5 with workers 1 and 2). *)
Lemma rebalance_conservation_counterexample :
  let s' := General.reassignPagesFromIdleWorkers [1; 2; 3]%nat
              Scenario.overlapping in
  General.pagesOf s' 1 = [4; 5]
  /\ General.pagesOf s' 2 = [5; 6]
  /\ General.pagesOf s' 3 = [6]
  /\ 2%nat <> 3%nat
  /\ 6 ∈ General.pagesOf s' 2 /\ 6 ∈ General.pagesOf s' 3.
Proof.
  repeat split; try reflexivity; try lia.
  - vm_compute. apply list_elem_of_In. simpl. auto.
  - vm_compute. apply list_elem_of_In. simpl. auto.
Qed.
Lemma chunks_concat {A} (c : nat) (l : list A) (k : nat) : forall i,
  concat (map (fun j => take c (drop (j * c) l)) (seq i k))
  = take (k * c) (drop (i * c) l).
Proof.
  induction k as [|k IH]; intros i; simpl; [done|].
  rewrite IH, <- (take_take_drop (drop (i * c) l) c (k * c)), drop_drop.
  by replace (S i * c)%nat with (i * c + c)%nat by lia.
Qed.

(** C6, as the code has it.  When the live product workers split into a
    busy group, whose first worker [source] holds [n] pages, and a non-empty
    idle group, the rebalance step does nothing if [n <= 1]; if [n > 1] it
    keeps the first [ceil (n / 2)] pages with [source], removes the other
    [floor (n / 2)], and hands the removed pages to the idle workers in
    consecutive chunks of [c = ceil (removed / idleCount)] pages: the idle
    worker at position [i] is written the [i]-th chunk, and is not written
    when that chunk is empty.  The chunks together are the removed pages,
    and no other key changes. *)
Theorem rebalance_amount (activeWorkers : list nat) (s : store)
    (source : nat) (busy idle : list nat) (pages : list Z) :
  NoDup activeWorkers ->
  General.classify s activeWorkers = Some (source :: busy, idle) ->
  idle <> [] ->
  s !! REDIS_KEY_WORKER_PAGES source = Some (VPages pages) ->
  let n := length pages in
  let keep := General.ceilLen n 2 in
  let removed := drop keep pages in
  let c := General.ceilLen (length removed) (length idle) in
  let chunk (i : nat) := take c (drop (i * c) removed) in
  let s' := General.reassignPagesFromIdleWorkers activeWorkers s in
  (source :: busy = List.filter (General.isBusy s) activeWorkers
   /\ idle = List.filter (fun w => negb (General.isBusy s w)) activeWorkers)
  /\ ((1 < n)%nat ->
        s' !! REDIS_KEY_WORKER_PAGES source = Some (VPages (take keep pages))
        /\ length (take keep pages) = ((n + 1) / 2)%nat
        /\ length removed = (n / 2)%nat
        /\ (forall i w, idle !! i = Some w ->
              s' !! REDIS_KEY_WORKER_PAGES w
              = if bool_decide (0 < length (chunk i))%nat
                then Some (VPages (chunk i))
                else s !! REDIS_KEY_WORKER_PAGES w)
        /\ concat (map chunk (seq 0 (length idle))) = removed
        /\ (forall k, k <> REDIS_KEY_WORKER_PAGES source ->
              (forall w, w ∈ idle -> k <> REDIS_KEY_WORKER_PAGES w) ->
              s' !! k = s !! k))
  /\ ((n <= 1)%nat -> s' = s).
Proof.
  intros Hnd Hc Hidle Hp n keep removed c chunk s'.
  destruct (classify_groups s activeWorkers source busy idle Hnd Hc)
    as (Hndi & _ & _ & Hgroup).
  split; [by apply classify_spec|].
  destruct (reassign_cases activeWorkers s)
    as [Hsame|(source' & busy' & idle' & pages' & Hc' & _ & Hp' & Hlen & Heq)].
  - split.
    + intros Hn. exfalso. revert Hsame.
      unfold General.reassignPagesFromIdleWorkers. rewrite Hc.
      rewrite !(bool_decide_eq_true_2 (0 < _)%nat)
        by (destruct idle; [done|simpl; lia]).
      simpl andb. cbv iota. rewrite Hp.
      rewrite bool_decide_eq_true_2 by exact Hn.
      intros Hsame.
      assert (Hkeep : s !! REDIS_KEY_WORKER_PAGES source
                      = Some (VPages (take keep pages))).
      { rewrite <- Hsame at 1. rewrite giveToIdle_other.
        - apply lookup_insert_eq.
        - intros w Hw [= ->]. by destruct (Hgroup w Hw) as (_ & ? & _). }
      rewrite Hp in Hkeep. injection Hkeep as Hkeep.
      apply (f_equal length) in Hkeep. rewrite length_take in Hkeep.
      fold n in Hkeep. destruct (ceilLen_half n) as [Hhalf _].
      fold keep in Hhalf.
      pose proof (Nat.div_mod_eq (n + 1) 2).
      pose proof (Nat.mod_upper_bound (n + 1) 2). lia.
    + by intros _.
  - rewrite Hc in Hc'. injection Hc' as <- <- <-.
    rewrite Hp in Hp'. injection Hp' as <-.
    fold n keep removed c in Heq. cbv zeta in Heq. fold s' in Heq.
    split; [intros _|intros Hn; fold n in Hlen; lia].
    destruct (ceilLen_half n) as [Hhalf Hrest]. fold keep in Hhalf, Hrest.
    assert (Hkeepn : (keep <= n)%nat).
    { rewrite Hhalf. pose proof (Nat.div_mod_eq (n + 1) 2).
      pose proof (Nat.mod_upper_bound (n + 1) 2). fold n in Hlen. lia. }
    split; [|split; [|split; [|split; [|split]]]].
    + rewrite Heq, giveToIdle_other.
      * apply lookup_insert_eq.
      * intros w Hw [= ->]. by destruct (Hgroup w Hw) as (_ & ? & _).
    + rewrite length_take. fold n. lia.
    + unfold removed. rewrite length_drop. fold n. lia.
    + intros i w Hi.
      rewrite Heq, (giveToIdle_lookup c removed idle Hndi 0 _ i w Hi).
      cbv zeta. rewrite Nat.add_0_l. fold (chunk i).
      case_bool_decide; [done|].
      unfold set. rewrite lookup_insert_ne; [done|].
      intros [= ->].
      destruct (Hgroup w (list_elem_of_lookup_2 _ _ _ Hi)) as (_ & ? & _).
      done.
    + unfold chunk. rewrite chunks_concat, Nat.mul_0_l, drop_0.
      apply take_ge. unfold c. rewrite Nat.mul_comm. apply ceilLen_covers.
      destruct idle; [done|simpl; lia].
    + intros k Hk1 Hk2. rewrite Heq, giveToIdle_other by exact Hk2.
      unfold set. by rewrite lookup_insert_ne.
Qed.

(** The statement above for one busy worker with three pages and one idle
    worker: two pages stay. *)
Lemma rebalance_amount_witness :
  NoDup [1; 2]%nat
  /\ General.classify Scenario.halfBusy [1; 2]%nat = Some ([1], [2])%nat
  /\ [2]%nat <> []
  /\ Scenario.halfBusy !! REDIS_KEY_WORKER_PAGES 1 = Some (VPages [1; 2; 3])
  /\ General.reassignPagesFromIdleWorkers [1; 2]%nat Scenario.halfBusy
       !! REDIS_KEY_WORKER_PAGES 1
     = Some (VPages [1; 2]).
Proof.
  assert (H1 : NoDup [1; 2]%nat) by compute_done.
  assert (H2 : General.classify Scenario.halfBusy [1; 2]%nat
               = Some ([1], [2])%nat) by reflexivity.
  assert (H3 : [2]%nat <> []) by discriminate.
  assert (H4 : Scenario.halfBusy !! REDIS_KEY_WORKER_PAGES 1
               = Some (VPages [1; 2; 3])) by reflexivity.
  split; [exact H1|]. split; [exact H2|]. split; [exact H3|].
  split; [exact H4|].
  destruct (rebalance_amount [1; 2]%nat Scenario.halfBusy 1%nat [] [2]%nat
              [1; 2; 3] H1 H2 H3 H4) as (_ & Hmove & _).
  destruct (Hmove ltac:(simpl; lia)) as (Hkeep & _). exact Hkeep.
Defined.

(** C6, as the claim words it, fails on a busy worker with three pages and
    one idle worker: [ceil (3 / 2)] is 2, and the step removes one page. *)
Lemma rebalance_amount_counterexample :
  let s := Scenario.halfBusy in
  let s' := General.reassignPagesFromIdleWorkers [1; 2]%nat s in
  General.classify s [1; 2]%nat = Some ([1], [2])%nat
  /\ General.pagesOf s 1 = [1; 2; 3]
  /\ General.pagesOf s' 1 = [1; 2]
  /\ General.pagesOf s' 2 = [3]
  /\ General.ceilLen 3 2 = 2%nat
  /\ (length (General.pagesOf s 1) - length (General.pagesOf s' 1) = 1)%nat.
Proof. repeat split; reflexivity. Qed.

(** The source is the first busy worker of the live list, whatever the
    lengths of the other busy lists: here worker 2 holds four pages and the
    step takes from worker 1, which holds two. *)
Example rebalance_takes_first_busy :
  let s' := General.reassignPagesFromIdleWorkers [1; 2; 3]%nat
              Scenario.secondBusiest in
  General.pagesOf s' 1 = [1]
  /\ General.pagesOf s' 2 = [3; 4; 5; 6]
  /\ General.pagesOf s' 3 = [2].
Proof. repeat split; reflexivity. Qed.

Section cover.
Implicit Types (s : store) (ids : list nat).

(** The pending pages are the pages of the lists of [ids] when no other
    worker holds a page. *)
Lemma pendingPages_empty s :
  (forall w, General.pagesOf s w = []) -> General.pendingPages s = ∅.
Proof.
  induction s as [|k v m Hk IH] using map_ind; intros Hnone; [done|].
  rewrite pendingPages_insert_fresh by done.
  rewrite IH.
  - assert (General.pendingEntry k v = ∅) as ->; [|multiset_solver].
    destruct k; try done. destruct v as [| |pages]; try done. simpl.
    match type of Hk with
    | _ !! REDIS_KEY_WORKER_PAGES ?w = _ => specialize (Hnone w)
    end.
    unfold General.pagesOf in Hnone.
    rewrite lookup_insert_eq in Hnone. by rewrite Hnone.
  - intros w. specialize (Hnone w). unfold General.pagesOf in *.
    destruct (decide (k = REDIS_KEY_WORKER_PAGES w)) as [->|Hne].
    + by rewrite Hk.
    + by rewrite lookup_insert_ne in Hnone.
Qed.

Lemma pendingPages_cover ids : NoDup ids -> forall s,
  (forall w, w ∉ ids -> General.pagesOf s w = []) ->
  General.pendingPages s
  = list_to_set_disj (concat (General.pagesOf s <$> ids)).
Proof.
  induction 1 as [|w ids Hnotin Hnd IH]; intros s Hout.
  - apply pendingPages_empty. intros w. apply Hout, not_elem_of_nil.
  - simpl. rewrite list_to_set_disj_app.
    assert (General.pendingPages s
            = list_to_set_disj (General.pagesOf s w)
              ⊎ General.pendingPages (delete (REDIS_KEY_WORKER_PAGES w) s))
      as ->.
    { rewrite <- pendingEntry_pagesOf.
      destruct (s !! REDIS_KEY_WORKER_PAGES w) as [v|] eqn:Hw.
      - by apply pendingPages_delete.
      - rewrite delete_id by done. multiset_solver. }
    rewrite (IH (delete (REDIS_KEY_WORKER_PAGES w) s)).
    + f_equal. f_equal. f_equal. apply list_fmap_ext.
      intros i w' Hw'. apply list_elem_of_lookup_2 in Hw'.
      unfold General.pagesOf. rewrite lookup_delete_ne; [done|].
      intros [= Heq]. by subst.
    + intros w' Hw'. unfold General.pagesOf.
      destruct (decide (w' = w)) as [->|Hne].
      * by rewrite lookup_delete_eq.
      * rewrite lookup_delete_ne by congruence.
        apply Hout. rewrite elem_of_cons. tauto.
Qed.

(** With every page at most once among the pending pages, no page is in the
    lists of two workers. *)
Lemma pending_disjoint s pages :
  General.pendingPages s = list_to_set_disj pages -> NoDup pages ->
  forall w1 w2 p, w1 <> w2 ->
    p ∈ General.pagesOf s w1 -> p ∉ General.pagesOf s w2.
Proof.
  intros Hp Hnd w1 w2 p Hne H1 H2.
  pose proof (pendingPages_two s w1 w2 p Hne H1 H2) as Htwo.
  rewrite Hp in Htwo.
  pose proof (multiplicity_NoDup pages p Hnd). lia.
Qed.
End cover.
Section deal.
Implicit Types (pages done rest : list Z) (acc : list (list Z)).

Lemma concat_alter_push acc page : forall i,
  (i < length acc)%nat ->
  concat (alter (fun l => l ++ [page]) i acc) ≡ₚ page :: concat acc.
Proof.
  induction acc as [|l acc IH]; intros [|i] Hi; simpl in Hi; try lia.
  - change ((l ++ [page]) ++ concat acc ≡ₚ page :: l ++ concat acc).
    rewrite <- app_assoc. simpl. by rewrite <- Permutation_middle.
  - change (l ++ concat (alter (fun l => l ++ [page]) i acc)
            ≡ₚ page :: l ++ concat acc).
    rewrite IH by lia. by rewrite <- Permutation_middle.
Qed.

Lemma dealt_length n done acc i l :
  (0 < n)%nat -> Batch.dealt n done acc ->
  acc !! i = Some l -> i = (length done mod n)%nat ->
  length l = (length done / n)%nat.
Proof.
  intros Hn (Hlen & _ & Hl) Hi ->.
  pose proof (Nat.div_mod_eq (length done) n) as Hdm.
  pose proof (Nat.mod_upper_bound (length done) n ltac:(lia)) as Hlt.
  pose proof (Hl _ _ Hi (length l)) as Hend.
  rewrite lookup_ge_None_2 in Hend by lia.
  symmetry in Hend. apply lookup_ge_None_1 in Hend.
  destruct (decide (length l = 0%nat)) as [H0|H0].
  - rewrite H0 in *. nia.
  - pose proof (Hl _ _ Hi (length l - 1)%nat) as Hlast.
    destruct (lookup_lt_is_Some_2 l (length l - 1)%nat ltac:(lia)) as [x Hx].
    rewrite Hx in Hlast. symmetry in Hlast.
    apply lookup_lt_Some in Hlast. nia.
Qed.

Lemma dealt_step n done acc page :
  (0 < n)%nat -> Batch.dealt n done acc ->
  Batch.dealt n (done ++ [page])
    (alter (fun l => l ++ [page]) (length done mod n)%nat acc).
Proof.
  intros Hn Hd. pose proof Hd as (Hlen & Hperm & Hl).
  pose proof (Nat.mod_upper_bound (length done) n ltac:(lia)) as Hlt.
  pose proof (Nat.div_mod_eq (length done) n) as Hdm.
  destruct (lookup_lt_is_Some_2 acc (length done mod n)%nat ltac:(lia))
    as [l0 Hl0].
  pose proof (dealt_length n done acc _ l0 Hn Hd Hl0 eq_refl) as Hlen0.
  split; [by rewrite length_alter|]. split.
  - rewrite concat_alter_push by lia.
    rewrite Hperm. apply Permutation_cons_append.
  - intros i l Hi j.
    destruct (decide (i = (length done mod n)%nat)) as [->|Hne].
    + rewrite list_lookup_alter_eq, Hl0 in Hi. simpl in Hi.
      injection Hi as <-.
      destruct (decide (j < length l0)%nat) as [Hj|Hj].
      * rewrite lookup_app_l by done. rewrite lookup_app_l by nia.
        by apply Hl.
      * destruct (decide (j = length l0)) as [->|Hj'].
        -- rewrite list_lookup_middle by done.
           symmetry. apply list_lookup_middle. nia.
        -- rewrite !lookup_ge_None_2; [done| |];
             rewrite length_app; simpl; nia.
    + rewrite list_lookup_alter_ne in Hi by done.
      assert (i < n)%nat as Hin by (apply lookup_lt_Some in Hi; lia).
      rewrite (Hl _ _ Hi j).
      destruct (decide (i + j * n < length done)%nat) as [Hj|Hj].
      * by rewrite lookup_app_l.
      * assert (i + j * n <> length done)%nat.
        { intros Heq. apply Hne. rewrite <- Heq.
          rewrite Nat.Div0.mod_add. by rewrite Nat.mod_small. }
        rewrite !lookup_ge_None_2; [done| |]; rewrite ?length_app; simpl; lia.
Qed.

Lemma dealPages_dealt n rest : forall done acc,
  (0 < n)%nat -> Batch.dealt n done acc ->
  Batch.dealt n (done ++ rest) (Batch.dealPages n rest (length done) acc).
Proof.
  induction rest as [|page rest IH]; intros done acc Hn Hd; simpl.
  - by rewrite app_nil_r.
  - rewrite (cons_middle page), app_assoc.
    replace (S (length done)) with (length (done ++ [page]))
      by (rewrite length_app; simpl; lia).
    apply IH; [done|]. by apply dealt_step.
Qed.

Lemma dealt_start n : Batch.dealt n [] (replicate n []).
Proof.
  split; [by rewrite length_replicate|]. split.
  - induction n; simpl; auto.
  - intros i l Hi j. apply lookup_replicate in Hi as [-> _]. done.
Qed.

Lemma dealPages_start n pages :
  (0 < n)%nat ->
  Batch.dealt n pages (Batch.dealPages n pages 0 (replicate n [])).
Proof. intros Hn. apply (dealPages_dealt n pages [] _ Hn), dealt_start. Qed.
End deal.

Section distribute.
Implicit Types (s : store) (ws : list nat) (wp : list (list Z)) (k : key).

Lemma assignLists_other ws : forall wp s k,
  (forall w, w ∈ ws -> k <> REDIS_KEY_WORKER_PAGES w) ->
  Batch.assignLists ws wp s !! k = s !! k.
Proof.
  induction ws as [|w ws IH]; intros [|l wp] s k Hk; simpl; try done.
  rewrite IH by (intros; apply Hk; by right).
  unfold set. apply lookup_insert_ne. intros <-. by eapply Hk; [left|].
Qed.

Lemma assignLists_lookup ws : NoDup ws -> forall wp s i w l,
  ws !! i = Some w -> wp !! i = Some l ->
  Batch.assignLists ws wp s !! REDIS_KEY_WORKER_PAGES w = Some (VPages l).
Proof.
  induction 1 as [|w0 ws Hnotin Hnd IH]; intros [|l0 wp] s [|i] w l Hw Hl;
    simpl in *; try done.
  - injection Hw as ->. injection Hl as ->.
    rewrite assignLists_other by (intros w' Hw' [= <-]; done).
    unfold set. by rewrite lookup_insert_eq.
  - by eapply IH.
Qed.

Lemma clearInactive_none ws ids : forall s k,
  s !! k = None ->
  foldl (fun s workerId =>
           if bool_decide (workerId ∈ ws) then s
           else del (REDIS_KEY_WORKER_PAGES workerId) s) s ids !! k = None.
Proof.
  induction ids as [|w ids IH]; intros s k Hk; simpl; [done|].
  apply IH. case_bool_decide; [done|].
  unfold del. rewrite lookup_delete_None. by right.
Qed.

Lemma clearInactive_fold_cleared ws ids : forall s w,
  w ∈ ids -> w ∉ ws ->
  foldl (fun s workerId =>
           if bool_decide (workerId ∈ ws) then s
           else del (REDIS_KEY_WORKER_PAGES workerId) s) s ids
    !! REDIS_KEY_WORKER_PAGES w = None.
Proof.
  induction ids as [|w0 ids IH]; intros s w Hw Hn; simpl.
  - by apply elem_of_nil in Hw.
  - destruct (decide (w = w0)) as [->|Hne].
    + apply clearInactive_none.
      rewrite bool_decide_eq_false_2 by done.
      unfold del. apply lookup_delete_eq.
    + apply IH; [|done]. apply elem_of_cons in Hw as [?|?]; done.
Qed.

Lemma clearInactive_fold_other ws ids : forall s k,
  (forall w, w ∈ ids -> w ∉ ws -> k <> REDIS_KEY_WORKER_PAGES w) ->
  foldl (fun s workerId =>
           if bool_decide (workerId ∈ ws) then s
           else del (REDIS_KEY_WORKER_PAGES workerId) s) s ids !! k
  = s !! k.
Proof.
  induction ids as [|w0 ids IH]; intros s k Hk; simpl; [done|].
  rewrite IH by (intros w ? ?; apply Hk; [by right|done]).
  case_bool_decide; [done|].
  unfold del. apply lookup_delete_ne. intros <-.
  by apply (Hk w0); [left|..].
Qed.

Lemma clearInactive_cleared ws s w :
  (1 <= w <= 20)%nat -> w ∉ ws ->
  Batch.clearInactive ws s !! REDIS_KEY_WORKER_PAGES w = None.
Proof.
  intros Hw Hn. apply clearInactive_fold_cleared; [|done].
  apply elem_of_seq. lia.
Qed.

Lemma clearInactive_other ws s k :
  (forall w, (1 <= w <= 20)%nat -> w ∉ ws -> k <> REDIS_KEY_WORKER_PAGES w) ->
  Batch.clearInactive ws s !! k = s !! k.
Proof.
  intros Hk. apply clearInactive_fold_other.
  intros w Hw Hn. apply elem_of_seq in Hw. apply Hk; [lia|done].
Qed.

(** What [distributePagesToWorkersWithList] leaves in the store. *)
Lemma distribute_store pages ws s s' :
  NoDup ws ->
  Batch.distributePagesToWorkersWithList pages ws s = Some s' ->
  exists wp, Batch.dealt (length ws) pages wp
  /\ (forall i w l, ws !! i = Some w -> wp !! i = Some l ->
        s' !! REDIS_KEY_WORKER_PAGES w = Some (VPages l))
  /\ (forall w, (1 <= w <= 20)%nat -> w ∉ ws ->
        s' !! REDIS_KEY_WORKER_PAGES w = None)
  /\ s' !! REDIS_KEY_PENDING_PAGES = Some (VPages [])
  /\ s' !! REDIS_KEY_ASSIGNED_PAGES = Some (VPages pages)
  /\ (forall k, (forall w, k <> REDIS_KEY_WORKER_PAGES w) ->
        k <> REDIS_KEY_PENDING_PAGES -> k <> REDIS_KEY_ASSIGNED_PAGES ->
        s' !! k = s !! k)
  /\ (forall w, ~ (1 <= w <= 20)%nat -> w ∉ ws ->
        s' !! REDIS_KEY_WORKER_PAGES w = s !! REDIS_KEY_WORKER_PAGES w).
Proof.
  intros Hnd. unfold Batch.distributePagesToWorkersWithList.
  destruct (bool_decide (length ws = 0%nat) && bool_decide (pages <> []))
    eqn:Hraise; [done|].
  intros Hs'. apply (inj Some) in Hs'. subst s'.
  exists (Batch.dealPages (length ws) pages 0 (replicate (length ws) [])).
  split.
  { destruct (decide (length ws = 0%nat)) as [H0|H0].
    - rewrite (bool_decide_eq_true_2 _ H0) in Hraise. simpl in Hraise.
      apply bool_decide_eq_false in Hraise.
      destruct pages; [|by destruct Hraise].
      rewrite H0. apply dealt_start.
    - apply dealPages_start. lia. }
  unfold set. repeat split.
  - intros i w l Hw Hl.
    rewrite !lookup_insert_ne by done.
    rewrite clearInactive_other.
    + by eapply assignLists_lookup.
    + intros w' _ Hn [= <-]. apply Hn. by eapply list_elem_of_lookup_2.
  - intros w Hw Hn. rewrite !lookup_insert_ne by done.
    by apply clearInactive_cleared.
  - by rewrite lookup_insert_ne, lookup_insert_eq.
  - by rewrite lookup_insert_eq.
  - intros k Hk Hp Ha. rewrite !lookup_insert_ne by done.
    rewrite clearInactive_other by (intros; apply Hk).
    apply assignLists_other. intros; apply Hk.
  - intros w Hw Hn. rewrite !lookup_insert_ne by done.
    rewrite clearInactive_other by (intros w' ? ? [= <-]; done).
    apply assignLists_other. intros w' ? [= <-]. done.
Qed.

(** The list of every worker of [ws], by its position. *)
Lemma distribute_lists pages ws s s' :
  NoDup ws ->
  Batch.distributePagesToWorkersWithList pages ws s = Some s' ->
  forall i w, ws !! i = Some w ->
    exists l, s' !! REDIS_KEY_WORKER_PAGES w = Some (VPages l)
      /\ forall j, l !! j = pages !! (i + j * length ws)%nat.
Proof.
  intros Hnd Hs i w Hw.
  destruct (distribute_store pages ws s s' Hnd Hs)
    as (wp & (Hlen & _ & Hl) & Hset & _).
  destruct (lookup_lt_is_Some_2 wp i) as [l Hi].
  { rewrite Hlen. by eapply lookup_lt_Some. }
  exists l. split; [by eapply Hset|]. by apply Hl.
Qed.

Lemma distribute_pending pages ws s s' :
  NoDup ws ->
  (forall w, ~ (1 <= w <= 20)%nat -> w ∉ ws -> General.pagesOf s w = []) ->
  Batch.distributePagesToWorkersWithList pages ws s = Some s' ->
  General.pendingPages s' = list_to_set_disj pages.
Proof.
  intros Hnd Hstray Hs.
  destruct (distribute_store pages ws s s' Hnd Hs)
    as (wp & (Hlen & Hperm & _) & Hset & Hclear & _ & _ & _ & Hout).
  rewrite (pendingPages_cover ws Hnd).
  - rewrite <- Hperm. f_equal. f_equal.
    apply list_eq. intros i. rewrite list_lookup_fmap.
    destruct (ws !! i) as [w|] eqn:Hw; simpl.
    + destruct (lookup_lt_is_Some_2 wp i) as [l Hi].
      { rewrite Hlen. by eapply lookup_lt_Some. }
      rewrite Hi. unfold General.pagesOf. by rewrite (Hset i w l Hw Hi).
    + symmetry. apply lookup_ge_None_2. rewrite Hlen.
      by apply lookup_ge_None_1.
  - intros w Hw. unfold General.pagesOf.
    destruct (decide (1 <= w <= 20)%nat) as [Hin|Hin].
    + by rewrite Hclear.
    + rewrite Hout by done. by apply Hstray.
Qed.
End distribute.

(** ** Handing out a batch *)

(** X1.  [distributePagesToWorkersWithList] deals the batch by position: the
    worker at position [i] of a list of [n] different workers gets the pages
    at the positions [i], [i + n], [i + 2 n], ... of the batch, in that
    order; the ids 1..20 outside the list lose their page list; the pending
    list is emptied and the assigned list is the batch. *)
Theorem distribute_by_position (pages : list Z) (activeWorkers : list nat)
    (s s' : store) :
  NoDup activeWorkers ->
  Batch.distributePagesToWorkersWithList pages activeWorkers s = Some s' ->
  (forall i w, activeWorkers !! i = Some w ->
     exists l, s' !! REDIS_KEY_WORKER_PAGES w = Some (VPages l)
       /\ forall j, l !! j = pages !! (i + j * length activeWorkers)%nat)
  /\ (forall w, (1 <= w <= 20)%nat -> w ∉ activeWorkers ->
        s' !! REDIS_KEY_WORKER_PAGES w = None)
  /\ s' !! REDIS_KEY_PENDING_PAGES = Some (VPages [])
  /\ s' !! REDIS_KEY_ASSIGNED_PAGES = Some (VPages pages).
Proof.
  intros Hnd Hs. split; [by eapply distribute_lists|].
  destruct (distribute_store pages activeWorkers s s' Hnd Hs)
    as (wp & _ & _ & Hclear & Hp & Ha & _).
  done.
Qed.

Lemma distribute_by_position_witness :
  exists s',
    Batch.distributePagesToWorkersWithList [11; 12; 13; 14; 15] [3; 7]%nat ∅
    = Some s'
    /\ s' !! REDIS_KEY_WORKER_PAGES 5 = None.
Proof.
  eexists. split; [reflexivity|].
  eapply (distribute_by_position [11; 12; 13; 14; 15] [3; 7]%nat ∅);
    [compute_done|reflexivity|lia|compute_done].
Defined.

(** X2.  Handing out a batch neither drops nor copies a page: when no
    worker outside the ids 1..20 and the list holds a page, the pending
    pages afterwards are the pages of the batch, each as often as the batch
    has it; and a batch without a repeated page leaves no page with two
    workers. *)
Theorem distribute_conserves_pages (pages : list Z) (activeWorkers : list nat)
    (s s' : store) :
  NoDup activeWorkers ->
  (forall w, ~ (1 <= w <= 20)%nat -> w ∉ activeWorkers ->
     General.pagesOf s w = []) ->
  Batch.distributePagesToWorkersWithList pages activeWorkers s = Some s' ->
  General.pendingPages s' = list_to_set_disj pages
  /\ (NoDup pages ->
      forall w1 w2 p, w1 <> w2 ->
        p ∈ General.pagesOf s' w1 -> p ∉ General.pagesOf s' w2).
Proof.
  intros Hnd Hstray Hs.
  pose proof (distribute_pending pages activeWorkers s s' Hnd Hstray Hs) as Hp.
  split; [done|]. intros Hpages. by eapply pending_disjoint.
Qed.

Lemma distribute_conserves_pages_witness :
  exists s',
    Batch.distributePagesToWorkersWithList [11; 12; 13; 14; 15] [3; 7]%nat
      Scenario.halfBusy = Some s'
    /\ General.pendingPages s' = list_to_set_disj [11; 12; 13; 14; 15].
Proof.
  eexists. split; [reflexivity|].
  eapply (distribute_conserves_pages [11; 12; 13; 14; 15] [3; 7]%nat
            Scenario.halfBusy).
  - compute_done.
  - intros w Hw _. unfold General.pagesOf, Scenario.halfBusy, set.
    rewrite !lookup_insert_ne by (intros [= <-]; lia). done.
  - reflexivity.
Defined.

(** X3.  The batch is dealt evenly: the lists of two workers of the list
    differ in length by at most one, and a worker never gets more pages
    than a worker before it in the list. *)
Theorem distribute_balanced (pages : list Z) (activeWorkers : list nat)
    (s s' : store) (i1 i2 w1 w2 : nat) :
  NoDup activeWorkers ->
  Batch.distributePagesToWorkersWithList pages activeWorkers s = Some s' ->
  activeWorkers !! i1 = Some w1 -> activeWorkers !! i2 = Some w2 ->
  (length (General.pagesOf s' w1) <= length (General.pagesOf s' w2) + 1)%nat
  /\ ((i1 <= i2)%nat ->
      (length (General.pagesOf s' w2) <= length (General.pagesOf s' w1))%nat).
Proof.
  intros Hnd Hs H1 H2.
  destruct (distribute_lists pages activeWorkers s s' Hnd Hs i1 w1 H1)
    as (l1 & E1 & Hl1).
  destruct (distribute_lists pages activeWorkers s s' Hnd Hs i2 w2 H2)
    as (l2 & E2 & Hl2).
  unfold General.pagesOf. rewrite E1, E2.
  apply lookup_lt_Some in H1, H2.
  set (n := length activeWorkers) in *.
  split.
  - destruct (decide (length l1 <= length l2 + 1)%nat) as [|Hgt]; [done|].
    exfalso.
    destruct (lookup_lt_is_Some_2 l1 (length l2 + 1)%nat ltac:(lia))
      as [x Hx].
    rewrite Hl1 in Hx. apply lookup_lt_Some in Hx.
    pose proof (Hl2 (length l2)) as Hend.
    rewrite lookup_ge_None_2 in Hend by lia.
    symmetry in Hend. apply lookup_ge_None_1 in Hend. nia.
  - intros Hle.
    destruct (decide (length l2 <= length l1)%nat) as [|Hgt]; [done|].
    exfalso.
    destruct (lookup_lt_is_Some_2 l2 (length l1) ltac:(lia)) as [x Hx].
    rewrite Hl2 in Hx. apply lookup_lt_Some in Hx.
    pose proof (Hl1 (length l1)) as Hend.
    rewrite lookup_ge_None_2 in Hend by lia.
    symmetry in Hend. apply lookup_ge_None_1 in Hend. nia.
Qed.

Lemma distribute_balanced_witness :
  exists s',
    Batch.distributePagesToWorkersWithList [11; 12; 13; 14; 15] [3; 7]%nat ∅
    = Some s'
    /\ (length (General.pagesOf s' 3) <= length (General.pagesOf s' 7) + 1)%nat.
Proof.
  eexists. split; [reflexivity|].
  eapply (distribute_balanced [11; 12; 13; 14; 15] [3; 7]%nat ∅ _ 0 1 3 7);
    [compute_done|reflexivity|reflexivity|reflexivity].
Defined.

(** X4.  With no live product worker and no configured worker count,
    [distributePagesToWorkers] does not raise: it hands the whole batch, in
    its order, to worker 1 and clears the lists of the workers 2..20. *)
Theorem distribute_without_live_worker (pages : list Z) (now : Z) (s : store) :
  General.detectActiveWorkers now s = [] ->
  exists s', Batch.distributePagesToWorkers None pages now s = Some s'
    /\ s' !! REDIS_KEY_WORKER_PAGES 1 = Some (VPages pages)
    /\ forall w, (2 <= w <= 20)%nat -> s' !! REDIS_KEY_WORKER_PAGES w = None.
Proof.
  intros Hnone. unfold Batch.distributePagesToWorkers. rewrite Hnone. simpl.
  change (Batch.fallbackActiveWorkers None) with [1%nat].
  destruct (Batch.distributePagesToWorkersWithList pages [1%nat] s)
    as [s'|] eqn:Hs; [|done].
  assert (Hnd : NoDup [1%nat]) by compute_done.
  exists s'. split; [done|]. split.
  - destruct (distribute_lists pages [1%nat] s s' Hnd Hs 0 1%nat eq_refl)
      as (l & -> & Hl).
    do 2 f_equal. apply list_eq. intros j. rewrite Hl. simpl.
    f_equal. lia.
  - intros w Hw.
    destruct (distribute_store pages [1%nat] s s' Hnd Hs)
      as (_ & _ & _ & Hclear & _).
    apply Hclear; [lia|]. intros Hin%list_elem_of_singleton. lia.
Qed.

Lemma distribute_without_live_worker_witness :
  exists s', Batch.distributePagesToWorkers None [4; 5; 6] 0 ∅ = Some s'
    /\ s' !! REDIS_KEY_WORKER_PAGES 1 = Some (VPages [4; 5; 6])
    /\ forall w, (2 <= w <= 20)%nat -> s' !! REDIS_KEY_WORKER_PAGES w = None.
Proof. apply (distribute_without_live_worker [4; 5; 6] 0 ∅). reflexivity. Defined.

(** X5.  After a batch without a repeated page is handed out, any number of
    rebalance steps, each over a list of different workers, keeps the
    pending pages equal to the batch and every page with one worker only. *)
Theorem distribute_then_rebalance (pages : list Z) (activeWorkers : list nat)
    (s s' : store) (steps : list (list nat)) :
  NoDup activeWorkers -> NoDup pages ->
  (forall w, ~ (1 <= w <= 20)%nat -> w ∉ activeWorkers ->
     General.pagesOf s w = []) ->
  Batch.distributePagesToWorkersWithList pages activeWorkers s = Some s' ->
  Forall NoDup steps ->
  let s'' :=
    foldl (fun s ws => General.reassignPagesFromIdleWorkers ws s) s' steps in
  General.pendingPages s'' = list_to_set_disj pages
  /\ forall w1 w2 p, w1 <> w2 ->
       p ∈ General.pagesOf s'' w1 -> p ∉ General.pagesOf s'' w2.
Proof.
  intros Hnd Hpages Hstray Hs Hsteps s''.
  assert (General.pendingPages s'' = list_to_set_disj pages) as Hp.
  { subst s''.
    rewrite <- (distribute_pending pages activeWorkers s s' Hnd Hstray Hs).
    clear Hs. revert s'.
    induction Hsteps as [|ws steps Hws _ IH]; intros s'; simpl; [done|].
    rewrite IH. by apply reassignPages_pending. }
  split; [done|]. by eapply pending_disjoint.
Qed.

Lemma distribute_then_rebalance_witness :
  exists s',
    Batch.distributePagesToWorkersWithList [11; 12; 13; 14; 15] [3; 7]%nat ∅
    = Some s'
    /\ General.pendingPages
         (foldl (fun s ws => General.reassignPagesFromIdleWorkers ws s) s'
            [[3; 7]; [3; 7; 9]]%nat)
       = list_to_set_disj [11; 12; 13; 14; 15].
Proof.
  eexists. split; [reflexivity|].
  eapply (distribute_then_rebalance [11; 12; 13; 14; 15] [3; 7]%nat ∅ _
            [[3; 7]; [3; 7; 9]]%nat).
  - compute_done.
  - compute_done.
  - intros w _ _. reflexivity.
  - reflexivity.
  - repeat constructor; compute_done.
Defined.


(** ** Waiting for the batch *)

Section wait.
Implicit Types (s : store) (ws : list nat) (k : key).

(** The rebalance step writes page lists only. *)
Lemma reassign_frame ws s k :
  (forall w, k <> REDIS_KEY_WORKER_PAGES w) ->
  General.reassignPagesFromIdleWorkers ws s !! k = s !! k.
Proof.
  intros Hk.
  destruct (reassign_cases ws s)
    as [->|(source & busy & idle & pages & _ & _ & _ & _ & ->)]; [done|].
  cbv zeta. rewrite giveToIdle_other by (intros; apply Hk).
  unfold set. by rewrite lookup_insert_ne.
Qed.

Lemma allComplete_true s ws :
  Batch.allComplete s ws = Some true ->
  forall w, w ∈ ws -> General.pagesOf s w = [].
Proof.
  induction ws as [|w0 ws IH]; simpl; intros Hall w Hw.
  - by apply elem_of_nil in Hw.
  - unfold General.pagesOf in *.
    apply elem_of_cons in Hw as [->|Hw].
    + destruct (s !! REDIS_KEY_WORKER_PAGES w0) as [[| |[|]]|]; done.
    + apply IH; [|done].
      destruct (s !! REDIS_KEY_WORKER_PAGES w0) as [[t| |[|]]|]; simpl in *;
        try done.
      by destruct (JS.truthy t).
Qed.

Lemma allComplete_false s ws :
  Batch.allComplete s ws = Some false ->
  exists w, w ∈ ws /\ General.pagesOf s w <> [].
Proof.
  induction ws as [|w0 ws IH]; simpl; [done|]. intros Hall.
  destruct (General.pagesOf s w0) as [|p l] eqn:Hp.
  - destruct IH as (w & Hw & Hne).
    + unfold General.pagesOf in Hp.
      destruct (s !! REDIS_KEY_WORKER_PAGES w0) as [[t| |[|]]|]; simpl in *;
        try done.
      by destruct (JS.truthy t).
    + exists w. split; [by right|done].
  - exists w0. split; [by left|]. by rewrite Hp.
Qed.

(** One round of the wait. *)
Lemma pollBatch_cases now s :
  let activeWorkers := General.detectActiveWorkers now s in
  match Batch.pollBatch now s with
  | Batch.Complete s' =>
      s' = set REDIS_KEY_BATCH_COMPLETE (VStr "1") s
      /\ activeWorkers <> []
      /\ forall w, w ∈ activeWorkers -> General.pagesOf s w = []
  | Batch.Waiting s' =>
      General.pendingPages s' = General.pendingPages s
      /\ (forall k, (forall w, k <> REDIS_KEY_WORKER_PAGES w) ->
            s' !! k = s !! k)
      /\ (activeWorkers = []
          \/ exists w, w ∈ activeWorkers /\ General.pagesOf s w <> [])
  | Batch.Raised => True
  end.
Proof.
  intros ws. unfold Batch.pollBatch. fold ws.
  case_bool_decide as Hlen.
  - split; [done|]. split; [done|]. left. by destruct ws.
  - destruct (Batch.allComplete s ws) as [[|]|] eqn:Hall; [| |done].
    + split; [done|]. split; [by destruct ws|]. by apply allComplete_true.
    + destruct (General.classify s ws); [|done].
      split; [apply reassignPages_pending, detectActive_NoDup|].
      split; [intros; by apply reassign_frame|].
      right. by apply allComplete_false.
Qed.
End wait.

(** X6.  [waitForBatchCompletion] declares the batch complete only when, at
    its last look, some product worker is live and no live product worker
    holds a page; until then its rounds move pages between the lists without
    dropping or copying one, and write no other key. *)
Theorem wait_completes_when_drained (clock : list Z) (s s' : store) :
  Batch.waitForBatchCompletion clock s = Some (Batch.Complete s') ->
  exists now s0,
    now ∈ clock
    /\ s' = set REDIS_KEY_BATCH_COMPLETE (VStr "1") s0
    /\ General.pendingPages s0 = General.pendingPages s
    /\ (forall k, (forall w, k <> REDIS_KEY_WORKER_PAGES w) ->
          s0 !! k = s !! k)
    /\ General.detectActiveWorkers now s0 <> []
    /\ forall w, w ∈ General.detectActiveWorkers now s0 ->
         General.pagesOf s' w = [].
Proof.
  revert s. induction clock as [|now clock IH]; intros s; simpl; [done|].
  pose proof (pollBatch_cases now s) as Hpoll. cbv zeta in Hpoll.
  destruct (Batch.pollBatch now s) as [s1|s1|]; [| |done].
  - intros [= <-]. destruct Hpoll as (-> & Hlive & Hnone).
    exists now, s. split; [by left|]. repeat split; try done.
    intros w Hw. rewrite <- (Hnone w Hw).
    unfold General.pagesOf, set. by rewrite lookup_insert_ne.
  - intros Hrest. destruct Hpoll as (Hp & Hframe & _).
    destruct (IH s1 Hrest) as (now' & s0 & Hin & -> & Hp0 & Hf0 & Hlive & Hnone).
    exists now', s0. split; [by right|]. split; [done|].
    split; [congruence|]. split; [|done].
    intros k Hk. by rewrite Hf0, Hframe.
Qed.

(** Worker 1 holds three pages and worker 2 none, both with a heartbeat at
    1000; worker 3, with a heartbeat at 50000, has no list.  The round at
    2000 finds worker 1 busy and waits: it moves page 3 to worker 2.  At
    61000 only worker 3 is live, and the wait ends with the pages 1, 2 and
    3 still pending. *)
Lemma wait_completes_when_drained_witness :
  let s := set (REDIS_KEY_WORKER_HEARTBEAT 1) (VStr "1000")
             (set (REDIS_KEY_WORKER_HEARTBEAT 2) (VStr "1000")
                (set (REDIS_KEY_WORKER_HEARTBEAT 3) (VStr "50000")
                   Scenario.halfBusy)) in
  Batch.pollBatch 2000 s
  = Batch.Waiting (General.reassignPagesFromIdleWorkers [1; 2; 3]%nat s)
  /\ exists s',
       Batch.waitForBatchCompletion [2000; 61000] s
       = Some (Batch.Complete s')
       /\ General.pagesOf s' 1 = [1; 2] /\ General.pagesOf s' 2 = [3]
       /\ exists now s0,
            now ∈ [2000; 61000]
            /\ s' = set REDIS_KEY_BATCH_COMPLETE (VStr "1") s0
            /\ General.pendingPages s0 = General.pendingPages s
            /\ (forall k, (forall w, k <> REDIS_KEY_WORKER_PAGES w) ->
                  s0 !! k = s !! k)
            /\ General.detectActiveWorkers now s0 <> []
            /\ forall w, w ∈ General.detectActiveWorkers now s0 ->
                 General.pagesOf s' w = [].
Proof.
  intros s. split; [vm_compute; reflexivity|].
  eexists. split; [vm_compute; reflexivity|].
  split; [vm_compute; reflexivity|]. split; [vm_compute; reflexivity|].
  apply (wait_completes_when_drained [2000; 61000] s).
  vm_compute. reflexivity.
Defined.

Lemma allComplete_drained (s : store) (ws : list nat) :
  (forall w, w ∈ ws ->
     s !! REDIS_KEY_WORKER_PAGES w = None
     \/ s !! REDIS_KEY_WORKER_PAGES w = Some (VPages [])) ->
  Batch.allComplete s ws = Some true.
Proof.
  induction ws as [|w ws IH]; intros Hws; simpl; [done|].
  destruct (Hws w) as [->| ->]; [by left| |]; simpl;
    apply IH; intros; apply Hws; by right.
Qed.

(** A round of the wait when every live worker is drained. *)
Lemma pollBatch_drained (now : Z) (s : store) :
  General.detectActiveWorkers now s <> [] ->
  (forall w, w ∈ General.detectActiveWorkers now s ->
     s !! REDIS_KEY_WORKER_PAGES w = None
     \/ s !! REDIS_KEY_WORKER_PAGES w = Some (VPages [])) ->
  Batch.pollBatch now s
  = Batch.Complete (set REDIS_KEY_BATCH_COMPLETE (VStr "1") s).
Proof.
  intros Hlive Hdrained. unfold Batch.pollBatch.
  rewrite bool_decide_eq_false_2
    by (by destruct (General.detectActiveWorkers now s)).
  by rewrite allComplete_drained.
Qed.

(** X7.  Only the live product workers keep a batch open: when some product
    worker is live and every live one has no list or an empty list, a round
    of the wait sets the completion flag and writes nothing else, whatever
    the lists of the workers without a fresh heartbeat hold. *)
Theorem poll_ignores_silent_workers (now : Z) (s : store) :
  General.detectActiveWorkers now s <> [] ->
  (forall w, w ∈ General.detectActiveWorkers now s ->
     s !! REDIS_KEY_WORKER_PAGES w = None
     \/ s !! REDIS_KEY_WORKER_PAGES w = Some (VPages [])) ->
  Batch.pollBatch now s
  = Batch.Complete (set REDIS_KEY_BATCH_COMPLETE (VStr "1") s).
Proof. apply pollBatch_drained. Qed.

(** Worker 2 holds page 9 and has been silent for more than a minute: the
    batch is complete as soon as worker 1 is done. *)
Lemma poll_ignores_silent_workers_witness :
  let s := set (REDIS_KEY_WORKER_HEARTBEAT 1) (VStr "100000")
             (set (REDIS_KEY_WORKER_HEARTBEAT 2) (VStr "1000")
                (set (REDIS_KEY_WORKER_PAGES 2) (VPages [9]) ∅)) in
  General.pagesOf s 2 = [9]
  /\ Batch.pollBatch 101000 s
     = Batch.Complete (set REDIS_KEY_BATCH_COMPLETE (VStr "1") s).
Proof.
  intros s. split; [reflexivity|].
  apply (poll_ignores_silent_workers 101000 s).
  - vm_compute. discriminate.
  - intros w Hw. change (General.detectActiveWorkers 101000 s) with [1%nat] in Hw.
    apply list_elem_of_singleton in Hw as ->. left. reflexivity.
Defined.


(** ** The order of the work loop *)

Section textOrder.

Lemma string_compare_trans (s1 : string) : forall s2 s3,
  String.compare s1 s2 <> Gt -> String.compare s2 s3 <> Gt ->
  String.compare s1 s3 <> Gt.
Proof.
  induction s1 as [|a s1 IH]; intros [|b s2] [|c s3]; simpl; try done.
  unfold Ascii.compare.
  destruct (N.compare_spec (Ascii.N_of_ascii a) (Ascii.N_of_ascii b)) as [Hab|Hab|Hab];
    destruct (N.compare_spec (Ascii.N_of_ascii b) (Ascii.N_of_ascii c)) as [Hbc|Hbc|Hbc];
    destruct (N.compare_spec (Ascii.N_of_ascii a) (Ascii.N_of_ascii c)) as [Hac|Hac|Hac];
    try done; try lia.
  apply IH.
Qed.

Lemma toString_inj a b : JS.toString a = JS.toString b -> a = b.
Proof.
  unfold JS.toString. intros H.
  apply DecimalZ.to_int_inj.
  assert (Some (Z.to_int a) = Some (Z.to_int b)) as [= ?]; [|done].
  by rewrite <- !NilEmpty.isi, H.
Qed.

#[local] Instance textLe_trans : Transitive Product.textLe.
Proof.
  intros a b c. unfold Product.textLe, String.leb. intros Hab Hbc.
  pose proof (string_compare_trans (JS.toString a) (JS.toString b)
                (JS.toString c)) as Ht.
  destruct (String.compare (JS.toString a) (JS.toString b)) eqn:E1;
    destruct (String.compare (JS.toString b) (JS.toString c)) eqn:E2;
    try done;
    destruct (String.compare (JS.toString a) (JS.toString c)); try done;
    exfalso; by apply Ht.
Qed.

#[local] Instance textLe_antisym : AntiSymm (=) Product.textLe.
Proof.
  intros a b Hab Hba. apply toString_inj. by apply String.leb_antisym.
Qed.

#[local] Instance textLe_total : Total Product.textLe.
Proof. intros a b. apply String.leb_total. Qed.

Lemma sort_Sorted l : Sorted Product.textLe (Product.sort l).
Proof. apply Sorted_merge_sort. apply _. Qed.

Lemma sort_Permutation l : Product.sort l ≡ₚ l.
Proof. apply merge_sort_Permutation. Qed.

(** Sorting a sorted list changes nothing. *)
Lemma sort_sorted l : Sorted Product.textLe l -> Product.sort l = l.
Proof.
  intros Hl. apply (Sorted_unique Product.textLe); [apply sort_Sorted|done|].
  apply sort_Permutation.
Qed.

Lemma sort_tail p l l' : Product.sort l = p :: l' -> Product.sort l' = l'.
Proof.
  intros Hs. apply sort_sorted.
  pose proof (sort_Sorted l) as Hl. rewrite Hs in Hl. by inversion Hl.
Qed.
End textOrder.

Section drain.
Context (b : browser) (workerId : nat) (tab : Z -> list ProductRecord).

Lemma refreshPages_same pagesToProcess :
  Product.refreshPages (Some (VPages pagesToProcess)) pagesToProcess
  = Some (Product.sort pagesToProcess).
Proof.
  unfold Product.refreshPages. simpl.
  rewrite bool_decide_eq_false_2 by (intros H; by apply H).
  by case_bool_decide.
Qed.

(** With the tab of every listed page open, the work loop takes the pages
    in text order and ends with the list drained. *)
Lemma crawlLoop_drains : forall n pagesToProcess w fuel,
  length pagesToProcess = n -> (n <= fuel)%nat ->
  redis w !! REDIS_KEY_WORKER_PAGES workerId = Some (VPages pagesToProcess) ->
  (forall p, p ∈ pagesToProcess -> findTabByPageNumber b p = Some (tab p)) ->
  Product.crawlLoop fuel b workerId w pagesToProcess
  = Some (Product.Drained
      {| redis := set (REDIS_KEY_WORKER_PAGES workerId) (VPages []) (redis w);
         db := foldl (fun d pageNum => Product.storePage pageNum (tab pageNum) d)
                 (db w) (Product.sort pagesToProcess) |}).
Proof.
  induction n as [|n IH]; intros pagesToProcess w fuel Hlen Hfuel Hlist Htabs.
  - destruct pagesToProcess; [|done].
    change (Product.sort []) with (@nil Z).
    destruct w as [r d]. simpl in *.
    unfold set. rewrite insert_id by done. by destruct fuel.
  - destruct fuel as [|fuel]; [lia|].
    destruct pagesToProcess as [|p0 l0] eqn:El; [done|]. rewrite <- El in *.
    assert (Product.crawlLoop (S fuel) b workerId w pagesToProcess
            = match Product.crawlRound b workerId w pagesToProcess with
              | Product.Next w' pagesToProcess' =>
                  Product.crawlLoop fuel b workerId w' pagesToProcess'
              | o => Some o
              end) as -> by (by rewrite El).
    pose proof (sort_Permutation pagesToProcess) as Hperm.
    destruct (Product.sort pagesToProcess) as [|pageNum rest] eqn:Hsort.
    { apply Permutation_nil_l in Hperm. by rewrite El in Hperm. }
    assert (Hin : forall p, p ∈ pageNum :: rest -> p ∈ pagesToProcess)
      by (intros p; by rewrite Hperm).
    rewrite (crawlRound_found b workerId w pagesToProcess pageNum rest
               (tab pageNum)).
    + rewrite (IH rest); simpl.
      * unfold set. rewrite insert_insert_eq.
        by rewrite (sort_tail pageNum pagesToProcess rest Hsort).
      * apply Permutation_length in Hperm. simpl in Hperm. lia.
      * lia.
      * unfold set. by rewrite lookup_insert_eq.
      * intros p Hp. apply Htabs, Hin. by right.
    + by rewrite Hlist, refreshPages_same, Hsort.
    + apply Htabs, Hin. by left.
Qed.
End drain.

(** The run of [crawlAllPages] when every tab is found. *)
Lemma crawlAllPages_drains (fuel : nat) (b : browser) (workerId : nat)
    (w : world) (tab : Z -> list ProductRecord) (totalPages : Z)
    (pages : list Z) :
  redis w !! REDIS_KEY_TOTAL_PAGES ≫= parseValue = Some totalPages ->
  0 < totalPages ->
  redis w !! REDIS_KEY_WORKER_PAGES workerId = Some (VPages pages) ->
  pages <> [] ->
  hasContext b = true ->
  (forall p, p ∈ pages -> findTabByPageNumber b p = Some (tab p)) ->
  (length pages <= fuel)%nat ->
  Product.crawlAllPages fuel b workerId w
  = Some {| redis := set (REDIS_KEY_WORKER_COMPLETE workerId) (VStr "1")
                       (set (REDIS_KEY_WORKER_PAGES workerId) (VPages [])
                          (redis w));
            db := foldl (fun d pageNum =>
                           Product.storePage pageNum (tab pageNum) d)
                    (db w) (Product.sort pages) |}.
Proof.
  intros Htotal Hpos Hlist Hne Hctx Htabs Hfuel.
  unfold Product.crawlAllPages.
  assert (truthy (redis w !! REDIS_KEY_TOTAL_PAGES) = true) as ->.
  { destruct (redis w !! REDIS_KEY_TOTAL_PAGES) as [[t| |]|]; try done.
    simpl in *. by eapply parseInt_truthy. }
  simpl. rewrite Htotal.
  destruct (totalPages <=? 0) eqn:E; [lia|].
  rewrite Hlist. simpl.
  rewrite bool_decide_eq_false_2 by (by destruct pages).
  rewrite Hctx. simpl.
  by rewrite (crawlLoop_drains b workerId tab (length pages) pages w fuel).
Qed.

(** X8.  When the tab of every assigned page is open, [crawlAllPages] ends
    within as many rounds as there are pages: it stores the pages one by one
    in the order of their decimal texts (10 before 2), leaves the worker's
    list empty and sets the worker's completion flag; it writes no other
    key. *)
Theorem crawl_drains_in_text_order (fuel : nat) (b : browser) (workerId : nat)
    (w : world) (tab : Z -> list ProductRecord) (totalPages : Z)
    (pages : list Z) :
  redis w !! REDIS_KEY_TOTAL_PAGES ≫= parseValue = Some totalPages ->
  0 < totalPages ->
  redis w !! REDIS_KEY_WORKER_PAGES workerId = Some (VPages pages) ->
  pages <> [] ->
  hasContext b = true ->
  (forall p, p ∈ pages -> findTabByPageNumber b p = Some (tab p)) ->
  (length pages <= fuel)%nat ->
  Product.crawlAllPages fuel b workerId w
  = Some {| redis := set (REDIS_KEY_WORKER_COMPLETE workerId) (VStr "1")
                       (set (REDIS_KEY_WORKER_PAGES workerId) (VPages [])
                          (redis w));
            db := foldl (fun d pageNum =>
                           Product.storePage pageNum (tab pageNum) d)
                    (db w) (Product.sort pages) |}.
Proof. apply crawlAllPages_drains. Qed.

Lemma crawl_drains_in_text_order_witness :
  let b := {| hasContext := true; findTabByPageNumber := fun _ => Some [] |} in
  let w := {| redis := set (REDIS_KEY_WORKER_PAGES 1) (VPages [2; 10])
                         (set REDIS_KEY_TOTAL_PAGES (VStr "10") ∅);
              db := Scenario.emptyDb |} in
  Product.crawlAllPages 2 b 1 w
  = Some {| redis := set (REDIS_KEY_WORKER_COMPLETE 1) (VStr "1")
                       (set (REDIS_KEY_WORKER_PAGES 1) (VPages []) (redis w));
            db := foldl (fun d pageNum => Product.storePage pageNum [] d)
                    (db w) (Product.sort [2; 10]) |}
  /\ Product.sort [2; 10] = [10; 2].
Proof.
  intros b w. split; [|reflexivity].
  apply (crawl_drains_in_text_order 2 b 1 w (fun _ => []) 10 [2; 10]);
    try reflexivity; try done; try lia.
Defined.


(** ** The record table after a page is stored *)

Section table.
Implicit Types (d : database) (ps : list ProductRecord) (a : string)
  (m : gmap string ProductRecord).

(** Under the identifier of a record of the list, the row after the upserts
    does not depend on the table before. *)
Lemma upserts_same ps : forall m m' a,
  a ∈ asin <$> ps ->
  foldl (fun m p => <[asin p := p]> m) m ps !! a
  = foldl (fun m p => <[asin p := p]> m) m' ps !! a.
Proof.
  induction ps as [|p ps IH]; intros m m' a Ha; simpl.
  - by apply elem_of_nil in Ha.
  - destruct (decide (a ∈ asin <$> ps)) as [Hin|Hout]; [by apply IH|].
    rewrite fmap_cons in Ha. apply elem_of_cons in Ha as [->|Ha]; [|done].
    rewrite !upserts_out by done. by rewrite !lookup_insert_eq.
Qed.

Lemma elem_of_getProductsByPage page d r :
  r ∈ Db.getProductsByPage page d
  <-> pageNumber r = page /\ exists a, products d !! a = Some r.
Proof.
  unfold Db.getProductsByPage.
  rewrite list_elem_of_In, filter_In, <- list_elem_of_In, bool_decide_eq_true.
  rewrite list_elem_of_fmap. split.
  - intros [([a r'] & -> & Hin) Hp]. apply elem_of_map_to_list in Hin.
    split; [done|]. by exists a.
  - intros [Hp (a & Ha)]. split; [|done].
    exists (a, r). split; [done|]. by apply elem_of_map_to_list.
Qed.

(** The identifiers stored for a page, in a table whose rows sit under
    their own identifier. *)
Lemma asins_of_page page d a :
  (forall a r, products d !! a = Some r -> asin r = a) ->
  a ∈ (list_to_set (asin <$> Db.getProductsByPage page d) : gset string)
  <-> exists r, products d !! a = Some r /\ pageNumber r = page.
Proof.
  intros Hkey. rewrite elem_of_list_to_set, list_elem_of_fmap. split.
  - intros (r & -> & Hr). apply elem_of_getProductsByPage in Hr
      as [Hp (a & Ha)].
    exists r. split; [|done]. by rewrite (Hkey a r Ha).
  - intros (r & Hr & Hp). exists r. split; [by rewrite (Hkey a r Hr)|].
    apply elem_of_getProductsByPage. split; [done|]. by exists a.
Qed.

(** The rows after [storePage]: the records of the page under their
    identifiers, and under the other identifiers the old rows, without the
    old rows of the page when the identifiers changed. *)
Lemma storePage_lookup pageNum ps d a :
  (forall a r, products d !! a = Some r -> asin r = a) ->
  let d' := Product.storePage pageNum ps d in
  (a ∈ asin <$> ps ->
     exists p, p ∈ ps /\ asin p = a /\ products d' !! a = Some p)
  /\ (a ∉ asin <$> ps ->
      forall r, products d' !! a = Some r ->
        products d !! a = Some r /\ pageNumber r <> pageNum).
Proof.
  intros Hkey d'. subst d'. unfold Product.storePage.
  rewrite storeProducts_products. split.
  - apply upserts_in.
  - intros Hout r. rewrite upserts_out by done.
    destruct (Product.asinsChanged (Db.getProductsByPage pageNum d) ps) eqn:E.
    + simpl. rewrite map_lookup_filter_Some. simpl. tauto.
    + intros Hr. split; [done|]. intros Hp.
      apply not_true_iff_false in E. rewrite asinsChanged_spec in E.
      apply dec_stable in E.
      apply Hout. apply (elem_of_list_to_set (C := gset string)).
      rewrite <- E. apply asins_of_page; [done|]. by exists r.
Qed.
Lemma storePage_keys pageNum ps d :
  (forall a r, products d !! a = Some r -> asin r = a) ->
  forall a r, products (Product.storePage pageNum ps d) !! a = Some r ->
    asin r = a.
Proof.
  intros Hkey a r Hr.
  destruct (storePage_lookup pageNum ps d a Hkey) as [Hin Hout].
  destruct (decide (a ∈ asin <$> ps)) as [Ha|Ha].
  - destruct (Hin Ha) as (p & _ & Hasin & Hl). congruence.
  - destruct (Hout Ha r Hr) as [Hold _]. by apply Hkey.
Qed.

Lemma storePage_asins pageNum ps d :
  (forall a r, products d !! a = Some r -> asin r = a) ->
  (forall p, p ∈ ps -> pageNumber p = pageNum) ->
  (list_to_set
     (asin <$> Db.getProductsByPage pageNum (Product.storePage pageNum ps d))
   : gset string)
  = list_to_set (asin <$> ps).
Proof.
  intros Hkey Hpage. apply set_eq. intros a.
  rewrite (asins_of_page pageNum _ a (storePage_keys pageNum ps d Hkey)).
  destruct (storePage_lookup pageNum ps d a Hkey) as [Hin Hout].
  rewrite elem_of_list_to_set. split.
  - intros (r & Hr & Hp).
    destruct (decide (a ∈ asin <$> ps)) as [Ha|Ha]; [done|].
    by destruct (Hout Ha r Hr).
  - intros Ha. destruct (Hin Ha) as (p & Hp & _ & Hl).
    exists p. split; [done|]. by apply Hpage.
Qed.
End table.

(** X9.  After the records of a page are stored, the identifiers that the
    table holds for the page are those of the records (every record carrying
    the number of the page, as the extraction writes it), each row sits
    under its own identifier as before, and the rows of the other pages
    are as they were unless a record of the page has taken their
    identifier. *)
Theorem storePage_replaces_page (pageNum : Z) (newProducts : list ProductRecord)
    (d : database) :
  (forall a r, products d !! a = Some r -> asin r = a) ->
  (forall p, p ∈ newProducts -> pageNumber p = pageNum) ->
  let d' := Product.storePage pageNum newProducts d in
  (list_to_set (asin <$> Db.getProductsByPage pageNum d') : gset string)
  = list_to_set (asin <$> newProducts)
  /\ (forall a r, products d' !! a = Some r -> asin r = a)
  /\ (forall a r, a ∉ asin <$> newProducts -> pageNumber r <> pageNum ->
        (products d' !! a = Some r <-> products d !! a = Some r)).
Proof.
  intros Hkey Hpage d'.
  split; [by apply storePage_asins|]. split; [by apply storePage_keys|].
  intros a r Ha Hr.
  destruct (storePage_lookup pageNum newProducts d a Hkey) as [_ Hout].
  fold d' in Hout. split; [intros H; by apply (Hout Ha r H)|].
  intros Hold. subst d'. unfold Product.storePage.
  rewrite storeProducts_products, upserts_out by done.
  destruct (Product.asinsChanged _ _); [|done].
  simpl. by rewrite map_lookup_filter_Some.
Qed.

Lemma storePage_replaces_page_witness :
  let A := {| asin := "A"; url := "u"; title := "t"; pageNumber := 3 |} in
  let C := {| asin := "C"; url := "v"; title := "t"; pageNumber := 3 |} in
  let d := Product.storePage 3 [A] Scenario.emptyDb in
  (list_to_set (asin <$> Db.getProductsByPage 3 (Product.storePage 3 [C] d))
   : gset string)
  = list_to_set (asin <$> [C]).
Proof.
  intros A C d.
  apply (storePage_replaces_page 3 [C] d).
  - apply storePage_keys. intros a r. simpl. by rewrite lookup_empty.
  - intros p ->%list_elem_of_singleton. reflexivity.
Defined.

(** X10.  Storing the same records of a page a second time deletes
    nothing and leaves the record columns of every row, identifier, address,
    title and page number, as they were: the second run issues no deletion,
    only the upsert and the success event of every record again.  (Each of
    these upserts renews the update stamp of its row, which is not a record
    column.) *)
Theorem storePage_twice (pageNum : Z) (newProducts : list ProductRecord)
    (d : database) :
  (forall a r, products d !! a = Some r -> asin r = a) ->
  (forall p, p ∈ newProducts -> pageNumber p = pageNum) ->
  let d1 := Product.storePage pageNum newProducts d in
  let d2 := Product.storePage pageNum newProducts d1 in
  let columns (r : ProductRecord) := (asin r, url r, title r, pageNumber r) in
  (forall a, columns <$> products d2 !! a = columns <$> products d1 !! a)
  /\ (forall a, is_Some (products d2 !! a) <-> is_Some (products d1 !! a))
  /\ journal d2 = journal d1 ++ flat_map Product.stored newProducts
  /\ OpDeleteByPage pageNum ∉ flat_map Product.stored newProducts.
Proof.
  intros Hkey Hpage d1 d2 columns.
  assert (Product.asinsChanged (Db.getProductsByPage pageNum d1) newProducts
          = false) as Hsame.
  { apply not_true_iff_false. rewrite asinsChanged_spec.
    intros Hne. apply Hne. by apply storePage_asins. }
  assert (Hrows : forall a, products d2 !! a = products d1 !! a).
  { intros a. subst d2. unfold Product.storePage at 1. rewrite Hsame.
    rewrite storeProducts_products.
    destruct (decide (a ∈ asin <$> newProducts)) as [Ha|Ha].
    - subst d1. unfold Product.storePage.
      rewrite storeProducts_products. by apply upserts_same.
    - by rewrite upserts_out. }
  split; [intros a; by rewrite Hrows|].
  split; [intros a; by rewrite Hrows|]. split.
  - subst d2. unfold Product.storePage at 1. rewrite Hsame.
    apply storeProducts_journal.
  - intros Hin. apply list_elem_of_In, in_flat_map in Hin as (p & _ & Hp).
    simpl in Hp. destruct Hp as [Hp|[Hp|[]]]; discriminate.
Qed.

Lemma storePage_twice_witness :
  let A := {| asin := "A"; url := "u"; title := "t"; pageNumber := 3 |} in
  let d1 := Product.storePage 3 [A] Scenario.emptyDb in
  let d2 := Product.storePage 3 [A] d1 in
  journal d2 = journal d1 ++ flat_map Product.stored [A].
Proof.
  intros A.
  apply (storePage_twice 3 [A] Scenario.emptyDb).
  - intros a r. simpl. by rewrite lookup_empty.
  - intros p ->%list_elem_of_singleton. reflexivity.
Defined.

(** X11.  [deleteProductsByPageNumber] removes the rows of the page, all of
    them and no other: the page reads back empty, and every other page
    reads back the rows it had. *)
Theorem delete_page_round_trip (page : Z) (d : database) :
  Db.getProductsByPage page (Db.deleteProductsByPageNumber page d) = []
  /\ forall q r, q <> page ->
       (r ∈ Db.getProductsByPage q (Db.deleteProductsByPageNumber page d)
        <-> r ∈ Db.getProductsByPage q d).
Proof.
  split.
  - apply elem_of_nil_inv. intros r.
    rewrite elem_of_getProductsByPage. simpl.
    intros [Hp (a & Ha)]. apply map_lookup_filter_Some in Ha as [_ Hne].
    by apply Hne.
  - intros q r Hq. rewrite !elem_of_getProductsByPage. simpl.
    split; intros [Hp (a & Ha)]; (split; [done|]); exists a.
    + by apply map_lookup_filter_Some in Ha as [? _].
    + apply map_lookup_filter_Some. split; [done|]. simpl. congruence.
Qed.

(** X12.  An upsert lists the record under its page and under no other: in
    a table whose rows sit under their own identifier, the only row with
    the identifier of the record that any page reads back afterwards is the
    record itself. *)
Theorem upsert_moves_record (p : ProductRecord) (d : database) :
  (forall a r, products d !! a = Some r -> asin r = a) ->
  let d' := Db.upsertProduct p d in
  p ∈ Db.getProductsByPage (pageNumber p) d'
  /\ forall q r, r ∈ Db.getProductsByPage q d' -> asin r = asin p -> r = p.
Proof.
  intros Hkey d'. split.
  - apply elem_of_getProductsByPage. split; [done|].
    exists (asin p). apply lookup_insert_eq.
  - intros q r Hr Hasin. apply elem_of_getProductsByPage in Hr
      as [_ (a & Ha)].
    simpl in Ha. apply lookup_insert_Some in Ha as [[_ ->]|[Hne Ha]]; [done|].
    apply Hkey in Ha. congruence.
Qed.

Lemma upsert_moves_record_witness :
  let A3 := {| asin := "A"; url := "u"; title := "t"; pageNumber := 3 |} in
  let A4 := {| asin := "A"; url := "u"; title := "t"; pageNumber := 4 |} in
  let d' := Db.upsertProduct A4 (Db.upsertProduct A3 Scenario.emptyDb) in
  A4 ∈ Db.getProductsByPage 4 d'
  /\ forall q r, r ∈ Db.getProductsByPage q d' -> asin r = "A"%string -> r = A4.
Proof.
  intros A3 A4.
  apply (upsert_moves_record A4 (Db.upsertProduct A3 Scenario.emptyDb)).
  intros a r. simpl.
  rewrite lookup_insert_Some, lookup_empty. intros [[<- <-]|[_ [=]]]. done.
Defined.


(** ** Acquiring the start-up lock *)

Section acquire.
Import Lock.

Lemma setNX_held now v ttl c held :
  get now c = Some held -> setNX now v ttl c = (c, false).
Proof. unfold setNX. by intros ->. Qed.

Lemma setNX_free now v ttl c :
  get now c = None ->
  setNX now v ttl c
  = (Some {| lockValue := v; expiresAt := Some (now + ttl * 1000) |}, true).
Proof. unfold setNX. by intros ->. Qed.

Lemma recentLock_spec now v lockTime :
  JS.parseInt v = Some lockTime ->
  recentLock now (Some v) = bool_decide (now - lockTime < 30000).
Proof.
  intros Hp. unfold recentLock. rewrite (parseInt_truthy v lockTime Hp), Hp.
  simpl. destruct (Z.ltb_spec (now - lockTime) 30000);
    by rewrite ?bool_decide_eq_true_2, ?bool_decide_eq_false_2 by lia.
Qed.
End acquire.

(** X13.  A process that starts while the key holds a timestamp less than
    30 seconds old gives up after two commands, [SET NX] and [GET], and
    leaves the key as it found it. *)
Theorem acquire_refused_by_recent_lock (c : Lock.lock) (v : string)
    (lockTime t1 t2 : Z) :
  Lock.get t1 c = Some v -> Lock.get t2 c = Some v ->
  JS.parseInt v = Some lockTime -> t2 - lockTime < 30000 ->
  Acquire.run [t1; t2] c Acquire.Start = (c, Acquire.Duplicate).
Proof.
  intros H1 H2 Hp Hrecent. unfold Acquire.run. cbn [foldl fst snd].
  cbn [Acquire.step]. unfold Acquire.trySet.
  rewrite (setNX_held _ _ _ _ _ H1). cbn [Acquire.step fst snd].
  rewrite H2, (parseInt_truthy v lockTime Hp), (recentLock_spec _ _ _ Hp).
  by rewrite bool_decide_eq_true_2.
Qed.

Lemma acquire_refused_by_recent_lock_witness :
  let c := Some {| Lock.lockValue := "1000"; Lock.expiresAt := Some 61000 |} in
  Acquire.run [20000; 20001] c Acquire.Start = (c, Acquire.Duplicate).
Proof.
  intros c.
  apply (acquire_refused_by_recent_lock c "1000" 1000 20000 20001);
    [reflexivity|reflexivity|reflexivity|lia].
Defined.

(** X14.  A process that finds a timestamp of 30 seconds or more, or a text
    that is no number, takes the lock over in four commands, [SET NX],
    [GET], [GETSET] and [EXPIRE]: the key then holds its own timestamp and
    expires 60 seconds after the last command.  The holder of the old
    timestamp is not asked. *)
Theorem acquire_takes_over_stale_lock (c : Lock.lock) (v : string)
    (t1 t2 t3 t4 : Z) :
  Lock.get t1 c = Some v -> Lock.get t2 c = Some v -> Lock.get t3 c = Some v ->
  JS.truthy v = true -> Lock.recentLock t2 (Some v) = false ->
  Acquire.run [t1; t2; t3; t4] c Acquire.Start
  = (Some {| Lock.lockValue := JS.toString t1;
             Lock.expiresAt := Some (t4 + 60000) |},
     Acquire.Acquired (JS.toString t1)).
Proof.
  intros H1 H2 H3 Htruthy Hstale. unfold Acquire.run. cbn [foldl fst snd].
  cbn [Acquire.step]. unfold Acquire.trySet.
  rewrite (setNX_held _ _ _ _ _ H1). cbn [Acquire.step fst snd].
  rewrite H2, Htruthy, Hstale. cbn [Acquire.step fst snd].
  unfold Acquire.getset. rewrite H3.
  rewrite bool_decide_eq_true_2 by done. cbn [Acquire.step fst snd].
  unfold Acquire.expire. simpl. reflexivity.
Qed.

Lemma acquire_takes_over_stale_lock_witness :
  let c := Some {| Lock.lockValue := "1000"; Lock.expiresAt := Some 61000 |} in
  Acquire.run [40000; 40001; 40002; 40003] c Acquire.Start
  = (Some {| Lock.lockValue := "40000"; Lock.expiresAt := Some 100003 |},
     Acquire.Acquired "40000").
Proof.
  intros c.
  apply (acquire_takes_over_stale_lock c "1000" 40000 40001 40002 40003);
    reflexivity.
Defined.

(** X15.  When the key expires between the [GET] and the [GETSET] of a
    starting process, the process refuses itself although nobody else
    holds the lock: its [GETSET] has created the key, so its own [SET NX]
    fails, and whatever the clock says afterwards it ends as a duplicate,
    leaving its own timestamp in the key without an expiry time. *)
Theorem acquire_refuses_itself (c : Lock.lock) (v : string)
    (t1 t2 t3 t4 t5 t6 : Z) :
  Lock.get t1 c = Some v -> Lock.get t2 c = Some v -> Lock.get t3 c = None ->
  JS.truthy v = true -> Lock.recentLock t2 (Some v) = false ->
  Acquire.run [t1; t2; t3; t4; t5; t6] c Acquire.Start
  = (Some {| Lock.lockValue := JS.toString t1; Lock.expiresAt := None |},
     Acquire.Duplicate).
Proof.
  intros H1 H2 H3 Htruthy Hstale. unfold Acquire.run. cbn [foldl fst snd].
  cbn [Acquire.step]. unfold Acquire.trySet.
  rewrite (setNX_held _ _ _ _ _ H1). cbn [Acquire.step fst snd].
  rewrite H2, Htruthy, Hstale. cbn [Acquire.step fst snd].
  unfold Acquire.getset. rewrite H3. cbn [Acquire.step fst snd].
  unfold Acquire.trySet, Lock.setNX. cbn [Lock.get Acquire.step fst snd].
  destruct (Lock.recentLock t5 (Some (JS.toString t1))); reflexivity.
Qed.

Lemma acquire_refuses_itself_witness :
  let c := Some {| Lock.lockValue := "1000"; Lock.expiresAt := Some 61000 |} in
  Acquire.run [50000; 50001; 61001; 61002; 61003; 61004] c Acquire.Start
  = (Some {| Lock.lockValue := "50000"; Lock.expiresAt := None |},
     Acquire.Duplicate).
Proof.
  intros c.
  apply (acquire_refuses_itself c "1000" 50000 50001 61001 61002 61003 61004);
    reflexivity.
Defined.


(** ** Refreshing the lock *)

Section refresh.
Import Lock.

Lemma refresh_step_get now c last v currentLockTime :
  get now c = Some v -> JS.parseInt v = Some currentLockTime ->
  Z.abs (currentLockTime - last) <= 20000 ->
  Refresh.step now c
    {| Refresh.lastRefreshTime := last; Refresh.at_ := Refresh.Idle |}
  = (c, {| Refresh.lastRefreshTime := last;
           Refresh.at_ := Refresh.Swap now v |}).
Proof.
  intros Hg Hp Hown. unfold Refresh.step.
  cbn [Refresh.at_ Refresh.lastRefreshTime].
  rewrite Hg, (parseInt_truthy v _ Hp), Hp. cbn [negb].
  unfold Refresh.LOCK_OWNERSHIP_THRESHOLD_MS.
  by destruct (Z.ltb_spec 20000 (Z.abs (currentLockTime - last))); [lia|].
Qed.

Lemma refresh_step_swap now now0 c last v :
  get now c = Some v ->
  Refresh.step now c
    {| Refresh.lastRefreshTime := last; Refresh.at_ := Refresh.Swap now0 v |}
  = (Some {| lockValue := JS.toString now0; expiresAt := None |},
     {| Refresh.lastRefreshTime := last; Refresh.at_ := Refresh.Confirm now0 |}).
Proof.
  intros Hg. unfold Refresh.step, Acquire.getset.
  cbn [Refresh.at_ Refresh.lastRefreshTime]. rewrite Hg.
  by rewrite bool_decide_eq_false_2 by (intros Hne; by apply Hne).
Qed.

Lemma refresh_step_swap_foreign now now0 c last currentLock v :
  get now c = Some v -> v <> currentLock ->
  Refresh.step now c
    {| Refresh.lastRefreshTime := last;
       Refresh.at_ := Refresh.Swap now0 currentLock |}
  = (Some {| lockValue := JS.toString now0; expiresAt := None |},
     {| Refresh.lastRefreshTime := last; Refresh.at_ := Refresh.Revert v |}).
Proof.
  intros Hg Hne. unfold Refresh.step, Acquire.getset.
  cbn [Refresh.at_ Refresh.lastRefreshTime]. rewrite Hg.
  by rewrite bool_decide_eq_true_2.
Qed.

Lemma refresh_run_extends c v currentLockTime last t1 t2 t3 :
  get t1 c = Some v -> get t2 c = Some v ->
  JS.parseInt v = Some currentLockTime ->
  Z.abs (currentLockTime - last) <= 20000 ->
  Refresh.run [t1; t2; t3] c
    {| Refresh.lastRefreshTime := last; Refresh.at_ := Refresh.Idle |}
  = (Some {| lockValue := JS.toString t1; expiresAt := Some (t3 + 60000) |},
     {| Refresh.lastRefreshTime := t1; Refresh.at_ := Refresh.Idle |}).
Proof.
  intros H1 H2 Hp Hown. unfold Refresh.run. cbn [foldl fst snd].
  rewrite (refresh_step_get _ _ _ _ _ H1 Hp Hown). cbn [fst snd].
  rewrite (refresh_step_swap _ _ _ _ _ H2). cbn [fst snd].
  reflexivity.
Qed.
End refresh.

(** X16.  [refreshLock] takes every timestamp within 20 seconds of its last
    refresh time for its own: in three commands, [GET], [GETSET] and
    [SET EX], the key gets the clock reading of the start of the call as its
    value and expires 60 seconds after the last command, and that clock
    reading becomes the last refresh time.  How long ago the last refresh
    was does not matter as long as the key has not expired. *)
Theorem refresh_extends_lock (c : Lock.lock) (v : string)
    (currentLockTime last t1 t2 t3 : Z) :
  Lock.get t1 c = Some v -> Lock.get t2 c = Some v ->
  JS.parseInt v = Some currentLockTime ->
  Z.abs (currentLockTime - last) <= 20000 ->
  Refresh.run [t1; t2; t3] c
    {| Refresh.lastRefreshTime := last; Refresh.at_ := Refresh.Idle |}
  = (Some {| Lock.lockValue := JS.toString t1;
             Lock.expiresAt := Some (t3 + 60000) |},
     {| Refresh.lastRefreshTime := t1; Refresh.at_ := Refresh.Idle |}).
Proof. apply refresh_run_extends. Qed.

Lemma refresh_extends_lock_witness :
  let c := Some {| Lock.lockValue := "1000"; Lock.expiresAt := Some 61000 |} in
  Refresh.run [45000; 45001; 45002] c
    {| Refresh.lastRefreshTime := 1000; Refresh.at_ := Refresh.Idle |}
  = (Some {| Lock.lockValue := "45000"; Lock.expiresAt := Some 105002 |},
     {| Refresh.lastRefreshTime := 45000; Refresh.at_ := Refresh.Idle |}).
Proof.
  intros c.
  apply (refresh_extends_lock c "1000" 1000 1000 45000 45001 45002);
    [reflexivity|reflexivity|reflexivity|simpl; lia].
Defined.

(** X17.  When another process changes the key between the [GET] and the
    [GETSET] of a refresh, the refresh puts the value of the other process
    back with a fresh expiry of 60 seconds and keeps its last refresh
    time. *)
Theorem refresh_reverts_foreign_value (c : Lock.lock) (currentLock v : string)
    (last t1 t2 t3 : Z) :
  Lock.get t2 c = Some v -> v <> currentLock ->
  Refresh.run [t2; t3] c
    {| Refresh.lastRefreshTime := last;
       Refresh.at_ := Refresh.Swap t1 currentLock |}
  = (Some {| Lock.lockValue := v; Lock.expiresAt := Some (t3 + 60000) |},
     {| Refresh.lastRefreshTime := last; Refresh.at_ := Refresh.Idle |}).
Proof.
  intros H2 Hne. unfold Refresh.run. cbn [foldl fst snd].
  rewrite (refresh_step_swap_foreign _ _ _ _ _ _ H2 Hne). cbn [fst snd].
  reflexivity.
Qed.

Lemma refresh_reverts_foreign_value_witness :
  let c := Some {| Lock.lockValue := "44000"; Lock.expiresAt := Some 104000 |} in
  Refresh.run [45001; 45002] c
    {| Refresh.lastRefreshTime := 1000;
       Refresh.at_ := Refresh.Swap 45000 "1000" |}
  = (Some {| Lock.lockValue := "44000"; Lock.expiresAt := Some 105002 |},
     {| Refresh.lastRefreshTime := 1000; Refresh.at_ := Refresh.Idle |}).
Proof.
  intros c.
  apply (refresh_reverts_foreign_value c "1000" "44000" 1000 45000 45001 45002);
    [reflexivity|discriminate].
Defined.

(** X18.  A holder that stays away until its key has expired, more than 60
    seconds after its last write, loses the lock without noticing.  Its
    refresh finds no key and does nothing; a second process then acquires
    the lock with its first command; and every later refresh of the first
    holder sees a timestamp more than 20 seconds from its own and does
    nothing again.  Both processes go on. *)
Theorem pause_loses_lock (t0 t1 t2 t3 : Z) :
  0 <= t0 -> t0 + 60000 < t1 -> t1 <= t2 -> t2 <= t3 -> t3 < t2 + 60000 ->
  let holder :=
    {| Refresh.lastRefreshTime := t0; Refresh.at_ := Refresh.Idle |} in
  let c0 := Some {| Lock.lockValue := JS.toString t0;
                    Lock.expiresAt := Some (t0 + 60000) |} in
  let c2 := Some {| Lock.lockValue := JS.toString t2;
                    Lock.expiresAt := Some (t2 + 60000) |} in
  Acquire.run [t0] None Acquire.Start = (c0, Acquire.Acquired (JS.toString t0))
  /\ Refresh.init (Some (JS.toString t0)) t0 = Some t0
  /\ Refresh.run [t1] c0 holder = (c0, holder)
  /\ Acquire.run [t2] c0 Acquire.Start = (c2, Acquire.Acquired (JS.toString t2))
  /\ Refresh.run [t3] c2 holder = (c2, holder).
Proof.
  intros H0 H1 H2 H3 H4 holder c0 c2.
  assert (Hgone : forall t, t0 + 60000 < t -> Lock.get t c0 = None).
  { intros t Ht. unfold c0. simpl.
    destruct (Z.ltb_spec (t0 + 60000) t); [done|lia]. }
  split; [reflexivity|]. split.
  { unfold Refresh.init. rewrite parseInt_toString by done.
    by rewrite (parseInt_truthy _ _ (parseInt_toString t0 H0)). }
  split.
  { unfold Refresh.run. cbn [foldl fst snd]. unfold Refresh.step.
    cbn [Refresh.at_]. by rewrite Hgone. }
  split.
  { unfold Acquire.run. cbn [foldl fst snd Acquire.step].
    unfold Acquire.trySet. rewrite setNX_free by (apply Hgone; lia).
    reflexivity. }
  unfold Refresh.run. cbn [foldl fst snd]. unfold Refresh.step.
  cbn [Refresh.at_ Refresh.lastRefreshTime holder].
  assert (Lock.get t3 c2 = Some (JS.toString t2)) as ->.
  { unfold c2. simpl. destruct (Z.ltb_spec (t2 + 60000) t3); [lia|done]. }
  rewrite (parseInt_truthy _ _ (parseInt_toString t2 ltac:(lia))).
  rewrite parseInt_toString by lia. cbn [negb].
  unfold Refresh.LOCK_OWNERSHIP_THRESHOLD_MS.
  destruct (Z.ltb_spec 20000 (Z.abs (t2 - t0))); [done|lia].
Qed.

(** The holder wrote the key at 1000; the key is served until 61000
    inclusive and is gone at 61001. *)
Lemma pause_loses_lock_witness :
  let holder :=
    {| Refresh.lastRefreshTime := 1000; Refresh.at_ := Refresh.Idle |} in
  let c0 := Some {| Lock.lockValue := JS.toString 1000;
                    Lock.expiresAt := Some (1000 + 60000) |} in
  let c2 := Some {| Lock.lockValue := JS.toString 62000;
                    Lock.expiresAt := Some (62000 + 60000) |} in
  Acquire.run [1000] None Acquire.Start
  = (c0, Acquire.Acquired (JS.toString 1000))
  /\ Refresh.init (Some (JS.toString 1000)) 1000 = Some 1000
  /\ Refresh.run [61001] c0 holder = (c0, holder)
  /\ Acquire.run [62000] c0 Acquire.Start
     = (c2, Acquire.Acquired (JS.toString 62000))
  /\ Refresh.run [63000] c2 holder = (c2, holder).
Proof. apply (pause_loses_lock 1000 61001 62000 63000); lia. Defined.

(** X19.  While the holder refreshes, a starting process is turned away:
    after a refresh that began at [t1], a process whose [GET] comes less
    than 30 seconds after [t1], and before the key expires, ends as a
    duplicate and leaves the key alone. *)
Theorem refresh_keeps_others_out (c : Lock.lock) (v : string)
    (currentLockTime last t1 t2 t3 u1 u2 : Z) :
  Lock.get t1 c = Some v -> Lock.get t2 c = Some v ->
  JS.parseInt v = Some currentLockTime ->
  Z.abs (currentLockTime - last) <= 20000 ->
  0 <= t1 -> u1 <= u2 -> u2 < t3 + 60000 -> u2 - t1 < 30000 ->
  let c' := (Refresh.run [t1; t2; t3] c
               {| Refresh.lastRefreshTime := last;
                  Refresh.at_ := Refresh.Idle |}).1 in
  Acquire.run [u1; u2] c' Acquire.Start = (c', Acquire.Duplicate).
Proof.
  intros H1 H2 Hp Hown H0 Hu Hlive Hrecent c'.
  assert (c' = Some {| Lock.lockValue := JS.toString t1;
                       Lock.expiresAt := Some (t3 + 60000) |}) as Hc'.
  { unfold c'. by rewrite (refresh_run_extends c v currentLockTime last t1 t2 t3). }
  assert (Hheld : forall u, u <= u2 -> Lock.get u c' = Some (JS.toString t1)).
  { intros u Hle. rewrite Hc'. simpl.
    destruct (Z.ltb_spec (t3 + 60000) u); [lia|done]. }
  pose proof (parseInt_toString t1 H0) as Hparse.
  unfold Acquire.run. cbn [foldl fst snd].
  cbn [Acquire.step]. unfold Acquire.trySet.
  rewrite (setNX_held _ _ _ _ _ (Hheld u1 Hu)). cbn [Acquire.step fst snd].
  rewrite (Hheld u2 ltac:(lia)), (parseInt_truthy _ _ Hparse),
    (recentLock_spec _ _ _ Hparse).
  by rewrite bool_decide_eq_true_2.
Qed.

Lemma refresh_keeps_others_out_witness :
  let c := Some {| Lock.lockValue := "1000"; Lock.expiresAt := Some 61000 |} in
  let c' := (Refresh.run [10000; 10001; 10002] c
               {| Refresh.lastRefreshTime := 1000;
                  Refresh.at_ := Refresh.Idle |}).1 in
  Acquire.run [20000; 20001] c' Acquire.Start = (c', Acquire.Duplicate).
Proof.
  intros c.
  apply (refresh_keeps_others_out c "1000" 1000 1000 10000 10001 10002
           20000 20001);
    try reflexivity; simpl; lia.
Defined.


(** ** The lock of the general worker after start-up *)

(** X20.  The lock of a general worker is written once, at start-up, without
    an expiry time, and it is never refreshed.  So a second general worker
    with the same id is turned away only if it starts less than 30 seconds
    after the first one: started later, it overwrites the lock and both
    run. *)
Theorem general_duplicate_window (t1 t2 t3 t4 : Z) :
  0 <= t1 ->
  Lock.run Lock.generalStep
    [(Lock.A, t1); (Lock.A, t2); (Lock.B, t3); (Lock.B, t4)]
    {| Lock.theLock := None; Lock.procA := Lock.GStart;
       Lock.procB := Lock.GStart |}
  = if t3 - t1 <? 30000
    then {| Lock.theLock := Some {| Lock.lockValue := JS.toString t1;
                                    Lock.expiresAt := None |};
            Lock.procA := Lock.GRunning; Lock.procB := Lock.GExited |}
    else {| Lock.theLock := Some {| Lock.lockValue := JS.toString t3;
                                    Lock.expiresAt := None |};
            Lock.procA := Lock.GRunning; Lock.procB := Lock.GRunning |}.
Proof.
  intros H0. unfold Lock.run. cbn [foldl Lock.move].
  cbn [Lock.theLock Lock.procA Lock.procB Lock.generalStep Lock.get].
  change (Lock.recentLock t1 None) with false. cbv iota.
  cbn [Lock.theLock Lock.procA Lock.procB Lock.generalStep Lock.setPlain
       Lock.get].
  pose proof (parseInt_toString t1 H0) as Hp.
  unfold Lock.recentLock. rewrite (parseInt_truthy _ _ Hp), Hp. cbn [andb].
  by destruct (t3 - t1 <? 30000).
Qed.

Lemma general_duplicate_window_witness :
  Lock.run Lock.generalStep
    [(Lock.A, 1000); (Lock.A, 1001); (Lock.B, 31000); (Lock.B, 31001)]
    {| Lock.theLock := None; Lock.procA := Lock.GStart;
       Lock.procB := Lock.GStart |}
  = if 31000 - 1000 <? 30000
    then {| Lock.theLock := Some {| Lock.lockValue := JS.toString 1000;
                                    Lock.expiresAt := None |};
            Lock.procA := Lock.GRunning; Lock.procB := Lock.GExited |}
    else {| Lock.theLock := Some {| Lock.lockValue := JS.toString 31000;
                                    Lock.expiresAt := None |};
            Lock.procA := Lock.GRunning; Lock.procB := Lock.GRunning |}.
Proof. apply (general_duplicate_window 1000 1001 31000 31001). lia. Defined.


(** ** Heartbeats and shutdown *)

Section heartbeats.
Context (heartbeat : nat -> key).
Hypothesis heartbeat_inj : forall a b, heartbeat a = heartbeat b -> a = b.

(** Liveness reads the heartbeat keys only. *)
Lemma heartbeatFresh_ext now (s s' : store) w :
  s' !! heartbeat w = s !! heartbeat w ->
  heartbeatFresh heartbeat now s' w = heartbeatFresh heartbeat now s w.
Proof. unfold heartbeatFresh. by intros ->. Qed.

Lemma detectActive_ext now (s s' : store) :
  (forall w, s' !! heartbeat w = s !! heartbeat w) ->
  detectActive heartbeat now s' = detectActive heartbeat now s.
Proof.
  intros Hsame. rewrite !detectActive_filter.
  apply List.filter_ext. intros w. by apply heartbeatFresh_ext.
Qed.

Lemma heartbeat_sent workerId now t (s : store) :
  0 <= now ->
  heartbeatFresh heartbeat t
    (set (heartbeat workerId) (VStr (JS.toString now)) s) workerId
  = bool_decide (t - now < 60000).
Proof.
  intros Hnow. unfold heartbeatFresh, set. rewrite lookup_insert_eq.
  pose proof (parseInt_toString now Hnow) as Hp. simpl.
  by rewrite (parseInt_truthy _ _ Hp), Hp.
Qed.

Lemma heartbeat_round_trip workerId now (s : store) :
  0 <= now -> (1 <= workerId <= 20)%nat ->
  let s' := set (heartbeat workerId) (VStr (JS.toString now)) s in
  forall t,
    (workerId ∈ detectActive heartbeat t s' <-> t - now < 60000)
    /\ forall w, w <> workerId ->
         (w ∈ detectActive heartbeat t s' <-> w ∈ detectActive heartbeat t s).
Proof.
  intros Hnow Hid s' t. split.
  - rewrite detectActive_elem. unfold s'. rewrite heartbeat_sent by done.
    rewrite bool_decide_eq_true. tauto.
  - intros w Hw. rewrite !detectActive_elem.
    rewrite (heartbeatFresh_ext t s s' w); [done|].
    unfold s', set. apply lookup_insert_ne. intros Heq.
    by apply heartbeat_inj in Heq.
Qed.
End heartbeats.

(** X21.  A heartbeat is the text of the clock reading, and the liveness
    check reads it back as that reading: after a worker with an id of 1 to
    20 has sent its heartbeat at [now], it counts as live at exactly the
    times less than 60 seconds after [now], and the liveness of the other
    workers is as before.  This holds for the general workers as the
    manager sees them and for the product workers as the general worker
    sees them. *)
Theorem heartbeat_makes_live (workerId : nat) (now : Z) (s : store) :
  0 <= now -> (1 <= workerId <= 20)%nat ->
  forall t,
    (workerId ∈ Manager.detectActiveGeneralWorkers t
                  (Lifecycle.generalSendHeartbeat workerId now s)
     <-> t - now < 60000)
    /\ (forall w, w <> workerId ->
          (w ∈ Manager.detectActiveGeneralWorkers t
                 (Lifecycle.generalSendHeartbeat workerId now s)
           <-> w ∈ Manager.detectActiveGeneralWorkers t s))
    /\ (workerId ∈ General.detectActiveWorkers t
                     (Lifecycle.productSendHeartbeat workerId now s)
        <-> t - now < 60000)
    /\ (forall w, w <> workerId ->
          (w ∈ General.detectActiveWorkers t
                 (Lifecycle.productSendHeartbeat workerId now s)
           <-> w ∈ General.detectActiveWorkers t s)).
Proof.
  intros Hnow Hid t.
  destruct (heartbeat_round_trip REDIS_KEY_GENERAL_WORKER_HEARTBEAT
              ltac:(by intros a b [= ->]) workerId now s Hnow Hid t)
    as [Hg1 Hg2].
  destruct (heartbeat_round_trip REDIS_KEY_WORKER_HEARTBEAT
              ltac:(by intros a b [= ->]) workerId now s Hnow Hid t)
    as [Hp1 Hp2].
  exact (conj Hg1 (conj Hg2 (conj Hp1 Hp2))).
Qed.

Lemma heartbeat_makes_live_witness :
  3%nat ∈ General.detectActiveWorkers 61999
            (Lifecycle.productSendHeartbeat 3 2000 ∅)
  <-> 61999 - 2000 < 60000.
Proof.
  assert (H0 : 0 <= 2000) by lia.
  assert (Hid : (1 <= 3 <= 20)%nat) by lia.
  by destruct (heartbeat_makes_live 3 2000 ∅ H0 Hid 61999) as (_ & _ & H & _).
Defined.

Lemma pendingPages_delete_other (s : store) (k : key) :
  (forall w, k <> REDIS_KEY_WORKER_PAGES w) ->
  General.pendingPages (delete k s) = General.pendingPages s.
Proof.
  intros Hk. destruct (s !! k) as [v|] eqn:E.
  - rewrite (pendingPages_delete s k v E).
    assert (General.pendingEntry k v = ∅) as ->.
    { destruct k; try done. by destruct (Hk workerId). }
    by rewrite (left_id ∅ _).
  - by rewrite delete_id.
Qed.

Lemma pendingPages_delete_pages (s : store) (w : nat) :
  General.pendingPages (delete (REDIS_KEY_WORKER_PAGES w) s)
  ⊎ list_to_set_disj (General.pagesOf s w)
  = General.pendingPages s.
Proof.
  rewrite <- pendingEntry_pagesOf.
  destruct (s !! REDIS_KEY_WORKER_PAGES w) as [v|] eqn:E.
  - rewrite (pendingPages_delete s _ v E). apply (comm _).
  - rewrite delete_id by done. apply (right_id ∅ _).
Qed.

Section late.
Context (workerId : nat).
Implicit Types (s : store) (l : list Lifecycle.lateWrite) (k : key).

Lemma late_frame l : forall s k,
  k <> REDIS_KEY_WORKER_HEARTBEAT workerId ->
  k <> REDIS_KEY_WORKER_PAGES workerId ->
  k <> REDIS_KEY_WORKER_COMPLETE workerId ->
  k <> REDIS_KEY_WORKER_LOCK product workerId ->
  k <> REDIS_KEY_CRAWL_TRIGGER ->
  foldl (Lifecycle.lateStep workerId) s l !! k = s !! k.
Proof.
  induction l as [|w l IH]; intros s k H1 H2 H3 H4 H5; [done|].
  cbn [foldl]. rewrite IH by done.
  destruct w; unfold Lifecycle.lateStep, Lifecycle.productSendHeartbeat,
    set, del; by rewrite ?lookup_insert_ne, ?lookup_delete_ne.
Qed.

Lemma late_heartbeat l : forall s,
  foldl (Lifecycle.lateStep workerId) s l
    !! REDIS_KEY_WORKER_HEARTBEAT workerId
  = match last (Lifecycle.beats l) with
    | Some now => Some (VStr (JS.toString now))
    | None => s !! REDIS_KEY_WORKER_HEARTBEAT workerId
    end.
Proof.
  induction l as [|w l IH] using rev_ind; intros s; [done|].
  rewrite foldl_app. cbn [foldl].
  unfold Lifecycle.beats. rewrite omap_app. fold (Lifecycle.beats l).
  destruct w as [now|pages| | |v]; simpl omap; rewrite ?app_nil_r;
    unfold Lifecycle.lateStep, Lifecycle.productSendHeartbeat, set, del;
    rewrite ?lookup_insert_ne, ?lookup_delete_ne by done; try apply IH.
  by rewrite lookup_insert_eq, last_snoc.
Qed.

Lemma late_pages l : forall s,
  foldl (Lifecycle.lateStep workerId) s l !! REDIS_KEY_WORKER_PAGES workerId
  = match last (Lifecycle.listWrites l) with
    | Some pages => Some (VPages pages)
    | None => s !! REDIS_KEY_WORKER_PAGES workerId
    end.
Proof.
  induction l as [|w l IH] using rev_ind; intros s; [done|].
  rewrite foldl_app. cbn [foldl].
  unfold Lifecycle.listWrites. rewrite omap_app. fold (Lifecycle.listWrites l).
  destruct w as [now|pages| | |v]; simpl omap; rewrite ?app_nil_r;
    unfold Lifecycle.lateStep, Lifecycle.productSendHeartbeat, set, del;
    rewrite ?lookup_insert_ne, ?lookup_delete_ne by done; try apply IH.
  by rewrite lookup_insert_eq, last_snoc.
Qed.

(** The late writes touch no key of another worker. *)
Lemma late_other l s w :
  w <> workerId ->
  foldl (Lifecycle.lateStep workerId) s l !! REDIS_KEY_WORKER_PAGES w
  = s !! REDIS_KEY_WORKER_PAGES w
  /\ foldl (Lifecycle.lateStep workerId) s l !! REDIS_KEY_WORKER_HEARTBEAT w
     = s !! REDIS_KEY_WORKER_HEARTBEAT w.
Proof.
  intros Hw. split; apply late_frame; congruence.
Qed.

Lemma late_pending l : forall s,
  Lifecycle.listWrites l = [] ->
  General.pendingPages (foldl (Lifecycle.lateStep workerId) s l)
  = General.pendingPages s.
Proof.
  induction l as [|w l IH]; intros s Hl; [done|].
  cbn [foldl]. unfold Lifecycle.listWrites in Hl.
  destruct w as [now|pages| | |lockValue]; simpl omap in Hl;
    try discriminate Hl; fold (Lifecycle.listWrites l) in Hl;
    rewrite IH by done;
    unfold Lifecycle.lateStep, Lifecycle.productSendHeartbeat, set, del.
  - pose proof (pendingPages_set s (REDIS_KEY_WORKER_HEARTBEAT workerId)
                  (VStr (JS.toString now))) as Hs.
    unfold set in Hs. simpl in Hs.
    destruct (s !! REDIS_KEY_WORKER_HEARTBEAT workerId); simpl in Hs;
      clear -Hs; multiset_solver.
  - pose proof (pendingPages_set s (REDIS_KEY_WORKER_COMPLETE workerId)
                  (VStr "1")) as Hs.
    unfold set in Hs. simpl in Hs.
    destruct (s !! REDIS_KEY_WORKER_COMPLETE workerId); simpl in Hs;
      clear -Hs; multiset_solver.
  - by apply pendingPages_delete_other.
  - pose proof (pendingPages_set s (REDIS_KEY_WORKER_LOCK product workerId)
                  (VStr lockValue)) as Hs.
    unfold set in Hs. simpl in Hs.
    destruct (s !! REDIS_KEY_WORKER_LOCK product workerId); simpl in Hs;
      clear -Hs; multiset_solver.
Qed.
End late.

(** X22.  The shutdown of a product worker is three deletions, heartbeat,
    page list and lock, between which the worker's own timers and a crawl
    in progress may still write.  Whatever they write: no key of another
    worker changes, so the pages of the worker go to nobody.  The worker
    counts as live afterwards exactly until 60 seconds after its last late
    heartbeat, and never if there is none.  Its page list is gone unless the
    crawl writes it back after the deletion; then it is the list written
    last.  Without any late list write the pages that the worker held leave
    the pending pages. *)
Theorem product_shutdown_drops_pages (workerId : nat)
    (late1 late2 late3 : list Lifecycle.lateWrite) (s : store) :
  (1 <= workerId <= 20)%nat ->
  Forall (fun now => 0 <= now) (Lifecycle.beats (late1 ++ late2 ++ late3)) ->
  let s' := Lifecycle.productShutdown workerId late1 late2 late3 s in
  (forall t,
     workerId ∈ General.detectActiveWorkers t s'
     <-> exists now, last (Lifecycle.beats (late1 ++ late2 ++ late3)) = Some now
           /\ t - now < 60000)
  /\ General.pagesOf s' workerId
     = default [] (last (Lifecycle.listWrites (late2 ++ late3)))
  /\ (forall w, w <> workerId ->
        General.pagesOf s' w = General.pagesOf s w
        /\ forall t, w ∈ General.detectActiveWorkers t s'
                     <-> w ∈ General.detectActiveWorkers t s)
  /\ (Lifecycle.listWrites (late1 ++ late2 ++ late3) = [] ->
      General.pendingPages s'
      ⊎ list_to_set_disj (General.pagesOf s workerId)
      = General.pendingPages s)
  /\ (forall k, k <> REDIS_KEY_WORKER_HEARTBEAT workerId ->
        k <> REDIS_KEY_WORKER_PAGES workerId ->
        k <> REDIS_KEY_WORKER_COMPLETE workerId ->
        k <> REDIS_KEY_WORKER_LOCK product workerId ->
        k <> REDIS_KEY_CRAWL_TRIGGER ->
        s' !! k = s !! k).
Proof.
  intros Hid Hbeats s'.
  assert (Hframe : forall k, k <> REDIS_KEY_WORKER_HEARTBEAT workerId ->
            k <> REDIS_KEY_WORKER_PAGES workerId ->
            k <> REDIS_KEY_WORKER_COMPLETE workerId ->
            k <> REDIS_KEY_WORKER_LOCK product workerId ->
            k <> REDIS_KEY_CRAWL_TRIGGER ->
            s' !! k = s !! k).
  { intros k H1 H2 H3 H4 H5. unfold s', Lifecycle.productShutdown, del.
    cbv zeta.
    rewrite late_frame, lookup_delete_ne, late_frame, lookup_delete_ne,
      late_frame, lookup_delete_ne by done. done. }
  assert (Hhb : s' !! REDIS_KEY_WORKER_HEARTBEAT workerId
                = match last (Lifecycle.beats (late1 ++ late2 ++ late3)) with
                  | Some now => Some (VStr (JS.toString now))
                  | None => None
                  end).
  { unfold s', Lifecycle.productShutdown, del. cbv zeta.
    rewrite late_heartbeat, lookup_delete_ne, late_heartbeat,
      lookup_delete_ne, late_heartbeat, lookup_delete_eq by done.
    unfold Lifecycle.beats. rewrite !omap_app, !last_app.
    repeat case_match; congruence. }
  assert (Hpg : s' !! REDIS_KEY_WORKER_PAGES workerId
                = match last (Lifecycle.listWrites (late2 ++ late3)) with
                  | Some pages => Some (VPages pages)
                  | None => None
                  end).
  { unfold s', Lifecycle.productShutdown, del. cbv zeta.
    rewrite late_pages, lookup_delete_ne, late_pages, lookup_delete_eq
      by done.
    unfold Lifecycle.listWrites. rewrite !omap_app, !last_app.
    repeat case_match; congruence. }
  split; [|split; [|split; [|split; [|exact Hframe]]]].
  - intros t. unfold General.detectActiveWorkers.
    rewrite detectActive_elem. unfold heartbeatFresh. rewrite Hhb.
    destruct (last (Lifecycle.beats (late1 ++ late2 ++ late3)))
      as [now|] eqn:Hlast.
    + assert (0 <= now) as Hnow.
      { rewrite Forall_forall in Hbeats. apply Hbeats.
        apply last_Some in Hlast as [l' ->].
        apply elem_of_app. right. by left. }
      pose proof (parseInt_toString now Hnow) as Hp. simpl.
      rewrite (parseInt_truthy _ _ Hp), Hp. rewrite bool_decide_eq_true.
      unfold HEARTBEAT_TIMEOUT_MS. split.
      * intros [_ Ht]. by exists now.
      * intros (now' & [= <-] & Ht). done.
    + simpl. split; [intros [_ [=]]|intros (now & [=] & _)].
  - unfold General.pagesOf. rewrite Hpg.
    by destruct (last (Lifecycle.listWrites (late2 ++ late3))).
  - intros w Hw. split.
    + unfold General.pagesOf. by rewrite Hframe by congruence.
    + intros t. unfold General.detectActiveWorkers.
      rewrite !detectActive_elem.
      rewrite (heartbeatFresh_ext REDIS_KEY_WORKER_HEARTBEAT t s s' w);
        [done|]. apply Hframe; congruence.
  - intros Hnone. unfold Lifecycle.listWrites in Hnone.
    rewrite !omap_app in Hnone.
    apply app_eq_nil in Hnone as [Hn1 Hn23].
    apply app_eq_nil in Hn23 as [Hn2 Hn3].
    unfold s', Lifecycle.productShutdown, del. cbv zeta.
    rewrite late_pending by done.
    rewrite pendingPages_delete_other by done.
    rewrite late_pending by done.
    set (s1 := foldl (Lifecycle.lateStep workerId)
                 (delete (REDIS_KEY_WORKER_HEARTBEAT workerId) s) late1).
    assert (General.pendingPages s = General.pendingPages s1) as ->.
    { unfold s1. rewrite late_pending by done.
      by rewrite pendingPages_delete_other. }
    assert (General.pagesOf s workerId = General.pagesOf s1 workerId) as ->.
    { unfold General.pagesOf, s1. rewrite late_pages.
      unfold Lifecycle.listWrites. rewrite Hn1. simpl.
      by rewrite lookup_delete_ne. }
    apply pendingPages_delete_pages.
Qed.

(** The heartbeat timer fires at 70000, between the deletion of the
    heartbeat and the deletion of the page list: the worker, which held the
    pages 7 and 8, is gone with them and counts as live until 130000. *)
Lemma product_shutdown_drops_pages_witness :
  let s := Lifecycle.productSendHeartbeat 1 60000 (redis Scenario.assigned78) in
  let s' := Lifecycle.productShutdown 1 [Lifecycle.Beat 70000] [] [] s in
  General.pagesOf s 1 = [7; 8]
  /\ General.pagesOf s' 1 = []
  /\ (forall t, 1%nat ∈ General.detectActiveWorkers t s' <-> t - 70000 < 60000).
Proof.
  intros s s'.
  assert (Hid : (1 <= 1 <= 20)%nat) by lia.
  assert (Hb : Forall (fun now => 0 <= now)
                 (Lifecycle.beats ([Lifecycle.Beat 70000] ++ [] ++ [])))
    by (repeat constructor; lia).
  destruct (product_shutdown_drops_pages 1 [Lifecycle.Beat 70000] [] [] s
              Hid Hb) as (Hlive & Hpages & _).
  split; [reflexivity|]. split; [exact Hpages|].
  intros t. split.
  - intros Ht. apply (Hlive t) in Ht as (now & [= <-] & Ht). exact Ht.
  - intros Ht. apply (Hlive t). exists 70000. split; [reflexivity|exact Ht].
Defined.


(** ** The batches of a page range *)

Section range.

Lemma batchPages_empty batchStart batchEnd :
  batchEnd < batchStart -> Range.batchPages batchStart batchEnd = [].
Proof.
  intros Hlt. unfold Range.batchPages.
  by replace (Z.to_nat (batchEnd - batchStart + 1)) with 0%nat by lia.
Qed.

Lemma batchPages_lookup batchStart batchEnd i :
  Range.batchPages batchStart batchEnd !! i
  = if bool_decide (batchStart + Z.of_nat i <= batchEnd)
    then Some (batchStart + Z.of_nat i) else None.
Proof.
  unfold Range.batchPages. rewrite list_lookup_fmap.
  case_bool_decide as Hi.
  - rewrite lookup_seq_lt by lia. done.
  - rewrite lookup_seq_ge by lia. done.
Qed.

Lemma batchPages_length batchStart batchEnd :
  length (Range.batchPages batchStart batchEnd)
  = Z.to_nat (batchEnd - batchStart + 1).
Proof. unfold Range.batchPages. by rewrite length_fmap, length_seq. Qed.

Lemma batchPages_split batchStart m batchEnd :
  batchStart <= m + 1 -> m <= batchEnd ->
  Range.batchPages batchStart m ++ Range.batchPages (m + 1) batchEnd
  = Range.batchPages batchStart batchEnd.
Proof.
  intros H1 H2. apply list_eq. intros i.
  destruct (decide (i < length (Range.batchPages batchStart m))%nat) as [Hi|Hi].
  - rewrite lookup_app_l by done. rewrite batchPages_length in Hi.
    rewrite !batchPages_lookup.
    repeat case_bool_decide; try done; lia.
  - rewrite lookup_app_r by lia. rewrite batchPages_length in *.
    rewrite !batchPages_lookup.
    repeat case_bool_decide; try done; try lia. f_equal. lia.
Qed.

Lemma batchPages_elem batchStart batchEnd p :
  p ∈ Range.batchPages batchStart batchEnd <-> batchStart <= p <= batchEnd.
Proof.
  rewrite list_elem_of_lookup. split.
  - intros [i Hi]. rewrite batchPages_lookup in Hi.
    case_bool_decide; [|done]. injection Hi as <-. lia.
  - intros Hp. exists (Z.to_nat (p - batchStart)).
    rewrite batchPages_lookup, bool_decide_eq_true_2 by lia. f_equal. lia.
Qed.

Lemma batchPages_NoDup batchStart batchEnd :
  NoDup (Range.batchPages batchStart batchEnd).
Proof.
  apply NoDup_alt. intros i j p Hi Hj.
  rewrite batchPages_lookup in Hi, Hj.
  repeat case_bool_decide; try done.
  injection Hi as <-. injection Hj as Hj. lia.
Qed.
End range.

(** X23.  With a batch size of at least 1 the batch loop of
    [openAllPageTabsInBatches] ends, after at most one round per page, and
    its batches cut the assigned range into consecutive pieces: each batch
    lies inside the range and holds between 1 and [TABS_PER_BATCH] pages,
    the page lists handed to the product workers, one after the other, are
    the pages of the range in ascending order, and no list repeats a page.  An
    empty range gives no batch. *)
Theorem batches_cut_the_range (fuel : nat)
    (TABS_PER_BATCH assignedStartPage assignedEndPage : Z) :
  1 <= TABS_PER_BATCH ->
  (Z.to_nat (assignedEndPage - assignedStartPage + 1) <= fuel)%nat ->
  let windows :=
    Range.batches fuel TABS_PER_BATCH assignedStartPage assignedEndPage in
  concat ((fun w => Range.batchPages w.1 w.2) <$> windows)
  = Range.batchPages assignedStartPage assignedEndPage
  /\ (forall batchStart batchEnd, (batchStart, batchEnd) ∈ windows ->
        assignedStartPage <= batchStart <= batchEnd
        /\ batchEnd <= assignedEndPage
        /\ batchEnd - batchStart + 1 <= TABS_PER_BATCH
        /\ NoDup (Range.batchPages batchStart batchEnd))
  /\ (assignedEndPage < assignedStartPage -> windows = []).
Proof.
  intros HT. revert assignedStartPage.
  induction fuel as [|fuel IH]; intros a Hfuel; cbn [Range.batches].
  - split; [|split; [|done]].
    + symmetry. apply batchPages_empty. lia.
    + intros ? ? Hin. by apply elem_of_nil in Hin.
  - destruct (Z.leb_spec a assignedEndPage) as [Hle|Hgt].
    + destruct (IH (a + TABS_PER_BATCH) ltac:(lia)) as (Hcat & Hin & _).
      split; [|split; [|lia]].
      * rewrite fmap_cons. cbn [concat fst snd]. rewrite Hcat.
        destruct (Z.min_spec (a + TABS_PER_BATCH - 1) assignedEndPage)
          as [[Hlt ->]|[Hge ->]].
        -- rewrite <- (batchPages_split a (a + TABS_PER_BATCH - 1)
                         assignedEndPage) by lia.
           do 2 f_equal. lia.
        -- rewrite (batchPages_empty (a + TABS_PER_BATCH)) by lia.
           apply app_nil_r.
      * intros bs be Hw. apply elem_of_cons in Hw as [[= -> ->]|Hw].
        -- split; [lia|]. split; [lia|]. split; [lia|].
           apply batchPages_NoDup.
        -- destruct (Hin bs be Hw) as (? & ? & ? & ?).
           split; [lia|]. done.
    + split; [|split; [|done]].
      * symmetry. by apply batchPages_empty.
      * intros ? ? Hin. by apply elem_of_nil in Hin.
Qed.

Lemma batches_cut_the_range_witness :
  let windows := Range.batches 120 50 1 120 in
  windows = [(1, 50); (51, 100); (101, 120)]
  /\ concat ((fun w => Range.batchPages w.1 w.2) <$> windows)
     = Range.batchPages 1 120.
Proof.
  intros windows. split; [reflexivity|].
  by destruct (batches_cut_the_range 120 50 1 120 ltac:(lia) ltac:(lia)).
Defined.

(** X24.  [calculatePageRangeForBatch] splits a batch among the configured
    product workers: with [totalWorkers >= 1] every page of a non-empty
    batch lies in the range of exactly one worker id between 1 and
    [totalWorkers], and every range stays inside the batch; without the
    two settings the range is the whole batch. *)
Theorem page_range_partition (totalWorkers batchStart batchEnd : Z) :
  1 <= totalWorkers -> batchStart <= batchEnd ->
  let range workerId :=
    Range.calculatePageRangeForBatch (Some workerId) (Some totalWorkers)
      batchStart batchEnd in
  (forall p, batchStart <= p <= batchEnd ->
     exists workerId, 1 <= workerId <= totalWorkers
       /\ (range workerId).1 <= p <= (range workerId).2)
  /\ (forall p w1 w2, 1 <= w1 -> 1 <= w2 ->
        (range w1).1 <= p <= (range w1).2 ->
        (range w2).1 <= p <= (range w2).2 -> w1 = w2)
  /\ (forall workerId, 1 <= workerId ->
        batchStart <= (range workerId).1 /\ (range workerId).2 <= batchEnd)
  /\ Range.calculatePageRangeForBatch None None batchStart batchEnd
     = (batchStart, batchEnd).
Proof.
  intros Hn Hb range.
  destruct (ceilDiv_bounds (batchEnd - batchStart + 1) totalWorkers
              ltac:(lia) Hn) as (Hc1 & Hc2 & Hc3).
  set (c := JS.ceilDiv (batchEnd - batchStart + 1) totalWorkers) in *.
  assert (Hrange : forall w, 1 <= w ->
            range w = (batchStart + (w - 1) * c,
                       Z.min (batchStart + w * c - 1) batchEnd)).
  { intros w Hw. unfold range, Range.calculatePageRangeForBatch.
    destruct (Z.eqb_spec w 0); [lia|].
    destruct (Z.eqb_spec totalWorkers 0); [lia|]. done. }
  split; [|split; [|split; [|done]]].
  - intros p Hp. exists ((p - batchStart) / c + 1).
    pose proof (Z.div_mod (p - batchStart) c ltac:(lia)) as Hdm.
    pose proof (Z.mod_pos_bound (p - batchStart) c ltac:(lia)) as Hm.
    assert (0 <= (p - batchStart) / c) by (apply Z.div_pos; lia).
    assert ((p - batchStart) / c < totalWorkers)
      by (apply Z.div_lt_upper_bound; nia).
    rewrite Hrange by lia. simpl. split; [lia|]. nia.
  - intros p w1 w2 H1 H2. rewrite !Hrange by done. simpl.
    intros Hp1 Hp2. nia.
  - intros w Hw. rewrite Hrange by done. simpl. nia.
Qed.

Lemma page_range_partition_witness :
  Range.calculatePageRangeForBatch (Some 2) (Some 3) 51 100 = (68, 84)
  /\ forall p, 51 <= p <= 100 ->
       exists workerId, 1 <= workerId <= 3
         /\ (Range.calculatePageRangeForBatch (Some workerId) (Some 3) 51 100).1
            <= p
            <= (Range.calculatePageRangeForBatch (Some workerId) (Some 3) 51 100).2.
Proof.
  split; [reflexivity|].
  by destruct (page_range_partition 3 51 100 ltac:(lia) ltac:(lia)).
Defined.


(** ** The manager tick *)

Section tick.
Implicit Types (s : store) (k : key) (ws : list nat).

(** The keys a distribution may write: the range and the completion flag
    of a live general worker, and the two rotation keys. *)
Lemma distributePagesEvenly_frame T now s k :
  (forall w, w ∈ Manager.detectActiveGeneralWorkers now s ->
     k <> REDIS_KEY_GENERAL_WORKER_PAGES w
     /\ k <> REDIS_KEY_GENERAL_WORKER_COMPLETE w) ->
  Manager.distributePagesEvenly T now s !! k = s !! k.
Proof.
  intros Hk. unfold Manager.distributePagesEvenly.
  case_bool_decide; [done|]. by apply assignEvenly_other.
Qed.

Lemma distributePagesRoundRobin_frame B T now s k :
  (forall w, w ∈ Manager.detectActiveGeneralWorkers now s ->
     k <> REDIS_KEY_GENERAL_WORKER_PAGES w
     /\ k <> REDIS_KEY_GENERAL_WORKER_COMPLETE w) ->
  k <> REDIS_KEY_ROTATION_INDEX -> k <> REDIS_KEY_LAST_ASSIGNED_PAGE ->
  Manager.distributePagesRoundRobin B T now s !! k = s !! k.
Proof.
  intros Hk Hr Hl.
  destruct (decide (Manager.detectActiveGeneralWorkers now s = []))
    as [Hnil|Hlive].
  { unfold Manager.distributePagesRoundRobin. by rewrite Hnil. }
  destruct (distributePagesRoundRobin_cases B T now s Hlive)
    as (s3 & idx & Hframe & _ & ->).
  cbv zeta. unfold set, del.
  destruct (T <=? Manager.lastAssignedPage s).
  - rewrite clearWorkers_other by done.
    rewrite !lookup_insert_ne by done. by apply Hframe.
  - destruct (_ !! Z.to_nat _) as [w|] eqn:Hw; [|by apply Hframe].
    destruct (T <? _); [by apply Hframe|].
    apply list_elem_of_lookup_2 in Hw. destruct (Hk w Hw).
    rewrite !lookup_insert_ne, lookup_delete_ne, lookup_insert_ne by done.
    by apply Hframe.
Qed.

Lemma checkAndAssignWork_cases cfg now now' s :
  Manager.checkAndAssignWork cfg now now' s = s
  \/ exists T, s !! REDIS_KEY_TOTAL_PAGES ≫= parseValue = Some T /\ 0 < T
       /\ Manager.detectActiveGeneralWorkers now s <> []
       /\ Manager.checkAndAssignWork cfg now now' s
          = Manager.distributePagesToGeneralWorkers cfg T now' s.
Proof.
  unfold Manager.checkAndAssignWork.
  destruct (truthy (s !! REDIS_KEY_TOTAL_PAGES)); simpl; [|by left].
  destruct (s !! REDIS_KEY_TOTAL_PAGES ≫= parseValue) as [T|]; [|by left].
  destruct (T <=? 0) eqn:ET; [by left|]. apply Z.leb_gt in ET.
  case_bool_decide as Hlen; [by left|].
  repeat case_match; try (by left).
  all: right; exists T; repeat split; try done; try lia.
  all: intros Hnil; by rewrite Hnil in Hlen.
Qed.
End tick.

(** X25.  A manager tick writes nothing but the range and the completion
    flag of general workers that are live when it distributes, and the two
    rotation keys: the page count, the heartbeats, the processing flags and
    every key of the product workers are as before. *)
Theorem manager_tick_frame (cfg : config) (now now' : Z) (s : store) (k : key) :
  (forall w, w ∈ Manager.detectActiveGeneralWorkers now' s ->
     k <> REDIS_KEY_GENERAL_WORKER_PAGES w
     /\ k <> REDIS_KEY_GENERAL_WORKER_COMPLETE w) ->
  k <> REDIS_KEY_ROTATION_INDEX -> k <> REDIS_KEY_LAST_ASSIGNED_PAGE ->
  Manager.checkAndAssignWork cfg now now' s !! k = s !! k.
Proof.
  intros Hk Hr Hl.
  destruct (checkAndAssignWork_cases cfg now now' s)
    as [->|(T & _ & _ & _ & ->)]; [done|].
  unfold Manager.distributePagesToGeneralWorkers.
  destruct (ENABLE_ROUND_ROBIN_ROTATION cfg).
  - by apply distributePagesRoundRobin_frame.
  - by apply distributePagesEvenly_frame.
Qed.

Lemma manager_tick_frame_witness :
  Manager.checkAndAssignWork Scenario.evenMode 5000 5001
    (Scenario.coldStart "300" 2) !! REDIS_KEY_WORKER_PAGES 1
  = Scenario.coldStart "300" 2 !! REDIS_KEY_WORKER_PAGES 1.
Proof.
  apply (manager_tick_frame Scenario.evenMode 5000 5001
           (Scenario.coldStart "300" 2) (REDIS_KEY_WORKER_PAGES 1));
    [intros w _; split; discriminate|discriminate|discriminate].
Defined.

Section settle.
Implicit Types (s : store) (ws : list nat).

Lemma needsEvenAssignment_after c T ws s : NoDup ws -> forall ws',
  (forall w, w ∈ ws' -> w ∈ ws) ->
  Manager.needsEvenAssignment T (Manager.assignEvenly c T 0 ws s) ws'
  = Some false.
Proof.
  intros Hnd. induction ws' as [|w ws' IH]; intros Hsub; simpl; [done|].
  assert (Hw : w ∈ ws) by (apply Hsub; by left).
  apply list_elem_of_lookup in Hw as [j Hj].
  rewrite (assignEvenly_pages c T ws Hnd 0 s j w Hj).
  rewrite (assignEvenly_complete c T ws 0 s w)
    by (by eapply list_elem_of_lookup_2).
  simpl. change (isOne None) with false.
  rewrite IH by (intros; apply Hsub; by right).
  by destruct (isOne _).
Qed.

Lemma even_tick_unfold cfg now now' s :
  ENABLE_ROUND_ROBIN_ROTATION cfg = false ->
  Manager.checkAndAssignWork cfg now now' s
  = match s !! REDIS_KEY_TOTAL_PAGES ≫= parseValue with
    | Some T =>
        if truthy (s !! REDIS_KEY_TOTAL_PAGES) && (0 <? T)
           && bool_decide (Manager.detectActiveGeneralWorkers now s <> [])
           && bool_decide
                (Manager.needsEvenAssignment T s
                   (Manager.detectActiveGeneralWorkers now s) = Some true)
        then Manager.distributePagesEvenly T now' s
        else s
    | None => s
    end.
Proof.
  intros Heven.
  unfold Manager.checkAndAssignWork, Manager.distributePagesToGeneralWorkers.
  rewrite Heven.
  destruct (s !! REDIS_KEY_TOTAL_PAGES ≫= parseValue) as [T|];
    [|by destruct (truthy _)].
  destruct (truthy (s !! REDIS_KEY_TOTAL_PAGES)); simpl; [|done].
  destruct (Z.leb_spec T 0), (Z.ltb_spec 0 T); try lia; simpl; [done|].
  destruct (Manager.detectActiveGeneralWorkers now s) as [|w ws] eqn:Hlive.
  { done. }
  rewrite bool_decide_eq_false_2 by done.
  rewrite (bool_decide_eq_true_2 (_ <> [])) by done. cbn [andb].
  destruct (Manager.needsEvenAssignment T s (w :: ws)) as [[|]|];
    by case_bool_decide.
Qed.
End settle.

(** X26.  In even mode the manager settles: a tick repeated while the same
    general workers are live, and before any of them has reported, changes
    nothing.  The manager hands out ranges again only when the live set
    changes or a worker reports completion. *)
Theorem even_tick_settles (cfg : config) (now now' now2 now2' : Z) (s : store) :
  ENABLE_ROUND_ROBIN_ROTATION cfg = false ->
  Manager.detectActiveGeneralWorkers now' s
  = Manager.detectActiveGeneralWorkers now s ->
  Manager.detectActiveGeneralWorkers now2 s
  = Manager.detectActiveGeneralWorkers now s ->
  let s1 := Manager.checkAndAssignWork cfg now now' s in
  Manager.checkAndAssignWork cfg now2 now2' s1 = s1.
Proof.
  intros Heven Hnow' Hnow2 s1.
  pose proof (even_tick_unfold cfg now now' s Heven) as Hfirst.
  fold s1 in Hfirst.
  destruct (s !! REDIS_KEY_TOTAL_PAGES ≫= parseValue) as [T|] eqn:HT.
  2: { rewrite Hfirst, (even_tick_unfold cfg now2 now2' s Heven).
       by rewrite HT. }
  destruct (truthy _ && _ && bool_decide (_ <> []) && _) eqn:E.
  2: { rewrite Hfirst, (even_tick_unfold cfg now2 now2' s Heven).
       by rewrite HT, Hnow2, E. }
  rename Hfirst into Hdist.
  assert (Hlive : Manager.detectActiveGeneralWorkers now s <> []).
  { apply andb_true_iff in E as [E _].
    apply andb_true_iff in E as [_ E]. by apply bool_decide_eq_true in E. }
  clear E.
  - assert (Hframe : forall k,
              (forall w, k <> REDIS_KEY_GENERAL_WORKER_PAGES w) ->
              (forall w, k <> REDIS_KEY_GENERAL_WORKER_COMPLETE w) ->
              s1 !! k = s !! k).
    { intros k H1 H2. rewrite Hdist.
      apply distributePagesEvenly_frame. intros; split; [apply H1|apply H2]. }
    assert (Hlive1 : Manager.detectActiveGeneralWorkers now2 s1
                     = Manager.detectActiveGeneralWorkers now s).
    { rewrite <- Hnow2. apply detectActive_ext.
      intros w. by apply Hframe. }
    rewrite (even_tick_unfold cfg now2 now2' s1 Heven).
    rewrite (Hframe REDIS_KEY_TOTAL_PAGES) by done.
    rewrite HT, Hlive1.
    assert (Manager.needsEvenAssignment T s1
              (Manager.detectActiveGeneralWorkers now s) = Some false) as ->.
    { rewrite Hdist. unfold Manager.distributePagesEvenly. rewrite Hnow'.
      rewrite bool_decide_eq_false_2
        by (by destruct (Manager.detectActiveGeneralWorkers now s)).
      apply needsEvenAssignment_after; [apply detectActive_NoDup|done]. }
    rewrite (bool_decide_eq_false_2 (Some false = Some true)) by done.
    by rewrite andb_false_r.
Qed.

Lemma even_tick_settles_witness :
  let s1 := Manager.checkAndAssignWork Scenario.evenMode 5000 5001
              (Scenario.coldStart "300" 2) in
  s1 !! REDIS_KEY_GENERAL_WORKER_PAGES 2 = Some (VRange 151 300)
  /\ Manager.checkAndAssignWork Scenario.evenMode 10000 10001 s1 = s1.
Proof.
  intros s1. split; [vm_compute; reflexivity|].
  apply (even_tick_settles Scenario.evenMode 5000 5001 10000 10001
           (Scenario.coldStart "300" 2)).
  - reflexivity.
  - vm_compute. reflexivity.
  - vm_compute. reflexivity.
Defined.


(** X27.  The rotation hands the next batch to the live general worker at
    the position of the rotation index (position 0 when the stored index
    is not below the number of live workers), and moves the index one
    position on, wrapping around after the last live worker: consecutive
    batches go to the live workers in ascending order of their ids, again
    and again. *)
Theorem rotation_visits_in_order (B T now : Z) (s : store) :
  let live := Manager.detectActiveGeneralWorkers now s in
  let count := Z.of_nat (length live) in
  let L := Manager.lastAssignedPage s in
  let i := if count <=? Manager.rotationIndex s
           then 0 else Manager.rotationIndex s in
  let s' := Manager.distributePagesRoundRobin B T now s in
  live <> [] -> L < T ->
  exists w, live !! Z.to_nat i = Some w
    /\ s' !! REDIS_KEY_GENERAL_WORKER_PAGES w
       = Some (VRange (L + 1) (Z.min (L + B) T))
    /\ Manager.rotationIndex s' = (i + 1) `mod` count.
Proof.
  intros live count L i s' Hlive HLT.
  assert (Hcount : 1 <= count)
    by (unfold count; destruct live; [done|simpl; lia]).
  pose proof (counterValue_nonneg (s !! REDIS_KEY_ROTATION_INDEX)) as Hidx.
  fold (Manager.rotationIndex s) in Hidx.
  assert (Hi : 0 <= i < count).
  { unfold i. destruct (Z.leb_spec count (Manager.rotationIndex s)); lia. }
  destruct (lookup_lt_is_Some_2 live (Z.to_nat i)) as [w Hw];
    [unfold count in Hi; lia|].
  exists w. split; [done|].
  pose proof (Z.mod_pos_bound (i + 1) count ltac:(lia)) as Hnext.
  assert (Hs' : exists s3,
            (forall k, k <> REDIS_KEY_ROTATION_INDEX ->
                       k <> REDIS_KEY_LAST_ASSIGNED_PAGE -> s3 !! k = s !! k)
            /\ s' = set REDIS_KEY_LAST_ASSIGNED_PAGE
                      (VStr (JS.toString (Z.min (L + 1 + B - 1) T)))
                      (set REDIS_KEY_ROTATION_INDEX
                         (VStr (JS.toString ((i + 1) `mod` count)))
                         (del (REDIS_KEY_GENERAL_WORKER_COMPLETE w)
                            (set (REDIS_KEY_GENERAL_WORKER_PAGES w)
                               (VRange (L + 1) (Z.min (L + 1 + B - 1) T))
                               s3)))).
  { unfold s', Manager.distributePagesRoundRobin.
    fold live. fold count.
    rewrite bool_decide_eq_false_2 by (destruct live; [done|simpl; lia]).
    unfold i, L, Manager.rotationIndex, Manager.lastAssignedPage in *.
    destruct (readCounter (s !! REDIS_KEY_ROTATION_INDEX)) as [|idx|];
      destruct (readCounter (s !! REDIS_KEY_LAST_ASSIGNED_PAGE)) as [|last|];
      cbn [counterValue] in *;
      destruct (count <=? _) eqn:Ec; cbn [counterValue] in *;
      destruct (T <=? _) eqn:ET; try lia;
      rewrite ?Z.mod_small by lia; rewrite Hw;
      destruct (T <? _) eqn:ET'; try lia;
      (eexists; split; [|reflexivity]);
      intros k Hk1 Hk2; unfold set; by rewrite ?lookup_insert_ne. }
  destruct Hs' as (s3 & Hframe & ->). unfold set, del. split.
  - rewrite !lookup_insert_ne, lookup_delete_ne, lookup_insert_eq by done.
    do 3 f_equal. lia.
  - unfold Manager.rotationIndex.
    rewrite lookup_insert_ne, lookup_insert_eq by done.
    by rewrite readCounter_toString by lia.
Qed.

Lemma rotation_visits_in_order_witness :
  let s := set REDIS_KEY_ROTATION_INDEX (VStr "1")
             (set REDIS_KEY_LAST_ASSIGNED_PAGE (VStr "50")
                (Scenario.coldStart "120" 2)) in
  exists w,
    Manager.detectActiveGeneralWorkers 5000 s !! 1%nat = Some w
    /\ Manager.distributePagesRoundRobin 50 120 5000 s
         !! REDIS_KEY_GENERAL_WORKER_PAGES w
       = Some (VRange 51 100)
    /\ Manager.rotationIndex (Manager.distributePagesRoundRobin 50 120 5000 s)
       = 0.
Proof.
  intros s.
  apply (rotation_visits_in_order 50 120 5000 s); [discriminate|reflexivity].
Defined.


(** ** A batch from hand-out to completion *)

Section roundTrip.
Context (fuel : nat) (b : browser) (tab : Z -> list ProductRecord)
  (pages : list Z) (T : Z).
Hypothesis total_positive : 0 < T.
Hypothesis context_open : hasContext b = true.
Hypothesis tabs_open :
  forall p, p ∈ pages -> findTabByPageNumber b p = Some (tab p).

(** The product workers of [todo] crawl one after the other. *)
Lemma workers_drain (todo : list nat) : NoDup todo -> forall w0 : world,
  redis w0 !! REDIS_KEY_TOTAL_PAGES ≫= parseValue = Some T ->
  (forall w, w ∈ todo ->
     exists l, redis w0 !! REDIS_KEY_WORKER_PAGES w = Some (VPages l)
       /\ (forall p, p ∈ l -> p ∈ pages) /\ (length l <= fuel)%nat) ->
  exists wf,
    foldl (fun ow workerId => ow ≫= Product.crawlAllPages fuel b workerId)
      (Some w0) todo = Some wf
    /\ (forall w, w ∈ todo ->
          redis wf !! REDIS_KEY_WORKER_PAGES w = Some (VPages []))
    /\ (forall k,
          (forall w, w ∈ todo ->
             k <> REDIS_KEY_WORKER_PAGES w
             /\ k <> REDIS_KEY_WORKER_COMPLETE w) ->
          redis wf !! k = redis w0 !! k).
Proof.
  induction 1 as [|w todo Hnotin Hnd IH]; intros w0 Htotal Hlists.
  - exists w0. split; [done|]. split; [|done].
    intros w Hw. by apply elem_of_nil in Hw.
  - destruct (Hlists w ltac:(by left)) as (l & Hl & Hsub & Hlen).
    assert (exists w1, Product.crawlAllPages fuel b w w0 = Some w1
              /\ redis w1 !! REDIS_KEY_WORKER_PAGES w = Some (VPages []))
      as (w1 & Hrun & Hdone).
    { destruct l as [|p l'] eqn:El.
      - exists w0. split; [|done]. apply crawlAllPages_idle. by right.
      - rewrite <- El in *. eexists. split.
        + apply (crawlAllPages_drains fuel b w w0 tab T l); try done.
          * by rewrite El.
          * intros q Hq. by apply tabs_open, Hsub.
        + simpl. unfold set.
          by rewrite lookup_insert_ne, lookup_insert_eq. }
    pose proof (fun k H1 H2 => crawlAllPages_frame b w fuel w0 w1 k H1 H2 Hrun)
      as Hframe.
    destruct (IH w1) as (wf & Hfold & Hdrained & Hrest).
    + by rewrite Hframe.
    + intros w' Hw'. rewrite Hframe; [|intros [= ->]; done|done].
      apply Hlists. by right.
    + exists wf. split; [simpl; by rewrite Hrun|]. split.
      * intros w' Hw'. apply elem_of_cons in Hw' as [->|Hw'].
        -- rewrite Hrest; [done|]. intros w' Hw'. split; [|done].
           intros [= ->]. done.
        -- by apply Hdrained.
      * intros k Hk. rewrite Hrest.
        -- destruct (Hk w ltac:(by left)). by apply Hframe.
        -- intros w' Hw'. apply Hk. by right.
Qed.

Lemma dealt_member n wp i l :
  Batch.dealt n pages wp -> wp !! i = Some l ->
  (forall p, p ∈ l -> p ∈ pages) /\ (length l <= length pages)%nat.
Proof.
  intros (Hlen & Hperm & Hl) Hi. split.
  - intros p Hp. apply list_elem_of_lookup in Hp as [j Hj].
    rewrite (Hl i l Hi) in Hj. by eapply list_elem_of_lookup_2.
  - rewrite <- Hperm. clear -Hi. revert i Hi.
    induction wp as [|l0 wp IH]; intros [|i] Hi; simpl in *; try done.
    + injection Hi as ->. rewrite length_app. lia.
    + rewrite length_app. specialize (IH i Hi). lia.
Qed.
End roundTrip.

Lemma detectActiveWorkers_ext now (s s' : store) :
  (forall w, s' !! REDIS_KEY_WORKER_HEARTBEAT w
             = s !! REDIS_KEY_WORKER_HEARTBEAT w) ->
  General.detectActiveWorkers now s' = General.detectActiveWorkers now s.
Proof. unfold General.detectActiveWorkers. apply detectActive_ext. Qed.

Lemma detectActiveWorkers_NoDup now (s : store) :
  NoDup (General.detectActiveWorkers now s).
Proof. unfold General.detectActiveWorkers. apply detectActive_NoDup. Qed.

Lemma batch_round_trip_list (fuel : nat) (b : browser)
    (tab : Z -> list ProductRecord) (pages : list Z)
    (T now : Z) (s : store) (d : database) (ws : list nat) :
  General.detectActiveWorkers now s = ws -> ws <> [] ->
  s !! REDIS_KEY_TOTAL_PAGES ≫= parseValue = Some T -> 0 < T ->
  hasContext b = true ->
  (forall p, p ∈ pages -> findTabByPageNumber b p = Some (tab p)) ->
  (length pages <= fuel)%nat ->
  exists s1 wf,
    Batch.distributePagesToWorkersWithList pages ws s = Some s1
    /\ foldl (fun ow workerId => ow ≫= Product.crawlAllPages fuel b workerId)
         (Some {| redis := s1; db := d |}) ws = Some wf
    /\ (forall w, w ∈ ws ->
          redis wf !! REDIS_KEY_WORKER_PAGES w = Some (VPages []))
    /\ Batch.pollBatch now (redis wf)
       = Batch.Complete
           (set REDIS_KEY_BATCH_COMPLETE (VStr "1") (redis wf)).
Proof.
  intros Hws Hlive Htotal HT Hctx Htabs Hfuel.
  assert (Hnd : NoDup ws) by (rewrite <- Hws; apply detectActiveWorkers_NoDup).
  destruct (Batch.distributePagesToWorkersWithList pages ws s) as [s1|] eqn:Hs1.
  2: { exfalso. unfold Batch.distributePagesToWorkersWithList in Hs1.
       rewrite (bool_decide_eq_false_2 (length ws = 0%nat)) in Hs1
         by (by destruct ws).
       discriminate Hs1. }
  destruct (distribute_store pages ws s s1 Hnd Hs1)
    as (wp & Hdealt & Hset & _ & _ & _ & Hframe & _).
  destruct (workers_drain fuel b tab pages T HT Hctx Htabs ws Hnd
              {| redis := s1; db := d |}) as (wf & Hfold & Hdrained & Hrest).
  { cbn [redis]. by rewrite Hframe. }
  { intros w Hw. apply list_elem_of_lookup in Hw as [i Hi].
    destruct (lookup_lt_is_Some_2 wp i) as [l Hl].
    { destruct Hdealt as [-> _]. by eapply lookup_lt_Some. }
    exists l. split; [exact (Hset i w l Hi Hl)|].
    destruct (dealt_member pages _ wp i l Hdealt Hl) as [Hsub Hlen].
    split; [exact Hsub|lia]. }
  exists s1, wf. split; [reflexivity|]. split; [exact Hfold|].
  split; [exact Hdrained|].
  assert (Hsame : General.detectActiveWorkers now (redis wf) = ws).
  { rewrite <- Hws. apply detectActiveWorkers_ext. intros w.
    rewrite Hrest by (intros; split; discriminate).
    cbn [redis]. by apply Hframe. }
  apply pollBatch_drained; rewrite Hsame; [exact Hlive|].
  intros w Hw. right. exact (Hdrained w Hw).
Qed.

(** X28.  A batch goes round.  When some product worker is live, the page
    count is known, and the tab of every page of the batch is open, then
    the hand-out succeeds, every live product worker that crawls drains its
    list, and the next round of the wait declares the batch complete. *)
Theorem batch_round_trip (fuel : nat) (b : browser)
    (tab : Z -> list ProductRecord) (total : option Z) (pages : list Z)
    (T now : Z) (s : store) (d : database) :
  s !! REDIS_KEY_TOTAL_PAGES ≫= parseValue = Some T -> 0 < T ->
  General.detectActiveWorkers now s <> [] ->
  hasContext b = true ->
  (forall p, p ∈ pages -> findTabByPageNumber b p = Some (tab p)) ->
  (length pages <= fuel)%nat ->
  exists s1 wf,
    Batch.distributePagesToWorkers total pages now s = Some s1
    /\ foldl (fun ow workerId => ow ≫= Product.crawlAllPages fuel b workerId)
         (Some {| redis := s1; db := d |})
         (General.detectActiveWorkers now s) = Some wf
    /\ (forall w, w ∈ General.detectActiveWorkers now s ->
          redis wf !! REDIS_KEY_WORKER_PAGES w = Some (VPages []))
    /\ Batch.pollBatch now (redis wf)
       = Batch.Complete
           (set REDIS_KEY_BATCH_COMPLETE (VStr "1") (redis wf)).
Proof.
  intros Htotal HT Hlive Hctx Htabs Hfuel.
  destruct (batch_round_trip_list fuel b tab pages T now s d _ eq_refl Hlive
              Htotal HT Hctx Htabs Hfuel) as (s1 & wf & Hs1 & Hrun).
  exists s1, wf. split; [|exact Hrun].
  unfold Batch.distributePagesToWorkers.
  rewrite bool_decide_eq_false_2; [exact Hs1|].
  by destruct (General.detectActiveWorkers now s).
Qed.

Lemma batch_round_trip_witness :
  let b := {| hasContext := true; findTabByPageNumber := fun _ => Some [] |} in
  let s := Lifecycle.productSendHeartbeat 2 1000
             (Lifecycle.productSendHeartbeat 1 1000
                (set REDIS_KEY_TOTAL_PAGES (VStr "10") ∅)) in
  exists s1 wf,
    Batch.distributePagesToWorkers None [6; 7; 8] 5000 s = Some s1
    /\ foldl (fun ow workerId => ow ≫= Product.crawlAllPages 3 b workerId)
         (Some {| redis := s1; db := Scenario.emptyDb |})
         (General.detectActiveWorkers 5000 s) = Some wf
    /\ (forall w, w ∈ General.detectActiveWorkers 5000 s ->
          redis wf !! REDIS_KEY_WORKER_PAGES w = Some (VPages []))
    /\ Batch.pollBatch 5000 (redis wf)
       = Batch.Complete
           (set REDIS_KEY_BATCH_COMPLETE (VStr "1") (redis wf)).
Proof.
  intros b s.
  apply (batch_round_trip 3 b (fun _ => []) None [6; 7; 8] 10 5000 s
           Scenario.emptyDb);
    [reflexivity|lia|discriminate|reflexivity|reflexivity|simpl; lia].
Defined.

(** ** The names of the keys *)

(** X29.  The key-building functions never give two keys the same name:
    the names of the coordination keys are pairwise different, for every
    role and every worker id, so a write to one key is never a write to
    another. *)
Theorem key_names_distinct (k1 k2 : key) : keyName k1 = keyName k2 <-> k1 = k2.
Proof. split; [apply keyName_inj|by intros ->]. Qed.
